(** * Santa Clara County property scraper: resolution pipeline and extraction engine

    A shallow embedding of [src/main.py].  Python text is modelled as
    [string] over ASCII; exceptions are an explicit error type; the
    remote services are an oracle record and every remote call is
    recorded in a trace.  The document-object parser and the regular
    expression library are collaborators of the program: they are
    modelled here by a small tree builder for explicitly closed markup
    and by a backtracking matcher with Python's leftmost, greedy,
    ordered-alternative search. *)

From Stdlib Require Import String Ascii List ZArith Bool Arith Lia DecimalString Sorted.
Import ListNotations.
Local Open Scope string_scope.
Local Open Scope nat_scope.
Local Open Scope list_scope.
#[local] Set Warnings "-register-all".

(* ================================================================== *)
(** ** Exceptions *)

Inductive exn : Type :=
| ValueError
| KeyError
| AttributeError
| TypeError
| AssertionError.

Inductive result (A : Type) : Type :=
| Ok (a : A)
| Raise (e : exn).
Arguments Ok {A} a.
Arguments Raise {A} e.

Definition rbind {A B} (c : result A) (f : A -> result B) : result B :=
  match c with
  | Ok a => f a
  | Raise e => Raise e
  end.

Notation "'try!' x <- c ; k" := (rbind c (fun x => k))
  (at level 10, x name, c at level 100, k at level 200).

(* ================================================================== *)
(** ** Python [str] operations (ASCII) *)

(** Strings stand for ASCII text.  On ASCII the classes below are those
    of the program's patterns and of [str.strip]; beyond ASCII Python
    knows further white space and digits, which are not modelled. *)

Definition is_space (c : ascii) : bool :=
  let n := nat_of_ascii c in
  ((9 <=? n) && (n <=? 13)) || ((28 <=? n) && (n <=? 32)).

Definition is_digit (c : ascii) : bool :=
  let n := nat_of_ascii c in (48 <=? n) && (n <=? 57).

Definition is_upper (c : ascii) : bool :=
  let n := nat_of_ascii c in (65 <=? n) && (n <=? 90).

Definition is_lower (c : ascii) : bool :=
  let n := nat_of_ascii c in (97 <=? n) && (n <=? 122).

Definition to_upper (c : ascii) : ascii :=
  if is_lower c then ascii_of_nat (nat_of_ascii c - 32) else c.

Definition to_lower (c : ascii) : ascii :=
  if is_upper c then ascii_of_nat (nat_of_ascii c + 32) else c.

(** [\w] *)
Definition is_word (c : ascii) : bool :=
  is_digit c || is_upper c || is_lower c || Ascii.eqb c "_".

(** Truthiness of a [str]. *)
Definition nonempty (s : string) : bool :=
  match s with
  | EmptyString => false
  | String _ _ => true
  end.

(** Truthiness of a [str | None]. *)
Definition truthy (o : option string) : bool :=
  match o with
  | Some s => nonempty s
  | None => false
  end.

Fixpoint smap (f : ascii -> ascii) (s : string) : string :=
  match s with
  | EmptyString => EmptyString
  | String c s' => String (f c) (smap f s')
  end.

Definition upper (s : string) : string := smap to_upper s.
Definition lower (s : string) : string := smap to_lower s.

Fixpoint sfilter (p : ascii -> bool) (s : string) : string :=
  match s with
  | EmptyString => EmptyString
  | String c s' => if p c then String c (sfilter p s') else sfilter p s'
  end.

Fixpoint sforall (p : ascii -> bool) (s : string) : bool :=
  match s with
  | EmptyString => true
  | String c s' => p c && sforall p s'
  end.

Fixpoint lstrip (s : string) : string :=
  match s with
  | EmptyString => EmptyString
  | String c s' => if is_space c then lstrip s' else s
  end.

Fixpoint rstrip (s : string) : string :=
  match s with
  | EmptyString => EmptyString
  | String c s' =>
      match rstrip s' with
      | EmptyString => if is_space c then EmptyString else String c EmptyString
      | r => String c r
      end
  end.

(** [s.strip()] *)
Definition strip (s : string) : string := rstrip (lstrip s).

(** [s.startswith(p)] *)
Fixpoint starts_with (p s : string) : bool :=
  match p, s with
  | EmptyString, _ => true
  | String a p', String b s' => Ascii.eqb a b && starts_with p' s'
  | String _ _, EmptyString => false
  end.

(** [sub in s] *)
Fixpoint contains (sub s : string) : bool :=
  starts_with sub s ||
  match s with
  | EmptyString => false
  | String _ s' => contains sub s'
  end.

Fixpoint sdrop (n : nat) (s : string) : string :=
  match n, s with
  | O, _ => s
  | S n', String _ s' => sdrop n' s'
  | S _, EmptyString => EmptyString
  end.

Fixpoint stake (n : nat) (s : string) : string :=
  match n, s with
  | S n', String c s' => String c (stake n' s')
  | _, _ => EmptyString
  end.

(** [s.endswith(suf)] *)
Definition ends_with (suf s : string) : bool :=
  (String.length suf <=? String.length s)%nat &&
  String.eqb (sdrop (String.length s - String.length suf) s) suf.

(** [s.split(sep, 1)] for a one-character separator that occurs in [s]:
    the text before the first separator and the text after it. *)
Fixpoint split_once (sep : ascii) (s : string) : string * string :=
  match s with
  | EmptyString => (EmptyString, EmptyString)
  | String c s' =>
      if Ascii.eqb c sep then (EmptyString, s')
      else let (a, b) := split_once sep s' in (String c a, b)
  end.

Fixpoint replace_go (old new : string) (skip : nat) (s : string) : string :=
  match s with
  | EmptyString => EmptyString
  | String c s' =>
      match skip with
      | S k => replace_go old new k s'
      | O =>
          if starts_with old s
          then (new ++ replace_go old new (String.length old - 1) s')%string
          else String c (replace_go old new 0 s')
      end
  end.

(** [s.replace(old, new)] for a non-empty [old]: occurrences are
    replaced left to right without overlap. *)
Definition replace (old new s : string) : string := replace_go old new 0 s.

(** [sep.join(l)] *)
Fixpoint join (sep : string) (l : list string) : string :=
  match l with
  | [] => EmptyString
  | [x] => x
  | x :: rest => (x ++ sep ++ join sep rest)%string
  end.

(** [re.split(cls+, s)] for a character class [cls]: the pieces between
    maximal runs of separator characters (empty pieces at the ends are
    kept, as Python keeps them). *)
Fixpoint split_runs (p : ascii -> bool) (in_sep : bool) (s : string) : list string :=
  match s with
  | EmptyString => [EmptyString]
  | String c s' =>
      if p c then
        (if in_sep then split_runs p true s' else EmptyString :: split_runs p true s')
      else
        match split_runs p false s' with
        | h :: t => String c h :: t
        | [] => [String c EmptyString]
        end
  end.

Definition is_newline (c : ascii) : bool :=
  Ascii.eqb c "010" || Ascii.eqb c "013".

(** [re.split(r"[\n\r]+", s)] *)
Definition re_split_lines (s : string) : list string :=
  split_runs is_newline false s.

(** [[ln.strip() for ln in re.split(r"[\n\r]+", s) if ln.strip()]] *)
Definition stripped_lines (s : string) : list string :=
  filter nonempty (map strip (re_split_lines s)).

Definition digit_val (c : ascii) : Z := Z.of_nat (nat_of_ascii c - 48).

Fixpoint int_digits (acc : Z) (s : string) : Z :=
  match s with
  | EmptyString => acc
  | String c s' => int_digits (acc * 10 + digit_val c)%Z s'
  end.

(** The default of [sys.int_max_str_digits]: [int] refuses a decimal
    numeral that has more digits. *)
Definition int_max_str_digits : Z := 4300.

(** [int(s)] on the digit runs the program passes to it: the empty
    string, like any text that is not a decimal numeral, is a
    [ValueError], and so is a numeral of more than
    [int_max_str_digits] digits (leading zeros count). *)
Definition py_int (s : string) : result Z :=
  if nonempty s && sforall is_digit s
     && (Z.of_nat (String.length s) <=? int_max_str_digits)%Z
  then Ok (int_digits 0 s)
  else Raise ValueError.

(* ================================================================== *)
(** ** Regular expressions ([re.search]) *)

Inductive regex : Type :=
| Nul                               (* matches nothing *)
| Eps                               (* empty match *)
| Chr (c : ascii)                   (* a literal character *)
| Cls (p : ascii -> bool)           (* a character class *)
| Seq (r1 r2 : regex)
| Alt (r1 r2 : regex)               (* r1|r2, r1 tried first *)
| Star (r : regex)                  (* greedy r* *)
| Grp (n : nat) (r : regex)         (* capture group n *)
| WordB                             (* \b *)
| Bol.                              (* ^ *)

Definition captures := list (nat * string).

Definition group (n : nat) (m : captures) : string :=
  match find (fun p => Nat.eqb (fst p) n) m with
  | Some p => snd p
  | None => EmptyString
  end.

Definition chr_eq (ci : bool) (c d : ascii) : bool :=
  if ci then Ascii.eqb (to_lower c) (to_lower d) else Ascii.eqb c d.

Definition cls_in (ci : bool) (p : ascii -> bool) (d : ascii) : bool :=
  if ci then p d || p (to_lower d) || p (to_upper d) else p d.

Definition head_char (s : string) : option ascii :=
  match s with
  | EmptyString => None
  | String c _ => Some c
  end.

Definition word_at (o : option ascii) : bool :=
  match o with
  | Some c => is_word c
  | None => false
  end.

(** Backtracking matcher in continuation style.  [prev] is the character
    before the current position (for [\b] and [^]), [s] the remaining
    text, [k] what must match afterwards.  [ci] is the [re.I] flag. *)
Fixpoint rmatch {A : Type} (ci : bool) (r : regex) (prev : option ascii) (s : string)
  (caps : captures) (k : option ascii -> string -> captures -> option A) {struct r} : option A :=
  match r with
  | Nul => None
  | Eps => k prev s caps
  | Chr c =>
      match s with
      | String d s' => if chr_eq ci c d then k (Some d) s' caps else None
      | EmptyString => None
      end
  | Cls p =>
      match s with
      | String d s' => if cls_in ci p d then k (Some d) s' caps else None
      | EmptyString => None
      end
  | Seq r1 r2 =>
      rmatch ci r1 prev s caps (fun prev' s' caps' => rmatch ci r2 prev' s' caps' k)
  | Alt r1 r2 =>
      match rmatch ci r1 prev s caps k with
      | Some x => Some x
      | None => rmatch ci r2 prev s caps k
      end
  | Star r1 =>
      (fix loop (fuel : nat) (prev0 : option ascii) (s0 : string) (caps0 : captures)
         {struct fuel} : option A :=
         match fuel with
         | O => k prev0 s0 caps0
         | S fuel' =>
             match rmatch ci r1 prev0 s0 caps0
                     (fun prev' s' caps' =>
                        if (String.length s' <? String.length s0)%nat
                        then loop fuel' prev' s' caps'
                        else None) with
             | Some x => Some x
             | None => k prev0 s0 caps0
             end
         end) (S (String.length s)) prev s caps
  | Grp n r1 =>
      rmatch ci r1 prev s caps
        (fun prev' s' caps' =>
           k prev' s' ((n, stake (String.length s - String.length s') s) :: caps'))
  | WordB =>
      if xorb (word_at prev) (word_at (head_char s)) then k prev s caps else None
  | Bol =>
      match prev with
      | None => k prev s caps
      | Some _ => None
      end
  end.

Fixpoint search_from (ci : bool) (r : regex) (prev : option ascii) (s : string)
  : option captures :=
  match rmatch ci r prev s [] (fun _ _ caps => Some caps) with
  | Some m => Some m
  | None =>
      match s with
      | EmptyString => None
      | String c s' => search_from ci r (Some c) s'
      end
  end.

(** [re.search(r, s)] ([ci = true] for [re.I]): the captures of the
    leftmost match, or [None]. *)
Definition re_search (ci : bool) (r : regex) (s : string) : option captures :=
  search_from ci r None s.

Definition re_test (ci : bool) (r : regex) (s : string) : bool :=
  match re_search ci r s with
  | Some _ => true
  | None => false
  end.

(** Pattern syntax. *)
Fixpoint lit (s : string) : regex :=
  match s with
  | EmptyString => Eps
  | String c EmptyString => Chr c
  | String c s' => Seq (Chr c) (lit s')
  end.

Fixpoint cat (l : list regex) : regex :=
  match l with
  | [] => Eps
  | [r] => r
  | r :: rs => Seq r (cat rs)
  end.

Fixpoint alt (l : list regex) : regex :=
  match l with
  | [] => Nul
  | [r] => r
  | r :: rs => Alt r (alt rs)
  end.

Definition opt (r : regex) : regex := Alt r Eps.          (* r? *)
Definition plus (r : regex) : regex := Seq r (Star r).    (* r+ *)

Fixpoint rep (n : nat) (r : regex) : regex :=              (* r{n} *)
  match n with
  | O => Eps
  | S O => r
  | S n' => Seq r (rep n' r)
  end.

Definition ws : regex := Cls is_space.                     (* \s *)
Definition dg : regex := Cls is_digit.                     (* \d *)

(* ================================================================== *)
(** ** Document tree ([BeautifulSoup(html, "lxml")]) *)

Inductive node : Type :=
| Text (s : string)
| Tag (name : string) (children : list node).

(** The parsed document: the children of the root object. *)
Definition soup := list node.

Inductive token : Type :=
| TOpen (name : string)
| TClose (name : string)
| TText (s : string).

Fixpoint srev_onto (s acc : string) : string :=
  match s with
  | EmptyString => acc
  | String c s' => srev_onto s' (String c acc)
  end.

Definition srev (s : string) : string := srev_onto s EmptyString.

Fixpoint tag_name (s : string) : string :=
  match s with
  | EmptyString => EmptyString
  | String c s' =>
      if is_space c || Ascii.eqb c "/" then EmptyString else String c (tag_name s')
  end.

(** The token of the text between [<] and [>]. *)
Definition tag_token (body : string) : list token :=
  match body with
  | String "/" rest => [TClose (lower (tag_name rest))]
  | String "!" _ => []
  | String "?" _ => []
  | _ => [TOpen (lower (tag_name body))]
  end.

Definition text_token (s : string) : list token :=
  if nonempty s then [TText s] else [].

Fixpoint tokenize_go (in_tag : bool) (acc : string) (s : string) : list token :=
  match s with
  | EmptyString => if in_tag then [] else text_token (srev acc)
  | String c s' =>
      if in_tag then
        (if Ascii.eqb c ">" then tag_token (srev acc) ++ tokenize_go false EmptyString s'
         else tokenize_go true (String c acc) s')
      else
        (if Ascii.eqb c "<" then text_token (srev acc) ++ tokenize_go true EmptyString s'
         else tokenize_go false (String c acc) s')
  end.

Definition tokenize (html : string) : list token := tokenize_go false EmptyString html.

(** Elements that never have content. *)
Definition is_void (name : string) : bool :=
  existsb (String.eqb name) ["br"; "hr"; "img"; "input"; "meta"; "link"].

(** An open element with the children read so far, newest first. *)
Definition frame : Type := string * list node.

Definition add_child (n : node) (st : list frame) : list frame :=
  match st with
  | (t, cs) :: rest => (t, n :: cs) :: rest
  | [] => [(EmptyString, [n])]
  end.

Definition pop_frame (st : list frame) : list frame :=
  match st with
  | (t, cs) :: (_ :: _) as below => add_child (Tag t (rev cs)) below
  | _ => st
  end.

Definition is_open (name : string) (st : list frame) : bool :=
  existsb (fun f => String.eqb (fst f) name) (removelast st).

Fixpoint close_to (fuel : nat) (name : string) (st : list frame) : list frame :=
  match fuel with
  | O => st
  | S fuel' =>
      match st with
      | (t, _) :: _ :: _ =>
          if String.eqb t name then pop_frame st
          else close_to fuel' name (pop_frame st)
      | _ => st
      end
  end.

Fixpoint close_all (fuel : nat) (st : list frame) : list frame :=
  match fuel with
  | O => st
  | S fuel' => close_all fuel' (pop_frame st)
  end.

Definition build_step (st : list frame) (t : token) : list frame :=
  match t with
  | TText s => add_child (Text s) st
  | TOpen name =>
      if is_void name then add_child (Tag name []) st else (name, []) :: st
  | TClose name =>
      if is_open name st then close_to (length st) name st else st
  end.

(** The tree of explicitly closed markup: an element is closed by its
    end tag (elements still open inside it are closed with it), void
    elements have no content, declarations are skipped and character
    references are not decoded.  The wrappers lxml adds around a
    fragment carry no text and are not modelled. *)
Definition BeautifulSoup (html : string) : soup :=
  let st := fold_left build_step (tokenize html) [(EmptyString, [])] in
  match close_all (length st) st with
  | (_, cs) :: _ => rev cs
  | [] => []
  end.

(** Every string below a node, in document order. *)
Fixpoint all_strings (n : node) : list string :=
  match n with
  | Text s => [s]
  | Tag _ cs => flat_map all_strings cs
  end.

(** [node.get_text(" ", strip=True)]: the stripped non-empty strings
    below the node, joined by one space. *)
Definition get_text (n : node) : string :=
  join " " (filter nonempty (map strip (all_strings n))).

(** Every node below a node, in document order. *)
Fixpoint descendants (n : node) : list node :=
  match n with
  | Text _ => []
  | Tag _ cs => flat_map (fun c => c :: descendants c) cs
  end.

Definition soup_descendants (d : soup) : list node :=
  flat_map (fun c => c :: descendants c) d.

Definition has_name (names : list string) (n : node) : bool :=
  match n with
  | Text _ => false
  | Tag t _ => existsb (String.eqb t) names
  end.

(** [soup.find_all("tr")] *)
Definition find_all_tr (d : soup) : list node :=
  filter (has_name ["tr"]) (soup_descendants d).

(** [tr.find_all(["th", "td"])] *)
Definition find_all_cells (tr : node) : list node :=
  filter (has_name ["th"; "td"]) (descendants tr).

(** [soup.find(string=re.compile(pat, re.I))] followed by
    [lab.parent.find_next_sibling()]: for the first string of the
    document that the pattern matches, the siblings that follow the
    string's parent element.  [nnext] are the siblings after [n],
    [pnext] those after the parent of [n]. *)
Fixpoint find_string (pat : regex) (n : node) (nnext pnext : list node)
  : option (string * list node) :=
  match n with
  | Text s => if re_test true pat s then Some (s, pnext) else None
  | Tag _ cs =>
      (fix go (l : list node) : option (string * list node) :=
         match l with
         | [] => None
         | c :: rest =>
             match find_string pat c rest nnext with
             | Some r => Some r
             | None => go rest
             end
         end) cs
  end.

Fixpoint soup_find_string (pat : regex) (d : soup) : option (string * list node) :=
  match d with
  | [] => None
  | c :: rest =>
      match find_string pat c rest [] with
      | Some r => Some r
      | None => soup_find_string pat rest
      end
  end.

(** [find_next_sibling()]: the first following sibling that is an element. *)
Fixpoint find_next_sibling (sibs : list node) : option node :=
  match sibs with
  | [] => None
  | Text _ :: rest => find_next_sibling rest
  | Tag t cs :: _ => Some (Tag t cs)
  end.

(* ================================================================== *)
(** ** [classify_owner_type] *)

Definition any_in (keys : list string) (n : string) : bool :=
  existsb (fun k => contains k n) keys.

Definition classify_owner_type (name : option string) : option string :=
  match name with
  | None => None
  | Some nm =>
      if negb (nonempty nm) then None
      else
        let n := upper nm in
        if contains "TRUST" n || ends_with " TR" n then Some "trust"
        else if contains "LLC" n then Some "llc"
        else if any_in [" INC"; " CORP"; " CORPORATION"; " CO."; " COMPANY"] n
             then Some "corporation"
        else if any_in [" LP"; " L.P."; " LTD"; " LIMITED"; " PARTNERSHIP"] n
             then Some "partnership"
        else Some "individual"
  end.

(* ================================================================== *)
(** ** Values of the service payloads *)

(** A decoded JSON payload; [JNull] is Python's [None].  Numbers are
    integers. *)
Inductive json : Type :=
| JNull
| JBool (b : bool)
| JNum (z : Z)
| JStr (s : string)
| JList (l : list json)
| JDict (d : list (string * json)).

Definition opt_str (o : option string) : json :=
  match o with
  | Some s => JStr s
  | None => JNull
  end.

(* ================================================================== *)
(** ** The extracted record *)

Record Address : Type := mkAddress {
  street : option string;
  city : option string;
  state : option string;
  zip : option string
}.

Record Transfer : Type := mkTransfer {
  recording_date : option string;
  doc_number : option string;
  price : option Z
}.

Record Assessed : Type := mkAssessed {
  land : option Z;
  improvements : option Z;
  total : option Z;
  year : option Z
}.

Record Details : Type := mkDetails {
  use_code : option string;
  year_built : option Z;
  living_sqft : option Z;
  lot_sqft : option Z
}.

Record ExtractedRecord : Type := mkRecord {
  apn : json;
  situs_address : Address;
  owner_names : list string;
  owner_mailing_address : Address;
  owner_type : option string;
  last_transfer : Transfer;
  assessed_values : Assessed;
  homeowner_exemption : option bool;
  property_details : Details;
  recorder_doc_url : option string
}.

Definition null_address : Address := mkAddress None None None None.

(* ================================================================== *)
(** ** [parse_property_page] *)

Definition RECORDER_SEARCH_LANDING : string :=
  "https://clerkrecorder.santaclaracounty.gov/official-records/records-search".

Inductive label : Type :=
| L_apn | L_situs_address | L_mailing_address | L_owner_name
| L_homeowner_exemption | L_use_code | L_year_built | L_living_sqft
| L_lot_sqft | L_doc_number | L_recording_date | L_sales_price
| L_assessed_land | L_assessed_impr | L_assessed_total | L_assessed_year.

Definition ws_star : regex := Star ws.     (* \s* *)
Definition ws_plus : regex := plus ws.     (* \s+ *)

Definition _LABEL_ALIASES (l : label) : list regex :=
  match l with
  | L_apn =>
      [ (* \bAPN\b *)
        cat [WordB; lit "APN"; WordB];
        (* Assessor'?s?\s+Parcel\s+Number *)
        cat [lit "Assessor"; opt (Chr "'"); opt (Chr "s"); ws_plus;
             lit "Parcel"; ws_plus; lit "Number"] ]
  | L_situs_address =>
      [ cat [lit "Situs"; ws_plus; lit "Address"];
        cat [lit "Property"; ws_plus; lit "Address"] ]
  | L_mailing_address =>
      [ cat [lit "Mailing"; ws_plus; lit "Address"] ]
  | L_owner_name =>
      [ cat [lit "Owner"; ws_star; lit "Name"];
        cat [lit "Assessee"; ws_star; lit "Name"] ]
  | L_homeowner_exemption =>
      [ (* Homeowner'?s?\s+Exemption *)
        cat [lit "Homeowner"; opt (Chr "'"); opt (Chr "s"); ws_plus; lit "Exemption"] ]
  | L_use_code =>
      [ cat [lit "Use"; ws_star; lit "Code"] ]
  | L_year_built =>
      [ cat [lit "Year"; ws_star; lit "Built"] ]
  | L_living_sqft =>
      [ cat [lit "Living"; ws_star; lit "Area"];
        cat [lit "Building"; ws_star; lit "Area"];
        cat [lit "Sq"; ws_star; lit "Ft"] ]
  | L_lot_sqft =>
      [ (* Lot\s*(Area|Size|Square\s*Feet) *)
        cat [lit "Lot"; ws_star;
             Grp 1 (alt [lit "Area"; lit "Size"; cat [lit "Square"; ws_star; lit "Feet"]])] ]
  | L_doc_number =>
      [ (* Document\s*(No\.?|Number)|Doc\s*# *)
        alt [cat [lit "Document"; ws_star;
                  Grp 1 (alt [cat [lit "No"; opt (Chr ".")]; lit "Number"])];
             cat [lit "Doc"; ws_star; Chr "#"]] ]
  | L_recording_date =>
      [ (* (Recording|Transfer)\s*Date *)
        cat [Grp 1 (alt [lit "Recording"; lit "Transfer"]); ws_star; lit "Date"] ]
  | L_sales_price =>
      [ (* (Sales|Indicated)\s*(Price|Net\s*Value) *)
        cat [Grp 1 (alt [lit "Sales"; lit "Indicated"]); ws_star;
             Grp 2 (alt [lit "Price"; cat [lit "Net"; ws_star; lit "Value"]])] ]
  | L_assessed_land =>
      [ cat [lit "Land"; ws_star; lit "Value"] ]
  | L_assessed_impr =>
      [ (* (Improvement|Improvements)\s*Value *)
        cat [Grp 1 (alt [lit "Improvement"; lit "Improvements"]); ws_star; lit "Value"] ]
  | L_assessed_total =>
      [ (* Total\s*, then the optional group 1 of Assessed\s*, then Value *)
        cat [lit "Total"; ws_star; opt (Grp 1 (cat [lit "Assessed"; ws_star])); lit "Value"] ]
  | L_assessed_year =>
      [ (* (Roll|Tax|Assessment)\s*Year *)
        cat [Grp 1 (alt [lit "Roll"; lit "Tax"; lit "Assessment"]); ws_star; lit "Year"] ]
  end.

(** The label/value mapping, in insertion order. *)
Definition kvmap : Type := list (string * string).

Definition kv_has (k : string) (kv : kvmap) : bool :=
  existsb (fun p => String.eqb (fst p) k) kv.

(** [kv.setdefault(k, v)] *)
Definition setdefault (k v : string) (kv : kvmap) : kvmap :=
  if kv_has k kv then kv else kv ++ [(k, v)].

Definition harvest_row (kv : kvmap) (tr : node) : kvmap :=
  match find_all_cells tr with
  | [c0; c1] =>
      let k := get_text c0 in
      let v := get_text c1 in
      if nonempty k && nonempty v then setdefault k v kv else kv
  | c0 :: ((_ :: _) as rest) =>
      let k := get_text c0 in
      let v := join " " (map get_text rest) in
      if nonempty k && nonempty v then setdefault k v kv else kv
  | _ => kv
  end.

(** The loop over [soup.find_all("tr")] that fills [kv]. *)
Definition harvest (d : soup) : kvmap :=
  fold_left harvest_row (find_all_tr d) [].

(** The inner loop of [find_first] over [kv.items()]. *)
Definition kv_hit (pat : regex) (kv : kvmap) : option string :=
  match find (fun p => re_test true pat (fst p) && nonempty (snd p)) kv with
  | Some p => Some (snd p)
  | None => None
  end.

(** The loose search of [find_first] in the whole document. *)
Definition doc_hit (pat : regex) (d : soup) : option string :=
  match soup_find_string pat d with
  | Some (lab, pnext) =>
      if nonempty lab then
        match find_next_sibling pnext with
        | Some sib =>
            let txt := get_text sib in
            if nonempty txt then Some txt else None
        | None => None
        end
      else None
  | None => None
  end.

Fixpoint find_first (d : soup) (kv : kvmap) (patterns : list regex) : option string :=
  match patterns with
  | [] => None
  | pat :: rest =>
      match kv_hit pat kv with
      | Some v => Some v
      | None =>
          match doc_hit pat d with
          | Some txt => Some txt
          | None => find_first d kv rest
          end
      end
  end.

(** [\$?\s*([\d,]+)] *)
Definition money_re : regex :=
  cat [opt (Chr "$"); ws_star;
       Grp 1 (plus (Cls (fun c => is_digit c || Ascii.eqb c ",")))].

Definition normalize_money (val : option string) : result (option Z) :=
  match val with
  | None => Ok None
  | Some v =>
      if negb (nonempty v) then Ok None
      else
        match re_search false money_re v with
        | None => Ok None
        | Some m =>
            try! n <- py_int (replace "," "" (group 1 m)); Ok (Some n)
        end
  end.

(** [(\d{4})] *)
Definition year_re : regex := Grp 1 (rep 4 dg).

Definition safe_int (s : option string) : result (option Z) :=
  match s with
  | None => Ok None
  | Some v =>
      if negb (nonempty v) then Ok None
      else
        match re_search false year_re v with
        | None => Ok None
        | Some m => try! n <- py_int (group 1 m); Ok (Some n)
        end
  end.

(** [^\s*([^,]+)\s*,\s*([A-Z]{2})\s+(\d{5}(?:-\d{4})?)] *)
Definition city_state_zip_re : regex :=
  cat [Bol; ws_star;
       Grp 1 (plus (Cls (fun c => negb (Ascii.eqb c ","))));
       ws_star; Chr ","; ws_star;
       Grp 2 (rep 2 (Cls is_upper));
       ws_plus;
       Grp 3 (Seq (rep 5 dg) (opt (Seq (Chr "-") (rep 4 dg))))].

Definition split_city_state_zip (full : option string)
  : option string * option string * option string :=
  match full with
  | None => (None, None, None)
  | Some f =>
      if negb (nonempty f) then (None, None, None)
      else
        match re_search false city_state_zip_re f with
        | Some m => (Some (strip (group 1 m)), Some (group 2 m), Some (group 3 m))
        | None => (None, None, None)
        end
  end.

(** [st or "CA"] *)
Definition or_CA (st : option string) : option string :=
  if truthy st then st else Some "CA".

Definition parse_mailing (mailing_block : option string) : Address :=
  match mailing_block with
  | None => null_address
  | Some b =>
      if negb (nonempty b) then null_address
      else
        let lines := stripped_lines b in
        match rev lines with
        | [] => null_address
        | last :: before =>
            let '(c, st, z) := split_city_state_zip (Some last) in
            mkAddress (match before with
                       | [] => None
                       | l2 :: _ => Some l2
                       end) c st z
        end
  end.

Definition parse_situs (situs_full : option string) : Address :=
  match situs_full with
  | None => null_address
  | Some f =>
      if negb (nonempty f) then null_address
      else
        match stripped_lines f with
        | [] => null_address
        | [p0] =>
            if contains "," p0 then
              let (st0, rest) := split_once "," p0 in
              let '(c, st, z) := split_city_state_zip (Some (strip rest)) in
              mkAddress (Some (strip st0)) c (or_CA st) z
            else mkAddress (Some p0) None None None
        | p0 :: p1 :: _ =>
            let '(c, st, z) := split_city_state_zip (Some p1) in
            mkAddress (Some p0) c (or_CA st) z
        end
  end.

(** [\b(yes|y|true)\b] *)
Definition yes_re : regex :=
  cat [WordB; Grp 1 (alt [lit "yes"; lit "y"; lit "true"]); WordB].

Definition parse_exemption (hx_text : option string) : option bool :=
  match hx_text with
  | None => None
  | Some t => if nonempty t then Some (re_test true yes_re t) else None
  end.

(** The body of [parse_property_page] after the document is parsed. *)
Definition parse_soup (d : soup) : result ExtractedRecord :=
  let kv := harvest d in
  let ff := fun l => find_first d kv (_LABEL_ALIASES l) in
  let mailing := parse_mailing (ff L_mailing_address) in
  let situs := parse_situs (ff L_situs_address) in
  let owner_name := ff L_owner_name in
  let hx := parse_exemption (ff L_homeowner_exemption) in
  let use := ff L_use_code in
  try! yb <- safe_int (ff L_year_built);
  try! living <- normalize_money (ff L_living_sqft);
  try! lot <- normalize_money (ff L_lot_sqft);
  let doc_no := ff L_doc_number in
  let rec_date := ff L_recording_date in
  try! pr <- normalize_money (ff L_sales_price);
  try! ld <- normalize_money (ff L_assessed_land);
  try! impr <- normalize_money (ff L_assessed_impr);
  try! tot <- normalize_money (ff L_assessed_total);
  try! yr <- safe_int (ff L_assessed_year);
  Ok {| apn := opt_str (ff L_apn);
        situs_address := situs;
        owner_names := (if truthy owner_name
                        then match owner_name with Some o => [o] | None => [] end
                        else []);
        owner_mailing_address := mailing;
        owner_type := classify_owner_type owner_name;
        last_transfer := mkTransfer rec_date doc_no pr;
        assessed_values := mkAssessed ld impr tot yr;
        homeowner_exemption := hx;
        property_details := mkDetails use yb living lot;
        recorder_doc_url := (if truthy doc_no then Some RECORDER_SEARCH_LANDING else None) |}.

Definition parse_property_page (html : string) : result ExtractedRecord :=
  parse_soup (BeautifulSoup html).

Definition DEMO_HTML : string := "
<html><body>
<table>
<tr><th>APN</th><td>235-12-003</td></tr>
<tr><th>Situs Address</th><td>123 Sample St<br>San Jose, CA 95123</td></tr>
<tr><th>Mailing Address</th><td>JANE DOE TRUST<br>PO BOX 1234<br>San Jose, CA 95123</td></tr>
<tr><th>Homeowner's Exemption</th><td>Yes</td></tr>
<tr><th>Use Code</th><td>SFR</td></tr>
<tr><th>Year Built</th><td>1978</td></tr>
<tr><th>Living Area</th><td>1,234</td></tr>
<tr><th>Lot Area</th><td>6,098</td></tr>
<tr><th>Document Number</th><td>12345678</td></tr>
<tr><th>Recording Date</th><td>06/15/2021</td></tr>
<tr><th>Sales Price</th><td>$1,250,000</td></tr>
</table>
<table>
<tr><th>Roll Year</th><td>2024</td></tr>
<tr><th>Land Value</th><td>$900,000</td></tr>
<tr><th>Improvements Value</th><td>$450,000</td></tr>
<tr><th>Total Assessed Value</th><td>$1,350,000</td></tr>
</table>
</body></html>
".

(* ================================================================== *)
(** ** Python operations on payload values *)

Definition py_truthy (v : json) : bool :=
  match v with
  | JNull => false
  | JBool b => b
  | JNum z => negb (Z.eqb z 0)
  | JStr s => nonempty s
  | JList l => match l with [] => false | _ => true end
  | JDict d => match d with [] => false | _ => true end
  end.

(** [a or b] *)
Definition py_or (a b : json) : json := if py_truthy a then a else b.

(** Lookup in a decoded object (its keys are distinct). *)
Fixpoint dict_get (k : string) (d : list (string * json)) : option json :=
  match d with
  | [] => None
  | (k', v) :: rest => if String.eqb k' k then Some v else dict_get k rest
  end.

(** [v.get(k, default)]; only a dict has [get]. *)
Definition py_get (v : json) (k : string) (default : json) : result json :=
  match v with
  | JDict d =>
      Ok (match dict_get k d with
          | Some x => x
          | None => default
          end)
  | _ => Raise AttributeError
  end.

(** [v[k]] for a string key. *)
Definition py_index (v : json) (k : string) : result json :=
  match v with
  | JDict d =>
      match dict_get k d with
      | Some x => Ok x
      | None => Raise KeyError
      end
  | _ => Raise TypeError
  end.

(** [len(v)] *)
Definition py_len (v : json) : result nat :=
  match v with
  | JStr s => Ok (String.length s)
  | JList l => Ok (List.length l)
  | JDict d => Ok (List.length d)
  | _ => Raise TypeError
  end.

(** [v[0]] *)
Definition py_item0 (v : json) : result json :=
  match v with
  | JList (x :: _) => Ok x
  | JStr (String c _) => Ok (JStr (String c EmptyString))
  | JDict _ => Raise KeyError
  | _ => Raise TypeError
  end.

(** The items [for c in v] visits. *)
Definition py_iter (v : json) : result (list json) :=
  match v with
  | JList l => Ok l
  | JStr s => Ok (map (fun c => JStr (String c EmptyString)) (list_ascii_of_string s))
  | JDict d => Ok (map (fun p => JStr (fst p)) d)
  | _ => Raise TypeError
  end.

Definition Z_to_string (z : Z) : string :=
  DecimalString.NilZero.string_of_int (Z.to_int z).

(** [str(v)]; inside a container a string is shown between single
    quotes without escapes. *)
Fixpoint py_repr (v : json) : string :=
  match v with
  | JNull => "None"
  | JBool true => "True"
  | JBool false => "False"
  | JNum z => Z_to_string z
  | JStr s => ("'" ++ s ++ "'")%string
  | JList l => ("[" ++ join ", " (map py_repr l) ++ "]")%string
  | JDict d =>
      ("{" ++ join ", "
         ((fix items (l : list (string * json)) : list string :=
             match l with
             | [] => []
             | (k, x) :: rest => ("'" ++ k ++ "': " ++ py_repr x)%string :: items rest
             end) d) ++ "}")%string
  end.

Definition py_str (v : json) : string :=
  match v with
  | JStr s => s
  | _ => py_repr v
  end.

Definition hex_digit (n : nat) : ascii :=
  if n <? 10 then ascii_of_nat (48 + n) else ascii_of_nat (55 + n).

Definition quote_char (c : ascii) : string :=
  if is_digit c || is_upper c || is_lower c
     || Ascii.eqb c "_" || Ascii.eqb c "." || Ascii.eqb c "-" || Ascii.eqb c "~"
  then String c EmptyString
  else if Ascii.eqb c " " then "+"
  else String "%" (String (hex_digit (nat_of_ascii c / 16))
                     (String (hex_digit (nat_of_ascii c mod 16)) EmptyString)).

Fixpoint quote_text (s : string) : string :=
  match s with
  | EmptyString => EmptyString
  | String c s' => (quote_char c ++ quote_text s')%string
  end.

(** [urllib.parse.quote_plus(v)]: only text can be quoted. *)
Definition quote_plus (v : json) : result string :=
  match v with
  | JStr s => Ok (quote_text s)
  | _ => Raise TypeError
  end.

(* ================================================================== *)
(** ** Query classifier and normalizer *)

Definition is_probable_apn (text : string) : bool :=
  (* s = re.sub(r"[\s-]", "", text) *)
  let s := sfilter (fun c => negb (is_space c || Ascii.eqb c "-")) text in
  (* re.fullmatch(r"\d{8,12}", s) *)
  sforall is_digit s && (8 <=? String.length s) && (String.length s <=? 12).

(** [re.sub(r"\D", "", text)] *)
Definition bare_digits (text : string) : string := sfilter is_digit text.

Definition normalize_apn (text : string) : string :=
  let digits := bare_digits text in
  if String.length digits =? 9
  then (substring 0 3 digits ++ "-" ++ substring 3 2 digits ++ "-"
          ++ substring 5 4 digits)%string
  else strip text.

(* ================================================================== *)
(** ** Remote services, trace and the effect monad *)

(** What a GET to a JSON endpoint produces: a [RequestException]
    (connection, timeout, status, undecodable body) or the decoded body. *)
Inductive response : Type :=
| TransportError
| Body (js : json).

Inductive page_response : Type :=
| PageError
| PageText (html : string).

(** The remote collaborators, as seen during one run: what each request
    is answered with.  One run never repeats a request (the exact and
    the substring queries differ in their [where] clause), so a function
    of the request describes every possible run.  The pause of
    [rate_limit] before each request is not part of the model. *)
Record World : Type := mkWorld {
  parcel_service : string -> response;               (* by [where] clause *)
  point_service : json -> json -> json -> response;  (* by x, y, wkid *)
  geocode_service : string -> response;              (* by [SingleLine] *)
  assessor_site : string -> page_response            (* by URL *)
}.

Record GeoSitus : Type := mkGeoSitus {
  geo_apn : option string;
  geo_address : Address
}.

(** The log lines kept in the trace are those at warning and error
    level; the text is the message without its arguments. *)
Inductive level : Type := WARNING | ERROR.

Inductive event : Type :=
| EvParcelQuery (where_clause : string)
| EvPointQuery (x y wkid : json)
| EvGeocode (address : string)
| EvAssessorPage (url : string)
| EvLog (lvl : level) (msg : string)
| EvSave (filename : string) (data : ExtractedRecord) (situs_apn_key : option (option string)).

Definition trace : Type := list event.

(** Computations that may raise and that extend the trace. *)
Definition M (A : Type) : Type := trace -> result A * trace.

Definition ret {A} (a : A) : M A := fun t => (Ok a, t).

Definition bind {A B} (c : M A) (f : A -> M B) : M B :=
  fun t =>
    match c t with
    | (Ok a, t') => f a t'
    | (Raise e, t') => (Raise e, t')
    end.

Definition emit (e : event) : M unit := fun t => (Ok tt, t ++ [e]).

Definition lift {A} (r : result A) : M A := fun t => (r, t).

Notation "x <- c ;; k" := (bind c (fun x => k))
  (at level 61, c at next level, right associativity).
Notation "c ;;; k" := (bind c (fun _ => k))
  (at level 61, right associativity).

Definition run {A} (c : M A) : result A * trace := c [].

Definition is_feature_query (e : event) : bool :=
  match e with
  | EvParcelQuery _ => true
  | EvPointQuery _ _ _ => true
  | _ => false
  end.

Definition is_page_fetch (e : event) : bool :=
  match e with
  | EvAssessorPage _ => true
  | _ => false
  end.

Definition ASSESSOR_APN_REDIRECT (apn_quoted : string) : string :=
  ("https://www.sccassessor.org/index.php/apn-redirect?ApnValue=" ++ apn_quoted)%string.

(** [feats = js.get("features") or []; len(feats); feats[0] if feats else None] *)
Definition first_feature (js : json) : result json :=
  try! f <- py_get js "features" JNull;
  let feats := py_or f (JList []) in
  try! _ <- py_len feats;
  if py_truthy feats then py_item0 feats else Ok JNull.

(** [c.get("score", 0) >= 70] *)
Definition score_ge_70 (c : json) : result bool :=
  try! s <- py_get c "score" (JNum 0);
  match s with
  | JNum z => Ok (70 <=? z)%Z
  | JBool _ => Ok false
  | _ => Raise TypeError
  end.

Fixpoint filter_viable (cands : list json) : result (list json) :=
  match cands with
  | [] => Ok []
  | c :: rest =>
      try! keep <- score_ge_70 c;
      try! rest' <- filter_viable rest;
      Ok (if keep then c :: rest' else rest')
  end.

(** The sort key [c.get("score", 0)] of a candidate that passed the filter. *)
Definition score_key (c : json) : Z :=
  match py_get c "score" (JNum 0) with
  | Ok (JNum z) => z
  | _ => 0%Z
  end.

Fixpoint insert_desc (x : json) (l : list json) : list json :=
  match l with
  | [] => [x]
  | y :: ys =>
      if (score_key x <? score_key y)%Z then y :: insert_desc x ys
      else x :: y :: ys
  end.

(** [cands.sort(key=..., reverse=True)]: Python's sort is stable, which
    fixes the result; it is computed here by insertion, an element
    passing only the strictly larger keys that follow it. *)
Definition sort_desc (l : list json) : list json := fold_right insert_desc [] l.

(** Lines 206-209: the viable candidates, best first. *)
Definition viable_candidates (js : json) : result (list json) :=
  try! c0 <- py_get js "candidates" JNull;
  try! items <- py_iter (py_or c0 (JList []));
  try! kept <- filter_viable items;
  Ok (sort_desc kept).

(** [d.setdefault(k, v)] on a dict value. *)
Definition json_setdefault (k : string) (v : json) (c : json) : json :=
  match c with
  | JDict d =>
      match dict_get k d with
      | Some _ => c
      | None => JDict (d ++ [(k, v)])
      end
  | _ => c
  end.

(** Lines 215-218. *)
Definition patch_candidate (top : json) : json :=
  json_setdefault "spatialReference" (JDict [("wkid", JNum 4326)])
    (json_setdefault "attributes" (JDict [])
       (json_setdefault "location" (JDict []) top)).

(** [tval] of [extract_situs_from_feature]: the stripped text of an
    attribute, [None] when it is absent or null. *)
Definition tval (a : json) (k : string) : result (option string) :=
  try! v <- py_get a k JNull;
  Ok (match v with
      | JStr s => Some (strip s)
      | JNull => None
      | _ => Some (strip (py_str v))
      end).

(** [o or ""] *)
Definition or_empty (o : option string) : string :=
  match o with
  | Some s => s
  | None => EmptyString
  end.

(** [o or None] *)
Definition or_none (o : option string) : option string :=
  if truthy o then o else None.

Definition extract_situs_from_feature (feature : json) : result (option GeoSitus) :=
  if negb (py_truthy feature) then Ok None
  else
    try! a0 <- py_get feature "attributes" JNull;
    let a := py_or a0 (JDict []) in
    try! hn <- tval a "SITUS_HOUSE_NUMBER";
    try! hs <- tval a "SITUS_HOUSE_NUMBER_SUFFIX";
    try! sd <- tval a "SITUS_STREET_DIRECTION";
    try! sn <- tval a "SITUS_STREET_NAME";
    try! st <- tval a "SITUS_STREET_TYPE";
    try! un <- tval a "SITUS_UNIT_NUMBER";
    let street_parts :=
      [or_empty hn; or_empty hs; or_empty sd; or_empty sn; or_empty st;
       (if truthy un then ("Unit " ++ or_empty un)%string else EmptyString)] in
    let street0 := strip (replace "  " " " (join " " (filter nonempty street_parts))) in
    try! ap <- tval a "APN";
    try! ci <- tval a "SITUS_CITY_NAME";
    try! sc <- tval a "SITUS_STATE_CODE";
    try! zc <- tval a "SITUS_ZIP_CODE";
    Ok (Some {| geo_apn := ap;
                geo_address :=
                  {| street := or_none (Some street0);
                     city := ci;
                     state := or_CA sc;
                     zip := or_none zc |} |}).

Module Raw.
Record RawSearchResult : Type := mk {
  apn : json;
  situs : option GeoSitus;
  parcel_feature : json;
  assessor_html : option string
}.
End Raw.

Module Args.
Record t : Type := mk {
  apn : option string;
  address : option string;
  output : string;
  demo : bool
}.
End Args.

Definition set_apn (v : json) (r : ExtractedRecord) : ExtractedRecord :=
  mkRecord v (situs_address r) (owner_names r) (owner_mailing_address r)
    (owner_type r) (last_transfer r) (assessed_values r)
    (homeowner_exemption r) (property_details r) (recorder_doc_url r).

(** The seed record of [main] (lines 615-626); the extra [apn] key of
    the skeleton's situs dict is carried apart, see [main]. *)
Definition seed_record (raw : Raw.RawSearchResult) : ExtractedRecord :=
  {| apn := Raw.apn raw;
     situs_address := match Raw.situs raw with
                      | Some g => geo_address g
                      | None => null_address
                      end;
     owner_names := [];
     owner_mailing_address := null_address;
     owner_type := None;
     last_transfer := mkTransfer None None None;
     assessed_values := mkAssessed None None None None;
     homeowner_exemption := None;
     property_details := mkDetails None None None None;
     recorder_doc_url := None |}.

(** The merge of [main] (lines 637-648). *)
Definition merge (result parsed : ExtractedRecord) : ExtractedRecord :=
  let p_situs := situs_address parsed in
  {| apn := py_or (apn result) (apn parsed);
     situs_address := (if truthy (street p_situs) && truthy (city p_situs)
                       then p_situs else situs_address result);
     owner_names := owner_names parsed;
     owner_mailing_address := owner_mailing_address parsed;
     owner_type := owner_type parsed;
     last_transfer := last_transfer parsed;
     assessed_values := assessed_values parsed;
     homeowner_exemption := homeowner_exemption parsed;
     property_details := property_details parsed;
     recorder_doc_url := recorder_doc_url parsed |}.

(** The output shaper of [main] (lines 651-686). *)
Definition shape (result : ExtractedRecord) : ExtractedRecord :=
  {| apn := apn result;
     situs_address :=
       mkAddress (street (situs_address result)) (city (situs_address result))
         (state (situs_address result)) (zip (situs_address result));
     owner_names := owner_names result;
     owner_mailing_address :=
       mkAddress (street (owner_mailing_address result))
         (city (owner_mailing_address result))
         (state (owner_mailing_address result))
         (zip (owner_mailing_address result));
     owner_type := owner_type result;
     last_transfer :=
       mkTransfer (recording_date (last_transfer result))
         (doc_number (last_transfer result)) (price (last_transfer result));
     assessed_values :=
       mkAssessed (land (assessed_values result))
         (improvements (assessed_values result)) (total (assessed_values result))
         (year (assessed_values result));
     homeowner_exemption := homeowner_exemption result;
     property_details :=
       mkDetails (use_code (property_details result))
         (year_built (property_details result))
         (living_sqft (property_details result))
         (lot_sqft (property_details result));
     recorder_doc_url := recorder_doc_url result |}.

(** The [where] parameter of the exact query, [f"APN='{apn}'"]. *)
Definition exact_where (apn0 : string) : string := ("APN='" ++ apn0 ++ "'")%string.

(** The [where] parameter of the substring query, [f"APN LIKE '%{bare_digits}%'"]. *)
Definition like_where (bare : string) : string := ("APN LIKE '%" ++ bare ++ "%'")%string.

(** [query = args.apn if args.apn else args.address] *)
Definition query_of (args : Args.t) : option string :=
  if truthy (Args.apn args) then Args.apn args else Args.address args.

Section Pipeline.

Variable w : World.

Definition arcgis_query_parcel_by_apn (apn0 : string) : M json :=
  let where_clause := exact_where apn0 in
  emit (EvParcelQuery where_clause) ;;;
  match parcel_service w where_clause with
  | TransportError =>
      emit (EvLog WARNING "Parcel-by-APN request failed") ;;; ret JNull
  | Body js => lift (first_feature js)
  end.

Definition arcgis_query_parcel_by_apn_like (bare : string) : M json :=
  let where_clause := like_where bare in
  emit (EvParcelQuery where_clause) ;;;
  match parcel_service w where_clause with
  | TransportError =>
      emit (EvLog WARNING "Parcel-by-APN-like request failed") ;;; ret JNull
  | Body js => lift (first_feature js)
  end.

Definition arcgis_geocode_address (address : string) : M json :=
  emit (EvGeocode address) ;;;
  match geocode_service w address with
  | TransportError =>
      emit (EvLog WARNING "Geocode request failed") ;;; ret JNull
  | Body js =>
      cands <- lift (viable_candidates js) ;;
      match cands with
      | [] => ret JNull
      | top :: _ => ret (patch_candidate top)
      end
  end.

Definition arcgis_query_parcel_by_point (x y wkid : json) : M json :=
  emit (EvPointQuery x y wkid) ;;;
  match point_service w x y wkid with
  | TransportError =>
      emit (EvLog WARNING "Parcel-by-point request failed") ;;; ret JNull
  | Body js => lift (first_feature js)
  end.

(** The record-page fetch at the end of [search_property]. *)
Definition fetch_assessor (resolved_apn : json) : M (option string) :=
  if py_truthy resolved_apn then
    q <- lift (quote_plus resolved_apn) ;;
    let assessor_url := ASSESSOR_APN_REDIRECT q in
    emit (EvAssessorPage assessor_url) ;;;
    match assessor_site w assessor_url with
    | PageError =>
        emit (EvLog WARNING "Assessor page request failed") ;;; ret None
    | PageText html => ret (Some html)
    end
  else ret None.

(** [situs = extract_situs_from_feature(feature) if feature else None],
    the page fetch and the returned value. *)
Definition finish_search (resolved_apn feature : json) : M Raw.RawSearchResult :=
  situs <- lift (if py_truthy feature then extract_situs_from_feature feature
                 else Ok None) ;;
  html <- fetch_assessor resolved_apn ;;
  ret (Raw.mk resolved_apn situs feature html).

(** The exact query followed, when it finds nothing, by the LIKE query. *)
Definition query_exact_then_like (apn0 bare : string) : M json :=
  feature <- arcgis_query_parcel_by_apn apn0 ;;
  if negb (py_truthy feature) then arcgis_query_parcel_by_apn_like bare
  else ret feature.

Definition search_apn_path (query : string) : M Raw.RawSearchResult :=
  let apn_dashed := normalize_apn query in
  let resolved_apn := JStr apn_dashed in
  feature <- query_exact_then_like apn_dashed (bare_digits query) ;;
  finish_search resolved_apn feature.

Definition search_address_path (query : string) : M Raw.RawSearchResult :=
  geo <- arcgis_geocode_address query ;;
  if negb (py_truthy geo) then
    emit (EvLog WARNING "No geocode candidates found for address.") ;;;
    ret (Raw.mk JNull None JNull None)
  else
    (* first try: APN directly from the geocoder attributes *)
    at1 <- lift (py_get geo "attributes" JNull) ;;
    a1 <- lift (py_get (py_or at1 (JDict [])) "APN" JNull) ;;
    apn_from_geo <-
      (if py_truthy a1 then ret a1
       else
         at2 <- lift (py_get geo "attributes" JNull) ;;
         lift (py_get (py_or at2 (JDict [])) "apn" JNull)) ;;
    fr <-
      (if py_truthy apn_from_geo then
         let apn_norm := normalize_apn (py_str apn_from_geo) in
         feature <- query_exact_then_like apn_norm (bare_digits apn_norm) ;;
         if py_truthy feature then
           attrs <- lift (py_index feature "attributes") ;;
           r <- lift (py_get attrs "APN" JNull) ;;
           ret (feature, r)
         else ret (feature, JNull)
       else ret (JNull, JNull)) ;;
    let (feature, resolved_apn) := fr : json * json in
    (* second try: spatial intersect *)
    fr2 <-
      (if negb (py_truthy feature) then
         loc <- lift (py_index geo "location") ;;
         x <- lift (py_get loc "x" JNull) ;;
         loc' <- lift (py_index geo "location") ;;
         y <- lift (py_get loc' "y" JNull) ;;
         sr <- lift (py_get geo "spatialReference" JNull) ;;
         in_wkid <- lift (py_get (py_or sr (JDict [])) "wkid" (JNum 4326)) ;;
         match x, y with
         | JNull, _ => ret (feature, resolved_apn)
         | _, JNull => ret (feature, resolved_apn)
         | _, _ =>
             feature' <- arcgis_query_parcel_by_point x y in_wkid ;;
             if py_truthy feature' then
               attrs <- lift (py_index feature' "attributes") ;;
               r <- lift (py_index attrs "APN") ;;
               ret (feature', r)
             else ret (feature', JNull)
         end
       else ret (feature, resolved_apn)) ;;
    let (feature2, resolved_apn2) := fr2 : json * json in
    finish_search resolved_apn2 feature2.

Definition search_property (query0 : string) : M Raw.RawSearchResult :=
  let query := strip query0 in
  if is_probable_apn query then search_apn_path query
  else search_address_path query.

(** [main] returns the exit status of the process: 0 when it returns,
    2 through [sys.exit(2)].  The file write is the [EvSave] event; its
    last component is the [apn] key that the skeleton's situs dict
    still carries when the seed record is written unshaped. *)
Definition main (args : Args.t) : M Z :=
  if Args.demo args then
    parsed <- lift (parse_property_page DEMO_HTML) ;;
    let parsed' :=
      if negb (py_truthy (apn parsed)) && truthy (Args.apn args)
      then set_apn (JStr (normalize_apn (or_empty (Args.apn args)))) parsed
      else parsed in
    emit (EvSave (Args.output args) parsed' None) ;;;
    ret 0%Z
  else
    match query_of args with
    | None => lift (Raise AssertionError)
    | Some q =>
        raw <- search_property q ;;
        let result := seed_record raw in
        if negb (py_truthy (Raw.apn raw)) && negb (truthy (Raw.assessor_html raw)) then
          emit (EvLog ERROR "No records found (neither APN resolution nor Assessor page available).") ;;;
          emit (EvSave (Args.output args) result (option_map geo_apn (Raw.situs raw))) ;;;
          ret 2%Z
        else
          result' <-
            (match Raw.assessor_html raw with
             | Some html =>
                 if nonempty html then
                   parsed <- lift (parse_property_page html) ;;
                   ret (merge result parsed)
                 else ret result
             | None => ret result
             end) ;;
          emit (EvSave (Args.output args) (shape result') None) ;;;
          ret 0%Z
    end.

End Pipeline.

(** What the process reports to its caller: the status [main] returns,
    or 1 when an exception escapes. *)
Definition exit_code (r : result Z) : Z :=
  match r with
  | Ok c => c
  | Raise _ => 1%Z
  end.

(* ================================================================== *)
(** ** Statements of the specification, and sample inputs *)

(** [sub] occurs in [s]. *)
Definition occurs (sub s : string) : Prop :=
  exists pre post, s = (pre ++ sub ++ post)%string.

(** [s] ends with [suf]. *)
Definition has_suffix (suf s : string) : Prop :=
  exists pre, s = (pre ++ suf)%string.

Definition any_occurs (keys : list string) (n : string) : Prop :=
  exists k, In k keys /\ occurs k n.

Definition trust_name (n : string) : Prop :=
  occurs "TRUST" n \/ has_suffix " TR" n.

Definition llc_name (n : string) : Prop := occurs "LLC" n.

Definition corporation_name (n : string) : Prop :=
  any_occurs [" INC"; " CORP"; " CORPORATION"; " CO."; " COMPANY"] n.

Definition partnership_name (n : string) : Prop :=
  any_occurs [" LP"; " L.P."; " LTD"; " LIMITED"; " PARTNERSHIP"] n.

(** Owner classification as the code decides it: the keys of the
    corporation and partnership classes start with a space. *)
Inductive owner_class : option string -> option string -> Prop :=
| OC_none : owner_class None None
| OC_empty : owner_class (Some EmptyString) None
| OC_trust (nm : string) :
    nm <> EmptyString -> trust_name (upper nm) ->
    owner_class (Some nm) (Some "trust")
| OC_llc (nm : string) :
    nm <> EmptyString -> ~ trust_name (upper nm) -> llc_name (upper nm) ->
    owner_class (Some nm) (Some "llc")
| OC_corporation (nm : string) :
    nm <> EmptyString -> ~ trust_name (upper nm) -> ~ llc_name (upper nm) ->
    corporation_name (upper nm) ->
    owner_class (Some nm) (Some "corporation")
| OC_partnership (nm : string) :
    nm <> EmptyString -> ~ trust_name (upper nm) -> ~ llc_name (upper nm) ->
    ~ corporation_name (upper nm) -> partnership_name (upper nm) ->
    owner_class (Some nm) (Some "partnership")
| OC_individual (nm : string) :
    nm <> EmptyString -> ~ trust_name (upper nm) -> ~ llc_name (upper nm) ->
    ~ corporation_name (upper nm) -> ~ partnership_name (upper nm) ->
    owner_class (Some nm) (Some "individual").

(** Owner classification in the specification's words: the keys are
    the bare words. *)
Definition classify_owner_type_spec (name : option string) : option string :=
  match name with
  | None => None
  | Some nm =>
      if negb (nonempty nm) then None
      else
        let n := upper nm in
        if contains "TRUST" n || ends_with " TR" n then Some "trust"
        else if contains "LLC" n then Some "llc"
        else if any_in ["INC"; "CORP"; "CORPORATION"; "CO."; "COMPANY"] n
             then Some "corporation"
        else if any_in ["LP"; "L.P."; "LTD"; "LIMITED"; "PARTNERSHIP"] n
             then Some "partnership"
        else Some "individual"
  end.

(** The record the specification states for the sample document. *)
Definition demo_record_spec (r : ExtractedRecord) : Prop :=
  apn r = JStr "235-12-003" /\
  situs_address r = mkAddress (Some "123 Sample St") (Some "San Jose") (Some "CA") (Some "95123") /\
  owner_names r = ["JANE DOE TRUST"] /\
  owner_type r = Some "trust" /\
  homeowner_exemption r = Some true /\
  year_built (property_details r) = Some 1978%Z /\
  living_sqft (property_details r) = Some 1234%Z /\
  lot_sqft (property_details r) = Some 6098%Z /\
  assessed_values r = mkAssessed (Some 900000%Z) (Some 450000%Z) (Some 1350000%Z) (Some 2024%Z) /\
  last_transfer r = mkTransfer (Some "06/15/2021") (Some "12345678") (Some 1250000%Z) /\
  recorder_doc_url r <> None.

(** The same without the situs address, and with the owner fields the
    sample really yields: it has no owner-name label. *)
Definition demo_record_code (r : ExtractedRecord) : Prop :=
  apn r = JStr "235-12-003" /\
  owner_names r = [] /\
  owner_type r = None /\
  homeowner_exemption r = Some true /\
  year_built (property_details r) = Some 1978%Z /\
  living_sqft (property_details r) = Some 1234%Z /\
  lot_sqft (property_details r) = Some 6098%Z /\
  assessed_values r = mkAssessed (Some 900000%Z) (Some 450000%Z) (Some 1350000%Z) (Some 2024%Z) /\
  last_transfer r = mkTransfer (Some "06/15/2021") (Some "12345678") (Some 1250000%Z) /\
  recorder_doc_url r <> None.

(** The fully-keyed record of nulls. *)
Definition null_record : ExtractedRecord :=
  {| apn := JNull;
     situs_address := null_address;
     owner_names := [];
     owner_mailing_address := null_address;
     owner_type := None;
     last_transfer := mkTransfer None None None;
     assessed_values := mkAssessed None None None None;
     homeowner_exemption := None;
     property_details := mkDetails None None None None;
     recorder_doc_url := None |}.

(** A page whose land value cell holds only a comma. *)
Definition comma_page : string :=
  "<table><tr><th>Land Value</th><td>,</td></tr></table>".

(** Label resolution in the specification's words: the mapping is
    searched with every pattern in order, and the document-wide search
    is consulted only when no pattern hits the mapping. *)
Fixpoint first_kv_hit (kv : kvmap) (patterns : list regex) : option string :=
  match patterns with
  | [] => None
  | pat :: rest =>
      match kv_hit pat kv with
      | Some v => Some v
      | None => first_kv_hit kv rest
      end
  end.

Fixpoint first_doc_hit (d : soup) (patterns : list regex) : option string :=
  match patterns with
  | [] => None
  | pat :: rest =>
      match doc_hit pat d with
      | Some v => Some v
      | None => first_doc_hit d rest
      end
  end.

Definition find_first_spec (d : soup) (kv : kvmap) (patterns : list regex)
  : option string :=
  match first_kv_hit kv patterns with
  | Some v => Some v
  | None => first_doc_hit d patterns
  end.

(** A page with a loose "Living Area" label outside any table and a
    "Building Area" row in a table. *)
Definition loose_label_page : string :=
  "<div><span>Living Area</span><span>999</span></div><table><tr><th>Building Area</th><td>1,500</td></tr></table>".

(** A page whose homeowner exemption says No. *)
Definition exemption_no_page : string :=
  "<table><tr><th>Homeowner's Exemption</th><td>No</td></tr></table>".

(** A page whose situs cell starts with a comma (no street text). *)
Definition no_street_page : string :=
  "<table><tr><th>Situs Address</th><td>, San Jose, CA 95123</td></tr></table>".

(** A string option that holds text. *)
Definition has_text (o : option string) : Prop :=
  exists s, o = Some s /\ s <> EmptyString.

(** A feature query finds nothing: the request fails, or the body's
    first feature is absent or falsy. *)
Definition no_feature (r : response) : Prop :=
  r = TransportError \/
  exists js v, r = Body js /\ first_feature js = Ok v /\ py_truthy v = false.

(** A feature query yields the feature [f]. *)
Definition yields_feature (r : response) (f : json) : Prop :=
  exists js, r = Body js /\ first_feature js = Ok f /\ py_truthy f = true.

(** The identifier a feature carries, [feature["attributes"].get("APN")]. *)
Definition feature_apn (f : json) : result json :=
  try! a <- py_index f "attributes"; py_get a "APN" JNull.

(** A candidate is a dict whose score, when present, is a number. *)
Definition well_scored (c : json) : Prop :=
  exists d, c = JDict d /\
    (dict_get "score" d = None \/ exists z, dict_get "score" d = Some (JNum z)).

Definition has_score (k : Z) (c : json) : bool := Z.eqb (score_key c) k.

Definition viable (c : json) : bool := (70 <=? score_key c)%Z.

Definition features_body (l : list json) : response :=
  Body (JDict [("features", JList l)]).

Definition candidate (score : Z) (name : string) : json :=
  JDict [("address", JStr name); ("score", JNum score);
         ("location", JDict [("x", JNum 1); ("y", JNum 2)])].

(** No service finds anything and the record page cannot be fetched. *)
Definition world_nothing : World :=
  mkWorld (fun _ => features_body []) (fun _ _ _ => features_body [])
    (fun _ => TransportError) (fun _ => PageError).

Definition like_feature : json :=
  JDict [("attributes", JDict [("APN", JStr "235120035"); ("SITUS_CITY_NAME", JStr "San Jose")])].

(** The exact query finds nothing, the substring query one feature. *)
Definition world_like : World :=
  mkWorld (fun wh => if String.eqb wh (like_where "23512003")
                     then features_body [like_feature] else features_body [])
    (fun _ _ _ => features_body []) (fun _ => TransportError) (fun _ => PageError).

Definition feature_without_apn : json :=
  JDict [("attributes", JDict [("SITUS_CITY_NAME", JStr "San Jose")])].

(** The geocoder answers with one good candidate that carries no parcel
    id, and the spatial query with a feature that has no APN attribute. *)
Definition world_point_no_apn : World :=
  mkWorld (fun _ => features_body []) (fun _ _ _ => features_body [feature_without_apn])
    (fun _ => Body (JDict [("candidates", JList [candidate 100 "70 W Hedding St"])]))
    (fun _ => PageError).

Definition sample_candidates : list json :=
  [candidate 95 "a"; candidate 69 "b"; candidate 80 "c"].

Definition world_candidates : World :=
  mkWorld (fun _ => features_body []) (fun _ _ _ => features_body [])
    (fun _ => Body (JDict [("candidates", JList sample_candidates)]))
    (fun _ => PageError).

Definition low_candidates : list json :=
  [candidate 69 "a"; candidate 10 "b"].

Definition world_low_candidates : World :=
  mkWorld (fun _ => features_body []) (fun _ _ _ => features_body [])
    (fun _ => Body (JDict [("candidates", JList low_candidates)]))
    (fun _ => PageError).

Definition args_apn (q : string) : Args.t := Args.mk (Some q) None "output.json" false.

Definition gis_sample : Address :=
  mkAddress (Some "70 W HEDDING ST") (Some "SAN JOSE") (Some "CA") (Some "95110").

(** A search result with a geospatial situs and a fetched page. *)
Definition raw_sample : Raw.RawSearchResult :=
  Raw.mk (JStr "235-12-003") (Some (mkGeoSitus (Some "235-12-003") gis_sample))
    JNull (Some no_street_page).

(** Candidates are ordered by descending score. *)
Definition score_ge (a b : json) : Prop := (score_key b <= score_key a)%Z.

(** A page whose situs cell gives street and city on one line. *)
Definition full_situs_page : string :=
  "<table><tr><th>Situs Address</th><td>123 Sample St, San Jose, CA 95123</td></tr></table>".

(** The record extracted from [full_situs_page]. *)
Definition parsed_sample : ExtractedRecord :=
  {| apn := JNull;
     situs_address :=
       mkAddress (Some "123 Sample St") (Some "San Jose") (Some "CA") (Some "95123");
     owner_names := [];
     owner_mailing_address := null_address;
     owner_type := None;
     last_transfer := mkTransfer None None None;
     assessed_values := mkAssessed None None None None;
     homeowner_exemption := None;
     property_details := mkDetails None None None None;
     recorder_doc_url := None |}.

Fixpoint sexists (p : ascii -> bool) (s : string) : bool :=
  match s with
  | EmptyString => false
  | String c s' => p c || sexists p s'
  end.

(** A stretch of trace that holds log lines only. *)
Definition only_logs (t : trace) : Prop :=
  forall e, In e t -> exists l m, e = EvLog l m.

(** The URL of the record page of an identifier. *)
Definition assessor_url_of (n : string) : string :=
  ASSESSOR_APN_REDIRECT (quote_text n).

(** ** Further statements about the pipeline *)

(** A character a parcel id may hold: a digit, white space or a dash. *)
Definition apn_char (c : ascii) : bool :=
  is_digit c || is_space c || Ascii.eqb c "-".

(** The 3-2-4 grouping of [normalize_apn]. *)
Definition dashed (digits : string) : string :=
  (substring 0 3 digits ++ "-" ++ substring 3 2 digits ++ "-"
     ++ substring 5 4 digits)%string.

(** A text field that is absent or holds text, never the empty string. *)
Definition null_or_text (o : option string) : Prop :=
  o = None \/ has_text o.

Definition is_geocode (e : event) : bool :=
  match e with
  | EvGeocode _ => true
  | _ => false
  end.

Definition is_save (e : event) : bool :=
  match e with
  | EvSave _ _ _ => true
  | _ => false
  end.

(** Whatever the trace it starts from and whether or not it raises, a
    computation only appends events, at most [n] of them of kind [p]. *)
Definition emits_le {A : Type} (p : event -> bool) (n : nat) (c : M A) : Prop :=
  forall t, exists ev, snd (c t) = t ++ ev /\ List.length (filter p ev) <= n.

(** Every value a computation returns satisfies [P]. *)
Definition returns {A : Type} (c : M A) (P : A -> Prop) : Prop :=
  forall t a t', c t = (Ok a, t') -> P a.

(** What holds of every search result: markup is present only for an
    identifier that is non-empty text, and a situs skeleton is present
    exactly for a truthy feature. *)
Definition raw_consistent (raw : Raw.RawSearchResult) : Prop :=
  (Raw.assessor_html raw <> None ->
   exists s, Raw.apn raw = JStr s /\ s <> EmptyString) /\
  (Raw.situs raw <> None <-> py_truthy (Raw.parcel_feature raw) = true).

(** The identifier of a result is the one its feature carries. *)
Definition identifier_from_feature (feature resolved : json) : Prop :=
  if py_truthy feature then feature_apn feature = Ok resolved
  else resolved = JNull.

Definition geo_apn_candidate : json :=
  JDict [("score", JNum 100); ("attributes", JDict [("APN", JStr "23512003")]);
         ("location", JDict [("x", JNum 1); ("y", JNum 2)])].

(** The geocoder's top candidate carries a parcel id, and the exact
    query for it yields a feature whose own APN attribute differs. *)
Definition world_geo_apn : World :=
  mkWorld (fun wh => if String.eqb wh (exact_where "23512003")
                     then features_body [like_feature] else features_body [])
    (fun _ _ _ => features_body [])
    (fun _ => Body (JDict [("candidates", JList [geo_apn_candidate])]))
    (fun _ => PageError).

(** The geospatial services are unreachable. *)
Definition gis_unreachable (w : World) : Prop :=
  (forall wh, parcel_service w wh = TransportError) /\
  (forall x y k, point_service w x y k = TransportError) /\
  (forall a, geocode_service w a = TransportError).

Definition world_offline : World :=
  mkWorld (fun _ => TransportError) (fun _ _ _ => TransportError)
    (fun _ => TransportError) (fun _ => PageText comma_page).

(** A character of the money pattern's group, [[\d,]]. *)
Definition money_char (c : ascii) : bool := is_digit c || Ascii.eqb c ",".

Fixpoint take_while (p : ascii -> bool) (s : string) : string :=
  match s with
  | EmptyString => EmptyString
  | String c s' => if p c then String c (take_while p s') else EmptyString
  end.

Fixpoint drop_while (p : ascii -> bool) (s : string) : string :=
  match s with
  | EmptyString => EmptyString
  | String c s' => if p c then drop_while p s' else s
  end.

(** The first maximal run of digits and commas of a text. *)
Fixpoint money_run (s : string) : option string :=
  match s with
  | EmptyString => None
  | String c s' => if money_char c then Some (take_while money_char s) else money_run s'
  end.

(** The fields parsed by [normalize_money]. *)
Definition money_labels : list label :=
  [L_living_sqft; L_lot_sqft; L_sales_price; L_assessed_land; L_assessed_impr;
   L_assessed_total].

(** The match of the money group at the start of a text. *)
Definition group_at (s : string) : option captures :=
  match s with
  | String c _ => if money_char c then Some [(1, take_while money_char s)] else None
  | EmptyString => None
  end.

(** Distinct labels, and neither an empty label nor an empty value. *)
Definition kv_entries_ok (kv : kvmap) : Prop :=
  NoDup (map fst kv) /\
  forall k v, In (k, v) kv -> k <> EmptyString /\ v <> EmptyString.


(** The city, state and zip of an address are absent together or
    present together. *)
Definition city_state_zip_together (a : Address) : Prop :=
  (city a = None /\ state a = None /\ zip a = None) \/
  (city a <> None /\ state a <> None /\ zip a <> None).

(** A character that may stand in a quoted URL component. *)
Definition url_char (c : ascii) : bool :=
  is_digit c || is_upper c || is_lower c
  || Ascii.eqb c "_" || Ascii.eqb c "." || Ascii.eqb c "-" || Ascii.eqb c "~"
  || Ascii.eqb c "+" || Ascii.eqb c "%".

Definition hex_val (c : ascii) : nat :=
  if is_digit c then nat_of_ascii c - 48 else nat_of_ascii c - 55.

(** Reading a quoted text back; it serves to show that quoting loses
    nothing. *)
Fixpoint unquote_text (s : string) : string :=
  match s with
  | EmptyString => EmptyString
  | String c rest =>
      if Ascii.eqb c "%" then
        match rest with
        | String h (String l rest') =>
            String (ascii_of_nat (16 * hex_val h + hex_val l)) (unquote_text rest')
        | _ => String c (unquote_text rest)
        end
      else if Ascii.eqb c "+" then String " " (unquote_text rest)
      else String c (unquote_text rest)
  end.

(** The digit strings [int] accepts: not empty, and of no more than
    [int_max_str_digits] digits. *)
Definition int_accepts (ds : string) : bool :=
  nonempty ds && (Z.of_nat (String.length ds) <=? int_max_str_digits)%Z.

Fixpoint srepeat (c : ascii) (n : nat) : string :=
  match n with
  | O => EmptyString
  | S n' => String c (srepeat c n')
  end.

(** A money value of 4301 digits, one beyond what [int] accepts. *)
Definition long_numeral : string := String "$" (srepeat "1" 4301).

(** A document whose land value is that numeral. *)
Definition long_value_page : soup :=
  [Tag "table" [Tag "tr" [Tag "th" [Text "Land Value"]; Tag "td" [Text long_numeral]]]].

(** Four consecutive digits start at position [i] of the text. *)
Definition year_at (i : nat) (text : string) : bool :=
  let y := substring i 4 text in
  (String.length y =? 4) && sforall is_digit y.

(** Text of ASCII characters only; on such text the character classes
    of this file are those of the program's patterns. *)
Definition ascii_text (s : string) : bool :=
  sforall (fun c => nat_of_ascii c <? 128) s.

(** Induction over document trees. *)
Section NodeInduction.
Variable P : node -> Prop.
Hypothesis HText : forall s, P (Text s).
Hypothesis HTag : forall t cs, Forall P cs -> P (Tag t cs).

Fixpoint node_induction (n : node) : P n :=
  match n with
  | Text s => HText s
  | Tag t cs =>
      HTag t cs
        ((fix go (l : list node) : Forall P l :=
            match l with
            | [] => Forall_nil P
            | c :: rest => Forall_cons c (node_induction c) (go rest)
            end) cs)
  end.

End NodeInduction.

(** The strings of the document, in document order. *)
Definition soup_strings (d : soup) : list string := flat_map all_strings d.

(** Every string of the document is ASCII text. *)
Definition soup_ascii (d : soup) : bool := forallb ascii_text (soup_strings d).

(** The label is found: the label of a harvested row, or a string of
    the document, matches one of the label's patterns. *)
Definition label_found (l : label) (d : soup) : Prop :=
  exists pat, In pat (_LABEL_ALIASES l) /\
    ((exists k v, In (k, v) (harvest d) /\ re_test true pat k = true) \/
     (exists s, In s (soup_strings d) /\ re_test true pat s = true)).

(** A page with the label and its value in one paragraph, the value
    as plain text after the label's element. *)
Definition loose_exemption_page : string :=
  "<p><b>Homeowner's Exemption</b> No</p>".

(* ================================================================== *)
(** * Properties *)

(** ** Text lemmas *)

Lemma sappend_nil_r (s : string) : (s ++ "")%string = s.
Proof.
  induction s as [|c s IH]; simpl; [reflexivity | now rewrite IH].
Qed.

Lemma sappend_assoc (a b c : string) :
  ((a ++ b) ++ c)%string = (a ++ (b ++ c))%string.
Proof.
  induction a as [|x a IH]; simpl; [reflexivity | now rewrite IH].
Qed.

Lemma slength_append (a b : string) :
  String.length (a ++ b) = String.length a + String.length b.
Proof.
  induction a as [|x a IH]; simpl; [reflexivity | now rewrite IH].
Qed.

Lemma nonempty_true_iff (s : string) : nonempty s = true <-> s <> EmptyString.
Proof.
  destruct s; simpl; split; intro H; try reflexivity; try discriminate.
  now contradiction H.
Qed.

Lemma starts_with_spec (p s : string) :
  starts_with p s = true <-> exists post, s = (p ++ post)%string.
Proof.
  revert s; induction p as [|a p IH]; intros s; simpl.
  - split; [intros _; now exists s | reflexivity].
  - destruct s as [|b s].
    + split; [discriminate | intros [post H]; discriminate].
    + rewrite andb_true_iff, Ascii.eqb_eq, IH. split.
      * intros [-> [post ->]]. now exists post.
      * intros [post H]. injection H as -> ->. split; [reflexivity | now exists post].
Qed.

Lemma contains_spec (sub s : string) : contains sub s = true <-> occurs sub s.
Proof.
  unfold occurs. induction s as [|c s IH]; simpl.
  - rewrite orb_false_r, starts_with_spec. split.
    + intros [post H]. now exists EmptyString, post.
    + intros [pre [post H]]. destruct pre; simpl in H.
      * now exists post.
      * discriminate.
  - rewrite orb_true_iff, starts_with_spec, IH. split.
    + intros [[post H] | [pre [post H]]].
      * now exists EmptyString, post.
      * exists (String c pre), post. simpl. now rewrite H.
    + intros [pre [post H]]. destruct pre as [|x pre]; simpl in H.
      * left. now exists post.
      * right. injection H as _ H. now exists pre, post.
Qed.

Lemma sdrop_append (pre suf : string) : sdrop (String.length pre) (pre ++ suf) = suf.
Proof.
  induction pre as [|c pre IH]; simpl; [now destruct suf | exact IH].
Qed.

Lemma stake_sdrop (n : nat) (s : string) : (stake n s ++ sdrop n s)%string = s.
Proof.
  revert s; induction n as [|n IH]; intros s; simpl.
  - now destruct s.
  - destruct s as [|c s]; simpl; [reflexivity | now rewrite IH].
Qed.

Lemma ends_with_spec (suf s : string) : ends_with suf s = true <-> has_suffix suf s.
Proof.
  unfold ends_with, has_suffix. rewrite andb_true_iff, Nat.leb_le, String.eqb_eq. split.
  - intros [_ H]. exists (stake (String.length s - String.length suf) s).
    rewrite <- (stake_sdrop (String.length s - String.length suf) s) at 1.
    now rewrite H.
  - intros [pre ->]. rewrite slength_append. split; [lia |].
    replace (String.length pre + String.length suf - String.length suf)
      with (String.length pre) by lia.
    apply sdrop_append.
Qed.

Lemma any_in_spec (keys : list string) (n : string) :
  any_in keys n = true <-> any_occurs keys n.
Proof.
  unfold any_in, any_occurs. rewrite existsb_exists. split.
  - intros [k [Hin Hk]]. exists k. split; [exact Hin | now apply contains_spec].
  - intros [k [Hin Hk]]. exists k. split; [exact Hin | now apply contains_spec].
Qed.

Lemma trust_name_spec (n : string) :
  contains "TRUST" n || ends_with " TR" n = true <-> trust_name n.
Proof.
  unfold trust_name. now rewrite orb_true_iff, contains_spec, ends_with_spec.
Qed.

(** ** Owner classification (C8) *)

Lemma classify_owner_type_sound (name : option string) :
  owner_class name (classify_owner_type name).
Proof.
  destruct name as [nm|]; [| constructor].
  unfold classify_owner_type.
  destruct nm as [|c nm0]; [constructor |].
  set (nm := String c nm0). simpl negb. cbv iota.
  assert (Hne : nm <> EmptyString) by discriminate.
  destruct (contains "TRUST" (upper nm) || ends_with " TR" (upper nm)) eqn:Ht.
  { apply OC_trust; [exact Hne | now apply trust_name_spec]. }
  assert (Hnt : ~ trust_name (upper nm)).
  { intro H. apply trust_name_spec in H. congruence. }
  destruct (contains "LLC" (upper nm)) eqn:Hl.
  { apply OC_llc; [exact Hne | exact Hnt | now apply contains_spec]. }
  assert (Hnl : ~ llc_name (upper nm)).
  { intro H. apply contains_spec in H. congruence. }
  destruct (any_in [" INC"; " CORP"; " CORPORATION"; " CO."; " COMPANY"] (upper nm)) eqn:Hc.
  { apply OC_corporation; try assumption. now apply any_in_spec. }
  assert (Hnc : ~ corporation_name (upper nm)).
  { intro H. apply any_in_spec in H. congruence. }
  destruct (any_in [" LP"; " L.P."; " LTD"; " LIMITED"; " PARTNERSHIP"] (upper nm)) eqn:Hp.
  { apply OC_partnership; try assumption. now apply any_in_spec. }
  apply OC_individual; try assumption.
  intro H. apply any_in_spec in H. congruence.
Qed.

Lemma owner_class_functional (name c1 c2 : option string) :
  owner_class name c1 -> owner_class name c2 -> c1 = c2.
Proof.
  intros H1 H2.
  inversion H1; subst; inversion H2; subst; try reflexivity; try congruence;
    contradiction.
Qed.

(** C8 (as amended).  Owner classification is a total function of the
    owner name: null for no name or empty text; otherwise, on the
    upper-cased name and in this priority order, trust when it contains
    "TRUST" or ends with " TR", llc when it contains "LLC", corporation
    when it contains one of " INC", " CORP", " CORPORATION", " CO.",
    " COMPANY", partnership when it contains one of " LP", " L.P.",
    " LTD", " LIMITED", " PARTNERSHIP" (each key with its leading
    space), and individual otherwise. *)
Theorem C8_classify_owner_type :
  forall name c : option string,
    classify_owner_type name = c <-> owner_class name c.
Proof.
  intros name c. split.
  - intros <-. apply classify_owner_type_sound.
  - intro H. eapply owner_class_functional; [apply classify_owner_type_sound | exact H].
Qed.

(** C8 as the specification words it fails: "VINCENT SMITH" contains
    "INC", so the bare-word reading makes it a corporation, while the
    code, whose key is " INC", classifies it as an individual. *)
Lemma C8_counterexample :
  classify_owner_type_spec (Some "VINCENT SMITH") = Some "corporation" /\
  classify_owner_type (Some "VINCENT SMITH") = Some "individual" /\
  classify_owner_type (Some "VINCENT SMITH")
    <> classify_owner_type_spec (Some "VINCENT SMITH").
Proof.
  repeat split; try reflexivity. vm_compute. discriminate.
Qed.

(** ** Extraction of the sample document (C1) *)

Lemma demo_extraction :
  parse_property_page DEMO_HTML =
  Ok {| apn := JStr "235-12-003";
        situs_address := mkAddress (Some "123 Sample St San Jose") None (Some "CA") None;
        owner_names := [];
        owner_mailing_address :=
          mkAddress None (Some "JANE DOE TRUST PO BOX 1234 San Jose") (Some "CA") (Some "95123");
        owner_type := None;
        last_transfer := mkTransfer (Some "06/15/2021") (Some "12345678") (Some 1250000%Z);
        assessed_values :=
          mkAssessed (Some 900000%Z) (Some 450000%Z) (Some 1350000%Z) (Some 2024%Z);
        homeowner_exemption := Some true;
        property_details := mkDetails (Some "SFR") (Some 1978%Z) (Some 1234%Z) (Some 6098%Z);
        recorder_doc_url := Some RECORDER_SEARCH_LANDING |}.
Proof. vm_compute. reflexivity. Qed.

(** C1 (as amended).  Extraction from the embedded sample document
    yields apn "235-12-003", no owner name and a null owner type (the
    sample has no owner-name label), homeowner_exemption true,
    year_built 1978, living_sqft 1234, lot_sqft 6098, the assessed
    values 900000 / 450000 / 1350000 for year 2024, the transfer of
    06/15/2021 with document 12345678 at 1250000, and a non-null
    recorder_doc_url. *)
Theorem C1_demo_extraction :
  exists r, parse_property_page DEMO_HTML = Ok r /\ demo_record_code r.
Proof.
  eexists. split; [apply demo_extraction |].
  unfold demo_record_code; simpl. repeat split; discriminate.
Qed.

(** C1 as stated fails: the record extracted from the sample has no
    owner name (and its situs street swallows the city line), so it is
    not the record the specification lists. *)
Lemma C1_counterexample :
  ~ exists r, parse_property_page DEMO_HTML = Ok r /\ demo_record_spec r.
Proof.
  intros [r [H S]]. rewrite demo_extraction in H. injection H as <-.
  destruct S as (_ & _ & Hown & _). simpl in Hown. discriminate.
Qed.

(** ** Totality of the extraction (C4) *)

Lemma empty_document_null_record : parse_property_page EmptyString = Ok null_record.
Proof. vm_compute. reflexivity. Qed.

(** C4 at its failing input.  A value cell that holds a comma and no
    digit matches the money pattern with a group of commas only; after
    the commas are removed [int] receives the empty string, and the
    [ValueError] escapes [parse_property_page]. *)
Theorem C4_comma_value_raises :
  normalize_money (Some ",") = Raise ValueError /\
  normalize_money (Some "N/A, pending") = Raise ValueError /\
  parse_property_page comma_page = Raise ValueError.
Proof. repeat split; vm_compute; reflexivity. Qed.

(** ** Label resolution (C7) *)

(** C7 (as amended).  [find_first] tries the patterns in declared
    order; for each pattern it searches the harvested mapping and then,
    for that same pattern, the whole document, before it moves to the
    next pattern.  The value returned is that of the first pattern for
    which either search succeeds, the mapping taking precedence for
    that pattern only; nothing is returned exactly when both searches
    fail for every pattern. *)
Theorem C7_find_first_order :
  forall (d : soup) (kv : kvmap) (patterns : list regex),
    (forall v : string,
        find_first d kv patterns = Some v <->
        exists pre pat post,
          patterns = pre ++ pat :: post /\
          (forall q, In q pre -> kv_hit q kv = None /\ doc_hit q d = None) /\
          (kv_hit pat kv = Some v \/ (kv_hit pat kv = None /\ doc_hit pat d = Some v))) /\
    (find_first d kv patterns = None <->
     forall q, In q patterns -> kv_hit q kv = None /\ doc_hit q d = None).
Proof.
  intros d kv patterns. induction patterns as [|p rest [IHs IHn]]; simpl.
  - split.
    + intro v. split; [discriminate |].
      intros (pre & pat & post & H & _). now destruct pre.
    + split; [intros _ q [] | reflexivity].
  - split.
    + intro v. split.
      * destruct (kv_hit p kv) as [v0|] eqn:Hk.
        { intro H. injection H as ->. exists [], p, rest.
          split; [reflexivity | split; [intros q [] | now left]]. }
        destruct (doc_hit p d) as [t|] eqn:Hd.
        { intro H. injection H as ->. exists [], p, rest.
          split; [reflexivity | split; [intros q [] | now right]]. }
        intro H. apply IHs in H. destruct H as (pre & pat & post & -> & Hpre & Hpat).
        exists (p :: pre), pat, post.
        split; [reflexivity | split; [| exact Hpat]].
        intros q [<- | Hq]; [now split | now apply Hpre].
      * intros (pre & pat & post & Heq & Hpre & Hpat).
        destruct pre as [|q0 pre]; simpl in Heq; injection Heq as -> ->.
        { destruct Hpat as [-> | [-> ->]]; reflexivity. }
        destruct (Hpre q0 (or_introl eq_refl)) as [-> ->].
        apply IHs. exists pre, pat, post.
        split; [reflexivity | split; [| exact Hpat]].
        intros q Hq. apply Hpre. now right.
    + split.
      * destruct (kv_hit p kv) eqn:Hk; [discriminate |].
        destruct (doc_hit p d) eqn:Hd; [discriminate |].
        intros H q [<- | Hq]; [now split | now apply IHn].
      * intro H. destruct (H p (or_introl eq_refl)) as [-> ->].
        apply IHn. intros q Hq. apply H. now right.
Qed.

(** C7 as stated fails.  On a page with a loose "Living Area" label
    followed by 999 and a table row "Building Area" = 1,500, the second
    pattern of the living-area field hits the mapping, yet the value
    returned is the document-wide hit of the first pattern. *)
Lemma C7_counterexample :
  let d := BeautifulSoup loose_label_page in
  let kv := harvest d in
  let patterns := _LABEL_ALIASES L_living_sqft in
  first_kv_hit kv patterns = Some "1,500" /\
  find_first d kv patterns = Some "999" /\
  find_first d kv patterns <> find_first_spec d kv patterns.
Proof.
  vm_compute. repeat split; discriminate.
Qed.

(** ** The homeowner exemption flag (C9) *)

Lemma kv_hit_nonempty (pat : regex) (kv : kvmap) (v : string) :
  kv_hit pat kv = Some v -> nonempty v = true.
Proof.
  unfold kv_hit.
  destruct (find _ kv) as [p|] eqn:Hf; [| discriminate].
  intro H. injection H as <-. apply find_some in Hf.
  destruct Hf as [_ Hp]. now apply andb_true_iff in Hp.
Qed.

Lemma doc_hit_nonempty (pat : regex) (d : soup) (v : string) :
  doc_hit pat d = Some v -> nonempty v = true.
Proof.
  unfold doc_hit.
  destruct (soup_find_string pat d) as [[lab pnext]|]; [| discriminate].
  destruct (nonempty lab); [| discriminate].
  destruct (find_next_sibling pnext) as [sib|]; [| discriminate].
  destruct (nonempty (get_text sib)) eqn:Hn; [| discriminate].
  intro H. now injection H as <-.
Qed.

Lemma find_first_nonempty (d : soup) (kv : kvmap) (patterns : list regex) (v : string) :
  find_first d kv patterns = Some v -> nonempty v = true.
Proof.
  induction patterns as [|p rest IH]; simpl; [discriminate |].
  destruct (kv_hit p kv) eqn:Hk.
  - intro H. injection H as <-. eapply kv_hit_nonempty; eassumption.
  - destruct (doc_hit p d) eqn:Hd; [| exact IH].
    intro H. injection H as <-. eapply doc_hit_nonempty; eassumption.
Qed.

Ltac step_rbind H :=
  match type of H with
  | rbind ?c _ = Ok _ =>
      let x := fresh "x" in
      let E := fresh "E" in
      destruct c as [x|] eqn:E; simpl in H; [| discriminate H]
  end.

Lemma parse_soup_exemption (d : soup) (r : ExtractedRecord) :
  parse_soup d = Ok r ->
  homeowner_exemption r =
  parse_exemption (find_first d (harvest d) (_LABEL_ALIASES L_homeowner_exemption)).
Proof.
  unfold parse_soup. intro H. repeat step_rbind H.
  injection H as <-. reflexivity.
Qed.

Lemma affirmative_examples :
  re_test true yes_re "Yes" = true /\ re_test true yes_re "Y" = true /\
  re_test true yes_re "TRUE" = true /\ re_test true yes_re "yes, since 2010" = true /\
  re_test true yes_re "No" = false /\ re_test true yes_re "None yet" = false.
Proof. vm_compute. repeat split. Qed.

(** ** Situs merge precedence (C10) *)

Lemma truthy_has_text (o : option string) : truthy o = true <-> has_text o.
Proof.
  unfold has_text. destruct o as [s|]; simpl.
  - rewrite nonempty_true_iff. split.
    + intro H. now exists s.
    + intros (s' & E & H). now injection E as ->.
  - split; [discriminate | intros (s & E & _); discriminate].
Qed.

Lemma shape_situs (r : ExtractedRecord) : situs_address (shape r) = situs_address r.
Proof. simpl. now destruct (situs_address r). Qed.

(** C10 (as amended).  In the record [main] writes after a page was
    parsed, the page-extracted situs address replaces the geospatial
    one when its street and its city both hold text (non-null and
    non-empty), and it then replaces it whole; in every other case the
    geospatial situs address is kept. *)
Theorem C10_situs_merge :
  forall result parsed : ExtractedRecord,
    (has_text (street (situs_address parsed)) /\ has_text (city (situs_address parsed)) ->
     situs_address (shape (merge result parsed)) = situs_address parsed) /\
    (~ (has_text (street (situs_address parsed)) /\ has_text (city (situs_address parsed))) ->
     situs_address (shape (merge result parsed)) = situs_address result).
Proof.
  intros result parsed. rewrite shape_situs. unfold merge; simpl.
  destruct (truthy (street (situs_address parsed))) eqn:Hs;
    destruct (truthy (city (situs_address parsed))) eqn:Hc; simpl; split;
    try reflexivity.
  - intro H. exfalso. apply H. split; now apply truthy_has_text.
  - intros [_ H]. apply truthy_has_text in H. congruence.
  - intros [H _]. apply truthy_has_text in H. congruence.
  - intros [H _]. apply truthy_has_text in H. congruence.
Qed.

Lemma parsed_sample_extracted : parse_property_page full_situs_page = Ok parsed_sample.
Proof. vm_compute. reflexivity. Qed.

Lemma C10_witness :
  (has_text (street (situs_address parsed_sample)) /\
   has_text (city (situs_address parsed_sample))) /\
  situs_address (shape (merge (seed_record raw_sample) parsed_sample))
  = situs_address parsed_sample.
Proof.
  assert (H : has_text (street (situs_address parsed_sample)) /\
              has_text (city (situs_address parsed_sample))).
  { split; eexists; (split; [reflexivity | discriminate]). }
  split; [exact H |].
  exact (proj1 (C10_situs_merge (seed_record raw_sample) parsed_sample) H).
Defined.

(** C10 as stated fails: a situs cell that starts with a comma is
    parsed into an empty street and a city, both non-null, and the
    geospatial situs address is kept nevertheless. *)
Lemma C10_counterexample :
  exists parsed,
    parse_property_page no_street_page = Ok parsed /\
    street (situs_address parsed) <> None /\
    city (situs_address parsed) <> None /\
    situs_address (shape (merge (seed_record raw_sample) parsed)) = gis_sample /\
    situs_address (shape (merge (seed_record raw_sample) parsed)) <> situs_address parsed.
Proof.
  eexists. split; [vm_compute; reflexivity |].
  vm_compute. repeat split; discriminate.
Qed.

(** [main] writes the merged and shaped record when a page was fetched
    and parsed. *)
Lemma main_saves_merged (w : World) (args : Args.t) (q : string)
  (raw : Raw.RawSearchResult) (t : trace) (html : string) (parsed : ExtractedRecord) :
  Args.demo args = false ->
  query_of args = Some q ->
  run (search_property w q) = (Ok raw, t) ->
  Raw.assessor_html raw = Some html ->
  nonempty html = true ->
  parse_property_page html = Ok parsed ->
  run (main w args)
  = (Ok 0%Z, t ++ [EvSave (Args.output args) (shape (merge (seed_record raw) parsed)) None]).
Proof.
  intros Hd Hq Hs Hh Hn Hp. unfold main, run, bind. rewrite Hd, Hq.
  unfold run in Hs. rewrite Hs. cbv beta iota. rewrite Hh.
  cbn [truthy]. rewrite Hn. simpl negb. rewrite andb_false_r.
  unfold lift. rewrite Hp. reflexivity.
Qed.

(** ** Exceptions escaping the pipeline (C5) *)

(** C5 at its failing input.  The geocoder returns a candidate without
    a parcel id, the spatial query a feature whose attributes lack the
    APN key: the subscript at line 337 raises [KeyError] out of
    [search_property], after the geocode call and the spatial query. *)
Theorem C5_key_error_escapes :
  run (search_property world_point_no_apn "70 W Hedding St") =
  (Raise KeyError,
   [EvGeocode "70 W Hedding St"; EvPointQuery (JNum 1) (JNum 2) (JNum 4326)]).
Proof. vm_compute. reflexivity. Qed.

(** ** Geocode candidates (C6) *)

Lemma well_scored_filter (c : json) :
  well_scored c -> score_ge_70 c = Ok (viable c).
Proof.
  intros (d & -> & [H | [z H]]); unfold score_ge_70, viable, score_key; simpl;
    rewrite H; reflexivity.
Qed.

Lemma filter_viable_ok (cands : list json) :
  Forall well_scored cands -> filter_viable cands = Ok (filter viable cands).
Proof.
  induction 1 as [|c l Hc _ IH]; simpl; [reflexivity |].
  rewrite (well_scored_filter c Hc), IH. simpl. now destruct (viable c).
Qed.

Lemma insert_desc_In (a x : json) (l : list json) :
  In x (insert_desc a l) <-> x = a \/ In x l.
Proof.
  induction l as [|y ys IH]; simpl.
  - intuition congruence.
  - destruct (score_key a <? score_key y)%Z; simpl; [rewrite IH |]; intuition congruence.
Qed.

Lemma sort_desc_In (x : json) (l : list json) : In x (sort_desc l) <-> In x l.
Proof.
  induction l as [|a l IH]; simpl; [reflexivity |].
  rewrite insert_desc_In, IH. intuition congruence.
Qed.

Lemma insert_desc_sorted (a : json) (l : list json) :
  StronglySorted score_ge l -> StronglySorted score_ge (insert_desc a l).
Proof.
  induction 1 as [|y ys Hs IH Hy]; simpl.
  - constructor; constructor.
  - destruct (score_key a <? score_key y)%Z eqn:E.
    + apply Z.ltb_lt in E. constructor; [exact IH |].
      apply Forall_forall. intros x Hx. apply insert_desc_In in Hx.
      destruct Hx as [-> | Hx]; [unfold score_ge; lia |].
      rewrite Forall_forall in Hy. now apply Hy.
    + apply Z.ltb_ge in E. constructor; [now constructor |].
      constructor; [exact E |].
      rewrite Forall_forall in Hy |- *. intros x Hx.
      specialize (Hy x Hx). unfold score_ge in *. lia.
Qed.

Lemma sort_desc_sorted (l : list json) : StronglySorted score_ge (sort_desc l).
Proof.
  induction l as [|a l IH]; simpl; [constructor | now apply insert_desc_sorted].
Qed.

Lemma insert_desc_stable (k : Z) (a : json) (l : list json) :
  filter (has_score k) (insert_desc a l) = filter (has_score k) (a :: l).
Proof.
  induction l as [|y ys IH]; [reflexivity |].
  simpl insert_desc. destruct (score_key a <? score_key y)%Z eqn:E; [| reflexivity].
  apply Z.ltb_lt in E. simpl in *. rewrite IH. unfold has_score.
  destruct (score_key a =? k)%Z eqn:Ea; destruct (score_key y =? k)%Z eqn:Ey;
    try reflexivity.
  apply Z.eqb_eq in Ea, Ey. lia.
Qed.

Lemma sort_desc_stable (k : Z) (l : list json) :
  filter (has_score k) (sort_desc l) = filter (has_score k) l.
Proof.
  induction l as [|a l IH]; [reflexivity |].
  simpl sort_desc. rewrite insert_desc_stable. simpl. now rewrite IH.
Qed.

Lemma filter_score_viable (k : Z) (l : list json) :
  (70 <= k)%Z -> filter (has_score k) (filter viable l) = filter (has_score k) l.
Proof.
  intro Hk. induction l as [|a l IH]; simpl; [reflexivity |].
  unfold viable at 1. destruct (70 <=? score_key a)%Z eqn:E; simpl.
  - now rewrite IH.
  - rewrite IH. unfold has_score. destruct (score_key a =? k)%Z eqn:Ea; [| reflexivity].
    apply Z.eqb_eq in Ea. apply Z.leb_gt in E. lia.
Qed.

Lemma viable_candidates_ok (js : json) (cands : list json) :
  py_get js "candidates" JNull = Ok (JList cands) ->
  Forall well_scored cands ->
  viable_candidates js = Ok (sort_desc (filter viable cands)).
Proof.
  intros Hget Hws. unfold viable_candidates. rewrite Hget. simpl.
  assert (E : py_iter (py_or (JList cands) (JList [])) = Ok cands) by now destruct cands.
  rewrite E. simpl. now rewrite (filter_viable_ok cands Hws).
Qed.

Lemma geocode_run (w : World) (address : string) (js : json) (vs : list json) :
  geocode_service w address = Body js ->
  viable_candidates js = Ok vs ->
  run (arcgis_geocode_address w address) =
  (Ok (match vs with
       | [] => JNull
       | top :: _ => patch_candidate top
       end), [EvGeocode address]).
Proof.
  intros Hg Hv. unfold run, arcgis_geocode_address, bind, emit, lift, ret.
  rewrite Hg, Hv. simpl. now destruct vs.
Qed.

Lemma no_viable_candidate (cands : list json) :
  (forall c, In c cands -> (score_key c < 70)%Z) -> filter viable cands = [].
Proof.
  induction cands as [|a l IH]; intro H; simpl; [reflexivity |].
  unfold viable at 1.
  assert (Ha : (70 <=? score_key a)%Z = false).
  { apply Z.leb_gt. apply H. now left. }
  rewrite Ha. apply IH. intros c Hc. apply H. now right.
Qed.

(** C6.  For a geocoder answer whose candidates are dicts with numeric
    (or missing) scores: the viable list holds exactly the candidates
    scoring at least 70, in descending order of score, candidates of
    equal score in the order the service gave them; the geocoder helper
    returns the first of them (with the missing keys patched in), or
    null when none survives; the scores 95, 69, 80 leave 95, 80; and
    when every candidate scores below 70, [search_property] returns
    null identifier, feature, situs and markup after the single
    geocode call. *)
Theorem C6_geocode_candidates :
  forall (w : World) (q : string) (js : json) (cands : list json),
    is_probable_apn (strip q) = false ->
    geocode_service w (strip q) = Body js ->
    py_get js "candidates" JNull = Ok (JList cands) ->
    Forall well_scored cands ->
    exists vs,
      viable_candidates js = Ok vs /\
      (forall c, In c vs <-> In c cands /\ (70 <= score_key c)%Z) /\
      StronglySorted score_ge vs /\
      (forall k, (70 <= k)%Z -> filter (has_score k) vs = filter (has_score k) cands) /\
      run (arcgis_geocode_address w (strip q)) =
        (Ok (match vs with
             | [] => JNull
             | top :: _ => patch_candidate top
             end), [EvGeocode (strip q)]) /\
      ((forall c, In c cands -> (score_key c < 70)%Z) ->
       run (search_property w q) =
         (Ok (Raw.mk JNull None JNull None),
          [EvGeocode (strip q);
           EvLog WARNING "No geocode candidates found for address."])) /\
      viable_candidates (JDict [("candidates", JList sample_candidates)])
        = Ok [candidate 95 "a"; candidate 80 "c"].
Proof.
  intros w q js cands Hq Hg Hc Hws.
  pose proof (viable_candidates_ok js cands Hc Hws) as Hv.
  exists (sort_desc (filter viable cands)).
  split; [exact Hv |]. split.
  { intro c. rewrite sort_desc_In, filter_In. unfold viable. now rewrite Z.leb_le. }
  split; [apply sort_desc_sorted |]. split.
  { intros k Hk. rewrite sort_desc_stable. now apply filter_score_viable. }
  split; [now apply (geocode_run w (strip q) js) |]. split; [| reflexivity].
  intro Hlow. unfold search_property. rewrite Hq.
  unfold search_address_path, run, bind.
  pose proof (geocode_run w (strip q) js _ Hg Hv) as Hr. unfold run in Hr.
  rewrite Hr, (no_viable_candidate cands Hlow). reflexivity.
Qed.

Lemma C6_witness :
  exists vs,
    viable_candidates (JDict [("candidates", JList sample_candidates)]) = Ok vs /\
    map score_key vs = [95; 80]%Z /\
    StronglySorted score_ge vs.
Proof.
  assert (H1 : is_probable_apn (strip "70 W Hedding St") = false)
    by (vm_compute; reflexivity).
  assert (H2 : geocode_service world_candidates (strip "70 W Hedding St")
               = Body (JDict [("candidates", JList sample_candidates)]))
    by reflexivity.
  assert (H3 : py_get (JDict [("candidates", JList sample_candidates)]) "candidates" JNull
               = Ok (JList sample_candidates))
    by reflexivity.
  assert (H4 : Forall well_scored sample_candidates).
  { repeat constructor; eexists; (split; [reflexivity |]); right; eexists; reflexivity. }
  destruct (C6_geocode_candidates world_candidates "70 W Hedding St" _ _ H1 H2 H3 H4)
    as (vs & Hv & _ & Hs & _ & _ & _ & Hex).
  exists vs. split; [exact Hv |]. split; [| exact Hs].
  rewrite Hex in Hv. injection Hv as <-. reflexivity.
Defined.

(** The same on candidates that all score below 70. *)
Lemma low_candidates_null_result :
  run (search_property world_low_candidates "70 W Hedding St") =
  (Ok (Raw.mk JNull None JNull None),
   [EvGeocode "70 W Hedding St";
    EvLog WARNING "No geocode candidates found for address."]).
Proof. vm_compute. reflexivity. Qed.

(** ** The parcel-id path (C2, C3) *)

Lemma sexists_mono (p q : ascii -> bool) (s : string) :
  (forall c, p c = true -> q c = true) -> sexists p s = true -> sexists q s = true.
Proof.
  intro H. induction s as [|c s IH]; simpl; [discriminate |].
  rewrite !orb_true_iff. intros [Hc | Hs]; [left; now apply H | right; now apply IH].
Qed.

Lemma sfilter_nonempty_sexists (p : ascii -> bool) (s : string) :
  nonempty (sfilter p s) = true -> sexists p s = true.
Proof.
  induction s as [|c s IH]; simpl; [discriminate |].
  destruct (p c); simpl; [reflexivity | exact IH].
Qed.

Lemma lstrip_sexists (s : string) :
  sexists (fun c => negb (is_space c)) s = true ->
  sexists (fun c => negb (is_space c)) (lstrip s) = true.
Proof.
  induction s as [|c s IH]; simpl; [discriminate |].
  destruct (is_space c) eqn:E; simpl; [exact IH | now rewrite E].
Qed.

Lemma rstrip_nonempty (s : string) :
  sexists (fun c => negb (is_space c)) s = true -> nonempty (rstrip s) = true.
Proof.
  induction s as [|c s IH]; simpl; [discriminate |].
  destruct (rstrip s) as [|d r] eqn:Er; [| reflexivity].
  destruct (is_space c); simpl; [| reflexivity].
  intro H. now apply IH in H.
Qed.

Lemma strip_nonempty (s : string) :
  sexists (fun c => negb (is_space c)) s = true -> nonempty (strip s) = true.
Proof.
  intro H. unfold strip. now apply rstrip_nonempty, lstrip_sexists.
Qed.

Lemma nonempty_append_char (a b : string) (c : ascii) :
  nonempty (a ++ String c b) = true.
Proof. now destruct a. Qed.

Lemma probable_apn_nonempty (query : string) :
  is_probable_apn query = true -> nonempty (normalize_apn query) = true.
Proof.
  unfold is_probable_apn, normalize_apn. intro H.
  destruct (String.length (bare_digits query) =? 9); [apply nonempty_append_char |].
  apply strip_nonempty.
  apply andb_true_iff in H. destruct H as [H _].
  apply andb_true_iff in H. destruct H as [_ H]. apply Nat.leb_le in H.
  apply (sexists_mono (fun c => negb (is_space c || Ascii.eqb c "-"))).
  - intros c Hc. now destruct (is_space c).
  - apply sfilter_nonempty_sexists.
    destruct (sfilter _ query); [simpl in H; lia | reflexivity].
Qed.

Lemma only_logs_nil : only_logs [].
Proof. intros e []. Qed.

Lemma only_logs_one (l : level) (m : string) : only_logs [EvLog l m].
Proof. intros e [<- | []]. now exists l, m. Qed.

Lemma only_logs_no_query (t : trace) : only_logs t -> filter is_feature_query t = [].
Proof.
  induction t as [|e t IH]; intro H; simpl; [reflexivity |].
  destruct (H e (or_introl eq_refl)) as (l & m & ->). simpl.
  apply IH. intros e' He'. apply H. now right.
Qed.

Lemma only_logs_no_fetch (t : trace) : only_logs t -> filter is_page_fetch t = [].
Proof.
  induction t as [|e t IH]; intro H; simpl; [reflexivity |].
  destruct (H e (or_introl eq_refl)) as (l & m & ->). simpl.
  apply IH. intros e' He'. apply H. now right.
Qed.

Lemma apn_query_no_feature (w : World) (apn0 : string) (t : trace) :
  no_feature (parcel_service w (exact_where apn0)) ->
  exists v logs,
    arcgis_query_parcel_by_apn w apn0 t
    = (Ok v, t ++ EvParcelQuery (exact_where apn0) :: logs) /\
    py_truthy v = false /\ only_logs logs.
Proof.
  unfold arcgis_query_parcel_by_apn, bind, emit, lift, ret.
  intros [E | (js & v & E & Hf & Hv)]; rewrite E.
  - exists JNull, [EvLog WARNING "Parcel-by-APN request failed"].
    rewrite <- app_assoc. repeat split. apply only_logs_one.
  - exists v, []. rewrite Hf. repeat split; [exact Hv | apply only_logs_nil].
Qed.

Lemma like_query_no_feature (w : World) (bare : string) (t : trace) :
  no_feature (parcel_service w (like_where bare)) ->
  exists v logs,
    arcgis_query_parcel_by_apn_like w bare t
    = (Ok v, t ++ EvParcelQuery (like_where bare) :: logs) /\
    py_truthy v = false /\ only_logs logs.
Proof.
  unfold arcgis_query_parcel_by_apn_like, bind, emit, lift, ret.
  intros [E | (js & v & E & Hf & Hv)]; rewrite E.
  - exists JNull, [EvLog WARNING "Parcel-by-APN-like request failed"].
    rewrite <- app_assoc. repeat split. apply only_logs_one.
  - exists v, []. rewrite Hf. repeat split; [exact Hv | apply only_logs_nil].
Qed.

Lemma like_query_yields (w : World) (bare : string) (f : json) (t : trace) :
  yields_feature (parcel_service w (like_where bare)) f ->
  arcgis_query_parcel_by_apn_like w bare t
  = (Ok f, t ++ [EvParcelQuery (like_where bare)]).
Proof.
  unfold arcgis_query_parcel_by_apn_like, bind, emit, lift, ret.
  intros (js & E & Hf & _). now rewrite E, Hf.
Qed.

Lemma fetch_assessor_run (w : World) (n : string) (t : trace) :
  nonempty n = true ->
  exists logs,
    fetch_assessor w (JStr n) t
    = (Ok (match assessor_site w (assessor_url_of n) with
           | PageError => None
           | PageText html => Some html
           end),
       t ++ EvAssessorPage (assessor_url_of n) :: logs) /\
    only_logs logs.
Proof.
  intro Hn. unfold fetch_assessor, assessor_url_of, bind, emit, lift, ret. simpl.
  rewrite Hn. destruct (assessor_site w _).
  - exists [EvLog WARNING "Assessor page request failed"].
    rewrite <- app_assoc. split; [reflexivity | apply only_logs_one].
  - exists []. split; [reflexivity | apply only_logs_nil].
Qed.

(** C3 (as amended).  On the parcel-id path, when the exact-match
    query finds no feature and the substring query on the bare digits
    yields a feature, exactly two feature queries are made (the exact
    one, then the substring one), the feature returned is the
    substring-matched one, and the resolved identifier is the
    normalized query text: on this path it is not read from the
    feature. *)
Theorem C3_substring_fallback :
  forall (w : World) (q : string) (f : json) (s : option GeoSitus),
    is_probable_apn (strip q) = true ->
    no_feature (parcel_service w (exact_where (normalize_apn (strip q)))) ->
    yields_feature (parcel_service w (like_where (bare_digits (strip q)))) f ->
    extract_situs_from_feature f = Ok s ->
    exists html t,
      run (search_property w q)
      = (Ok (Raw.mk (JStr (normalize_apn (strip q))) s f html), t) /\
      filter is_feature_query t
      = [EvParcelQuery (exact_where (normalize_apn (strip q)));
         EvParcelQuery (like_where (bare_digits (strip q)))].
Proof.
  intros w q f s Hq Hno Hlike Hs.
  pose proof (probable_apn_nonempty _ Hq) as Hn.
  unfold search_property. rewrite Hq.
  unfold search_apn_path, query_exact_then_like, finish_search, run, bind.
  destruct (apn_query_no_feature w _ [] Hno) as (v & logs & E & Hv & Hl).
  rewrite E, Hv. simpl negb. cbv iota.
  rewrite (like_query_yields w _ f _ Hlike).
  destruct Hlike as (js & _ & _ & Hf). rewrite Hf.
  unfold lift at 1. rewrite Hs.
  match goal with
  | |- context [fetch_assessor w _ ?t] =>
      destruct (fetch_assessor_run w _ t Hn) as (logs2 & E2 & Hl2)
  end.
  rewrite E2. unfold ret. eexists. eexists. split; [reflexivity |].
  rewrite !filter_app. simpl.
  now rewrite (only_logs_no_query logs Hl), (only_logs_no_query logs2 Hl2).
Qed.

Lemma world_like_no_exact :
  no_feature (parcel_service world_like (exact_where (normalize_apn (strip "23512003")))).
Proof.
  right. exists (JDict [("features", JList [])]), JNull. repeat split.
Qed.

Lemma world_like_yields :
  yields_feature (parcel_service world_like (like_where (bare_digits (strip "23512003"))))
    like_feature.
Proof.
  exists (JDict [("features", JList [like_feature])]). repeat split.
Qed.

Lemma C3_witness :
  exists html t,
    run (search_property world_like "23512003")
    = (Ok (Raw.mk (JStr "23512003")
             (Some (mkGeoSitus (Some "235120035")
                      (mkAddress None (Some "San Jose") (Some "CA") None)))
             like_feature html), t) /\
    filter is_feature_query t
    = [EvParcelQuery "APN='23512003'"; EvParcelQuery "APN LIKE '%23512003%'"].
Proof.
  assert (H1 : is_probable_apn (strip "23512003") = true) by (vm_compute; reflexivity).
  assert (H4 : extract_situs_from_feature like_feature
               = Ok (Some (mkGeoSitus (Some "235120035")
                             (mkAddress None (Some "San Jose") (Some "CA") None))))
    by (vm_compute; reflexivity).
  exact (C3_substring_fallback world_like "23512003" like_feature _
           H1 world_like_no_exact world_like_yields H4).
Defined.

(** C3 as stated fails: the substring query yields a feature whose APN
    attribute is "235120035", and the resolved identifier is the query
    text "23512003". *)
Lemma C3_counterexample :
  is_probable_apn (strip "23512003") = true /\
  no_feature (parcel_service world_like (exact_where (normalize_apn (strip "23512003")))) /\
  yields_feature (parcel_service world_like (like_where (bare_digits (strip "23512003"))))
    like_feature /\
  feature_apn like_feature = Ok (JStr "235120035") /\
  exists raw t,
    run (search_property world_like "23512003") = (Ok raw, t) /\
    Raw.parcel_feature raw = like_feature /\
    Ok (Raw.apn raw) <> feature_apn like_feature.
Proof.
  split; [vm_compute; reflexivity |].
  split; [exact world_like_no_exact |].
  split; [exact world_like_yields |].
  split; [reflexivity |].
  eexists. eexists. split; [vm_compute; reflexivity |].
  split; [reflexivity | vm_compute; discriminate].
Qed.

Lemma search_apn_identifier (w : World) (q : string) (raw : Raw.RawSearchResult) (t : trace) :
  is_probable_apn (strip q) = true ->
  run (search_property w q) = (Ok raw, t) ->
  Raw.apn raw = JStr (normalize_apn (strip q)).
Proof.
  intro Hq. unfold search_property. rewrite Hq.
  unfold search_apn_path, finish_search, run, bind.
  destruct (query_exact_then_like w _ _ []) as [[f|e] t1]; [| discriminate].
  destruct (lift _ t1) as [[s|e] t2]; [| discriminate].
  destruct (fetch_assessor w _ t2) as [[h|e] t3]; [| discriminate].
  unfold ret. intro H. now injection H as <- _.
Qed.

Lemma main_exit_2_iff (w : World) (args : Args.t) :
  fst (run (main w args)) = Ok 2%Z <->
  Args.demo args = false /\
  exists q raw t,
    query_of args = Some q /\
    run (search_property w q) = (Ok raw, t) /\
    py_truthy (Raw.apn raw) = false /\
    truthy (Raw.assessor_html raw) = false.
Proof.
  unfold main, run, bind, emit, lift, ret.
  destruct (Args.demo args).
  { split.
    - destruct (parse_property_page DEMO_HTML); simpl; discriminate.
    - intros [H _]. discriminate. }
  destruct (query_of args) as [q|].
  2: { split; [simpl; discriminate | intros [_ (q & raw & t & H & _)]; discriminate]. }
  destruct (search_property w q []) as [[raw|e] t] eqn:Es.
  2: { split; [simpl; discriminate |].
       intros [_ (q' & raw & t' & H & Hs & _)]. injection H as <-.
       unfold run in Hs. congruence. }
  destruct (py_truthy (Raw.apn raw)) eqn:Ha; simpl negb; cbv iota.
  { split.
    - destruct (Raw.assessor_html raw) as [html|]; simpl.
      + destruct (nonempty html); simpl; [| discriminate].
        destruct (parse_property_page html); simpl; discriminate.
      + discriminate.
    - intros [_ (q' & raw' & t' & H & Hs & Ha' & _)]. injection H as <-.
      unfold run in Hs. rewrite Es in Hs. injection Hs as <- <-. congruence. }
  destruct (truthy (Raw.assessor_html raw)) eqn:Hh; simpl negb; cbv iota.
  { split.
    - destruct (Raw.assessor_html raw) as [html|]; simpl in *; [| discriminate].
      rewrite Hh. destruct (parse_property_page html); simpl; discriminate.
    - intros [_ (q' & raw' & t' & H & Hs & _ & Hh')]. injection H as <-.
      unfold run in Hs. rewrite Es in Hs. injection Hs as <- <-. congruence. }
  split; [| reflexivity].
  intros _. split; [reflexivity |]. exists q, raw, t. repeat split; assumption.
Qed.

Lemma search_apn_no_feature (w : World) (q : string) :
  is_probable_apn (strip q) = true ->
  no_feature (parcel_service w (exact_where (normalize_apn (strip q)))) ->
  no_feature (parcel_service w (like_where (bare_digits (strip q)))) ->
  exists v t,
    run (search_property w q)
    = (Ok (Raw.mk (JStr (normalize_apn (strip q))) None v
             (match assessor_site w (assessor_url_of (normalize_apn (strip q))) with
              | PageError => None
              | PageText html => Some html
              end)), t) /\
    py_truthy v = false /\
    filter is_page_fetch t = [EvAssessorPage (assessor_url_of (normalize_apn (strip q)))].
Proof.
  intros Hq Hno1 Hno2.
  pose proof (probable_apn_nonempty _ Hq) as Hn.
  unfold search_property. rewrite Hq.
  unfold search_apn_path, query_exact_then_like, finish_search, run, bind.
  destruct (apn_query_no_feature w _ [] Hno1) as (v1 & logs1 & E1 & Hv1 & Hl1).
  rewrite E1, Hv1. change (negb false) with true. cbv iota.
  match goal with
  | |- context [arcgis_query_parcel_by_apn_like w _ ?t] =>
      destruct (like_query_no_feature w _ t Hno2) as (v2 & logs2 & E2 & Hv2 & Hl2)
  end.
  rewrite E2, Hv2. unfold lift at 1.
  match goal with
  | |- context [fetch_assessor w _ ?t] =>
      destruct (fetch_assessor_run w _ t Hn) as (logs3 & E3 & Hl3)
  end.
  rewrite E3. unfold ret. exists v2. eexists. split; [reflexivity |].
  split; [exact Hv2 |].
  rewrite !filter_app. simpl.
  now rewrite (only_logs_no_fetch logs1 Hl1), (only_logs_no_fetch logs2 Hl2),
    (only_logs_no_fetch logs3 Hl3).
Qed.

(** C2 (as amended).  For a query that classifies as a parcel id the
    resolved identifier is the normalized query text, which is never
    empty, whether or not a feature is resolved; so the process never
    exits with code 2 on such a query.  When neither feature query
    finds a feature, the record page is still requested once, and when
    that request fails too the record written has that identifier and
    nulls elsewhere, with exit code 0.  In general the exit code is 2
    exactly when the search returns with neither an identifier nor page
    markup. *)
Theorem C2_parcel_id_exit_code :
  forall (w : World) (args : Args.t) (q : string),
    Args.demo args = false ->
    query_of args = Some q ->
    is_probable_apn (strip q) = true ->
    let n := normalize_apn (strip q) in
    n <> EmptyString /\
    exit_code (fst (run (main w args))) <> 2%Z /\
    (no_feature (parcel_service w (exact_where n)) ->
     no_feature (parcel_service w (like_where (bare_digits (strip q)))) ->
     (exists raw t,
         run (search_property w q) = (Ok raw, t) /\
         Raw.apn raw = JStr n /\ Raw.situs raw = None /\
         py_truthy (Raw.parcel_feature raw) = false /\
         filter is_page_fetch t = [EvAssessorPage (assessor_url_of n)]) /\
     (assessor_site w (assessor_url_of n) = PageError ->
      exists t,
        run (main w args)
        = (Ok 0%Z, t ++ [EvSave (Args.output args) (set_apn (JStr n) null_record) None]))) /\
    (forall (w' : World) (args' : Args.t),
        fst (run (main w' args')) = Ok 2%Z <->
        Args.demo args' = false /\
        exists q' raw t,
          query_of args' = Some q' /\
          run (search_property w' q') = (Ok raw, t) /\
          py_truthy (Raw.apn raw) = false /\
          truthy (Raw.assessor_html raw) = false).
Proof.
  intros w args q Hdemo Hquery Hq n.
  pose proof (probable_apn_nonempty _ Hq) as Hn. fold n in Hn.
  split; [now apply nonempty_true_iff |].
  split.
  { intro H.
    assert (E : fst (run (main w args)) = Ok 2%Z).
    { destruct (fst (run (main w args))) as [c|e]; simpl in H; [now subst | discriminate]. }
    apply main_exit_2_iff in E. destruct E as [_ (q' & raw & t & Hq' & Hs & Ha & _)].
    rewrite Hquery in Hq'. injection Hq' as <-.
    rewrite (search_apn_identifier w q raw t Hq Hs) in Ha. simpl in Ha.
    fold n in Ha. congruence. }
  split; [| intros w' args'; apply main_exit_2_iff].
  intros Hno1 Hno2.
  destruct (search_apn_no_feature w q Hq Hno1 Hno2) as (v & t & Es & Hv & Ht).
  fold n in Es, Ht. split.
  { eexists. exists t. split; [exact Es |]. repeat split; assumption. }
  intro Hpage. rewrite Hpage in Es.
  unfold main, run, bind. rewrite Hdemo, Hquery.
  unfold run in Es. rewrite Es. cbv beta iota.
  cbn [Raw.apn Raw.assessor_html Raw.situs py_truthy truthy].
  rewrite Hn. simpl. unfold emit, ret. exists t. reflexivity.
Qed.

Lemma world_nothing_no_exact :
  no_feature (parcel_service world_nothing (exact_where (normalize_apn (strip "23512003")))).
Proof.
  right. exists (JDict [("features", JList [])]), JNull. repeat split.
Qed.

Lemma world_nothing_no_like :
  no_feature (parcel_service world_nothing (like_where (bare_digits (strip "23512003")))).
Proof.
  right. exists (JDict [("features", JList [])]), JNull. repeat split.
Qed.

Lemma C2_witness :
  exit_code (fst (run (main world_nothing (args_apn "23512003")))) <> 2%Z /\
  exists t,
    run (main world_nothing (args_apn "23512003"))
    = (Ok 0%Z, t ++ [EvSave "output.json" (set_apn (JStr "23512003") null_record) None]).
Proof.
  assert (H1 : Args.demo (args_apn "23512003") = false) by reflexivity.
  assert (H2 : query_of (args_apn "23512003") = Some "23512003") by reflexivity.
  assert (H3 : is_probable_apn (strip "23512003") = true) by (vm_compute; reflexivity).
  destruct (C2_parcel_id_exit_code world_nothing (args_apn "23512003") "23512003" H1 H2 H3)
    as (_ & Hexit & Hnone & _).
  split; [exact Hexit |].
  destruct (Hnone world_nothing_no_exact world_nothing_no_like) as [_ Hsave].
  exact (Hsave eq_refl).
Defined.

(** C2 as stated fails: the query "23512003" classifies as a parcel
    id and neither feature query resolves a feature, yet the record
    page is requested, the record written carries the identifier, and
    the exit code is 0. *)
Lemma C2_counterexample :
  is_probable_apn (strip "23512003") = true /\
  no_feature (parcel_service world_nothing (exact_where (normalize_apn (strip "23512003")))) /\
  no_feature (parcel_service world_nothing (like_where (bare_digits (strip "23512003")))) /\
  run (main world_nothing (args_apn "23512003"))
  = (Ok 0%Z,
     [EvParcelQuery "APN='23512003'";
      EvParcelQuery "APN LIKE '%23512003%'";
      EvAssessorPage "https://www.sccassessor.org/index.php/apn-redirect?ApnValue=23512003";
      EvLog WARNING "Assessor page request failed";
      EvSave "output.json" (set_apn (JStr "23512003") null_record) None]) /\
  exit_code (fst (run (main world_nothing (args_apn "23512003")))) <> 2%Z.
Proof.
  split; [vm_compute; reflexivity |].
  split; [exact world_nothing_no_exact |].
  split; [exact world_nothing_no_like |].
  split; [vm_compute; reflexivity | vm_compute; discriminate].
Qed.

(** Transport failures alone are absorbed: when every request fails,
    [search_property] still returns a result. *)
Lemma transport_failures_absorbed (q : string) :
  exists raw t,
    run (search_property
           (mkWorld (fun _ => TransportError) (fun _ _ _ => TransportError)
              (fun _ => TransportError) (fun _ => PageError)) q)
    = (Ok raw, t).
Proof.
  unfold search_property.
  destruct (is_probable_apn (strip q)) eqn:Hq.
  - pose proof (probable_apn_nonempty _ Hq) as Hn.
    unfold search_apn_path, query_exact_then_like, finish_search, fetch_assessor,
      arcgis_query_parcel_by_apn, arcgis_query_parcel_by_apn_like,
      run, bind, emit, lift, ret.
    simpl. rewrite Hn. simpl. eexists. eexists. reflexivity.
  - unfold search_address_path, arcgis_geocode_address, run, bind, emit, lift, ret.
    simpl. eexists. eexists. reflexivity.
Qed.

(* ================================================================== *)
(** * Further properties of the code *)

(** ** Query classifier and normalizer *)

Lemma digit_not_space (c : ascii) : is_digit c = true -> is_space c = false.
Proof.
  unfold is_digit, is_space. cbv zeta. intro H.
  apply andb_true_iff in H. destruct H as [H1 H2]. apply Nat.leb_le in H1.
  apply orb_false_iff. split; apply andb_false_iff; right; apply Nat.leb_gt; lia.
Qed.

Lemma digit_not_dash (c : ascii) : is_digit c = true -> Ascii.eqb c "-" = false.
Proof.
  intro H. destruct (Ascii.eqb_spec c "-") as [-> |]; [discriminate H | reflexivity].
Qed.

Lemma sforall_sfilter_self (p : ascii -> bool) (s : string) :
  sforall p (sfilter p s) = true.
Proof.
  induction s as [|c s IH]; simpl; [reflexivity |].
  destruct (p c) eqn:E; simpl; [now rewrite E | exact IH].
Qed.

Lemma apn_char_keep (c : ascii) :
  apn_char c = true -> negb (is_space c || Ascii.eqb c "-") = is_digit c.
Proof.
  unfold apn_char. destruct (is_digit c) eqn:Ed.
  - intros _. now rewrite (digit_not_space c Ed), (digit_not_dash c Ed).
  - simpl. intros ->. reflexivity.
Qed.

Lemma keep_digits (s : string) :
  sforall apn_char s = true ->
  sfilter (fun c => negb (is_space c || Ascii.eqb c "-")) s = bare_digits s.
Proof.
  unfold bare_digits. induction s as [|c s IH]; simpl; [reflexivity |].
  intro H. apply andb_true_iff in H. destruct H as [Hc Hs].
  rewrite (apn_char_keep c Hc), (IH Hs). reflexivity.
Qed.

Lemma kept_digits_apn_chars (s : string) :
  sforall is_digit (sfilter (fun c => negb (is_space c || Ascii.eqb c "-")) s) = true ->
  sforall apn_char s = true.
Proof.
  induction s as [|c s IH]; simpl; [reflexivity |].
  unfold apn_char at 1.
  destruct (is_space c || Ascii.eqb c "-") eqn:E; simpl.
  - intro H. rewrite (IH H), andb_true_r.
    rewrite <- orb_assoc, E. apply orb_true_r.
  - intro H. apply andb_true_iff in H. destruct H as [Hd Hs].
    now rewrite Hd, (IH Hs).
Qed.

(** The classifier in terms of the characters of the text. *)
Lemma probable_apn_chars_iff :
  forall text : string,
    is_probable_apn text = true <->
    sforall apn_char text = true /\
    8 <= String.length (bare_digits text) <= 12.
Proof.
  intro text. unfold is_probable_apn. cbv zeta.
  rewrite !andb_true_iff, !Nat.leb_le. split.
  - intros [[Hd H8] H12].
    pose proof (kept_digits_apn_chars text Hd) as Ha.
    rewrite (keep_digits text Ha) in H8, H12. auto.
  - intros [Ha [H8 H12]]. rewrite (keep_digits text Ha).
    repeat split; try assumption. apply sforall_sfilter_self.
Qed.

(** X1.  A text of ASCII characters classifies as a parcel id exactly
    when it is made of digits, white space and dashes only and holds
    between 8 and 12 digits.  (Beyond ASCII the program's [\s] and
    [\d] know more characters than [is_space] and [is_digit].) *)
Theorem is_probable_apn_chars :
  forall text : string,
    ascii_text text = true ->
    (is_probable_apn text = true <->
     sforall apn_char text = true /\
     8 <= String.length (bare_digits text) <= 12).
Proof.
  intros text _. apply probable_apn_chars_iff.
Qed.

Lemma is_probable_apn_chars_witness :
  is_probable_apn " 235-12-003 " = true /\ is_probable_apn "235-12-003x" = false.
Proof.
  split.
  - apply (proj2 (is_probable_apn_chars " 235-12-003 " eq_refl)).
    split; [reflexivity | simpl; lia].
  - destruct (is_probable_apn "235-12-003x") eqn:E; [| reflexivity].
    apply (proj1 (is_probable_apn_chars "235-12-003x" eq_refl)) in E.
    destruct E as [E _]. discriminate E.
Defined.

Lemma lstrip_digits (s : string) : bare_digits (lstrip s) = bare_digits s.
Proof.
  unfold bare_digits. induction s as [|c s IH]; simpl; [reflexivity |].
  destruct (is_space c) eqn:E; [| reflexivity].
  rewrite IH. destruct (is_digit c) eqn:Ed; [| reflexivity].
  rewrite (digit_not_space c Ed) in E. discriminate.
Qed.

Lemma rstrip_digits (s : string) : bare_digits (rstrip s) = bare_digits s.
Proof.
  unfold bare_digits. induction s as [|c s IH]; simpl; [reflexivity |].
  destruct (rstrip s) as [|d r] eqn:Er.
  - simpl in IH. rewrite <- IH.
    destruct (is_space c) eqn:E; simpl.
    + destruct (is_digit c) eqn:Ed; [| reflexivity].
      rewrite (digit_not_space c Ed) in E. discriminate.
    + reflexivity.
  - simpl. simpl in IH. now rewrite IH.
Qed.

Lemma strip_digits (s : string) : bare_digits (strip s) = bare_digits s.
Proof. unfold strip. now rewrite rstrip_digits, lstrip_digits. Qed.

Lemma rstrip_idempotent (s : string) : rstrip (rstrip s) = rstrip s.
Proof.
  induction s as [|c s IH]; simpl; [reflexivity |].
  destruct (rstrip s) as [|d r] eqn:Er.
  - destruct (is_space c) eqn:E; simpl; [reflexivity | now rewrite E].
  - change (rstrip (String c (String d r)))
      with (match rstrip (String d r) with
            | EmptyString => if is_space c then EmptyString else String c EmptyString
            | r0 => String c r0
            end).
    now rewrite IH.
Qed.

Lemma rstrip_head (c : ascii) (s : string) :
  is_space c = false -> exists r, rstrip (String c s) = String c r.
Proof.
  intro E. simpl. destruct (rstrip s) as [|d r].
  - rewrite E. now exists EmptyString.
  - now exists (String d r).
Qed.

Lemma lstrip_rstrip_lstrip (s : string) : lstrip (rstrip (lstrip s)) = rstrip (lstrip s).
Proof.
  induction s as [|c s IH]; [reflexivity |].
  simpl lstrip at 2 3. destruct (is_space c) eqn:E; [exact IH |].
  destruct (rstrip_head c s E) as [r Hr]. rewrite Hr. simpl. now rewrite E.
Qed.

Lemma strip_idempotent (s : string) : strip (strip s) = strip s.
Proof.
  unfold strip. now rewrite lstrip_rstrip_lstrip, rstrip_idempotent.
Qed.

Lemma dashed_digits (d : string) :
  String.length d = 9 -> sforall is_digit d = true -> bare_digits (dashed d) = d.
Proof.
  intros Hl Hd.
  do 9 (destruct d as [|? d]; [discriminate Hl |]).
  destruct d; [| discriminate Hl].
  simpl in Hd. repeat (apply andb_true_iff in Hd; destruct Hd as [? Hd]).
  unfold dashed, bare_digits. simpl.
  repeat match goal with
         | H : is_digit ?c = true |- _ => rewrite H; clear H
         end.
  reflexivity.
Qed.

Lemma dashed_apn_chars (d : string) :
  String.length d = 9 -> sforall is_digit d = true -> sforall apn_char (dashed d) = true.
Proof.
  intros Hl Hd.
  do 9 (destruct d as [|? d]; [discriminate Hl |]).
  destruct d; [| discriminate Hl].
  simpl in Hd. repeat (apply andb_true_iff in Hd; destruct Hd as [? Hd]).
  unfold dashed, apn_char. simpl.
  repeat match goal with
         | H : is_digit ?c = true |- _ => rewrite H; clear H
         end.
  reflexivity.
Qed.

(** Normalization keeps the digits. *)
Lemma bare_digits_normalize :
  forall text : string, bare_digits (normalize_apn text) = bare_digits text.
Proof.
  intro text. unfold normalize_apn. cbv zeta.
  destruct (String.length (bare_digits text) =? 9) eqn:E.
  - apply Nat.eqb_eq in E. apply (dashed_digits _ E). apply sforall_sfilter_self.
  - apply strip_digits.
Qed.

(** X2.  Normalization keeps the digits of the text: what the
    substring query receives as bare digits is the same before and
    after [normalize_apn]. *)
Theorem normalize_apn_digits :
  forall text : string, bare_digits (normalize_apn text) = bare_digits text.
Proof.
  intro text. apply bare_digits_normalize.
Qed.

(** X3.  [normalize_apn] is idempotent on every text: a normalized
    identifier is left unchanged by a second normalization. *)
Theorem normalize_apn_idempotent :
  forall text : string, normalize_apn (normalize_apn text) = normalize_apn text.
Proof.
  intro text.
  pose proof (bare_digits_normalize text) as Hd.
  unfold normalize_apn at 1. cbv zeta. rewrite Hd.
  unfold normalize_apn. cbv zeta.
  destruct (String.length (bare_digits text) =? 9); [reflexivity |].
  apply strip_idempotent.
Qed.

Lemma sforall_lstrip (p : ascii -> bool) (s : string) :
  sforall p s = true -> sforall p (lstrip s) = true.
Proof.
  induction s as [|c s IH]; simpl; [reflexivity |].
  intro H. destruct (is_space c); [| exact H].
  apply andb_true_iff in H. now apply IH.
Qed.

Lemma sforall_rstrip (p : ascii -> bool) (s : string) :
  sforall p s = true -> sforall p (rstrip s) = true.
Proof.
  induction s as [|c s IH]; simpl; [reflexivity |].
  intro H. apply andb_true_iff in H. destruct H as [Hc Hs].
  specialize (IH Hs). destruct (rstrip s) as [|d r].
  - destruct (is_space c); simpl; [reflexivity | now rewrite Hc].
  - simpl. simpl in IH. now rewrite Hc, IH.
Qed.

(** X4.  Classification is stable under normalization: the normalized
    form of a text that classifies as a parcel id classifies as a
    parcel id too. *)
Theorem normalize_apn_probable :
  forall text : string,
    is_probable_apn text = true -> is_probable_apn (normalize_apn text) = true.
Proof.
  intros text H. apply probable_apn_chars_iff in H. destruct H as [Ha Hn].
  apply probable_apn_chars_iff. rewrite bare_digits_normalize. split; [| exact Hn].
  unfold normalize_apn. cbv zeta.
  destruct (String.length (bare_digits text) =? 9) eqn:E.
  - apply Nat.eqb_eq in E. apply (dashed_apn_chars _ E). apply sforall_sfilter_self.
  - unfold strip. now apply sforall_rstrip, sforall_lstrip.
Qed.

Lemma normalize_apn_probable_witness :
  is_probable_apn "235 12 0035" = true /\
  is_probable_apn (normalize_apn "235 12 0035") = true.
Proof.
  assert (H : is_probable_apn "235 12 0035" = true) by (vm_compute; reflexivity).
  split; [exact H | exact (normalize_apn_probable "235 12 0035" H)].
Defined.

(** ** The situs skeleton of a feature *)

Lemma or_CA_has_text (o : option string) : has_text (or_CA o).
Proof.
  unfold or_CA. destruct (truthy o) eqn:E.
  - now apply truthy_has_text.
  - exists "CA". split; [reflexivity | discriminate].
Qed.

Lemma or_none_null_or_text (o : option string) : null_or_text (or_none o).
Proof.
  unfold or_none, null_or_text. destruct (truthy o) eqn:E.
  - right. now apply truthy_has_text.
  - now left.
Qed.

(** Shape of the situs skeleton. *)
Lemma extract_situs_shape :
  forall (feature : json) (r : option GeoSitus),
    extract_situs_from_feature feature = Ok r ->
    (r = None <-> py_truthy feature = false) /\
    (forall g, r = Some g ->
               has_text (state (geo_address g)) /\
               null_or_text (street (geo_address g)) /\
               null_or_text (zip (geo_address g))).
Proof.
  intros feature r. unfold extract_situs_from_feature.
  destruct (py_truthy feature); simpl negb; cbv iota.
  - intro H. repeat step_rbind H. injection H as <-. split.
    + split; discriminate.
    + intros g Hg. injection Hg as <-. simpl.
      split; [apply or_CA_has_text |].
      split; apply or_none_null_or_text.
  - intro H. injection H as <-. split.
    + split; reflexivity.
    + intros g Hg. discriminate.
Qed.

(** X5.  [extract_situs_from_feature] yields no skeleton exactly for a
    falsy feature; every skeleton it yields has a state with text (the
    "CA" default fills a missing or empty one), and its street and zip
    are either null or hold text, never the empty string. *)
Theorem extract_situs_invariants :
  forall (feature : json) (r : option GeoSitus),
    extract_situs_from_feature feature = Ok r ->
    (r = None <-> py_truthy feature = false) /\
    (forall g, r = Some g ->
               has_text (state (geo_address g)) /\
               null_or_text (street (geo_address g)) /\
               null_or_text (zip (geo_address g))).
Proof.
  intros feature r H. apply extract_situs_shape. exact H.
Qed.

Lemma extract_situs_invariants_witness :
  exists g,
    extract_situs_from_feature feature_without_apn = Ok (Some g) /\
    has_text (state (geo_address g)) /\
    null_or_text (street (geo_address g)) /\
    null_or_text (zip (geo_address g)).
Proof.
  assert (H : extract_situs_from_feature feature_without_apn
              = Ok (Some (mkGeoSitus None (mkAddress None (Some "San Jose") (Some "CA") None))))
    by (vm_compute; reflexivity).
  eexists. split; [exact H |].
  exact (proj2 (extract_situs_invariants _ _ H) _ eq_refl).
Defined.

Lemma tval_dict (a : list (string * json)) (k : string) :
  exists o, tval (JDict a) k = Ok o.
Proof. unfold tval. simpl. eexists. reflexivity. Qed.

Lemma extract_situs_on_attributes (feature : json) (a : list (string * json)) :
  py_truthy feature = true ->
  py_get feature "attributes" JNull = Ok (JDict a) ->
  exists g, extract_situs_from_feature feature = Ok (Some g).
Proof.
  intros Ht Hg. unfold extract_situs_from_feature. rewrite Ht, Hg. simpl negb. cbv iota.
  assert (Hor : exists a', py_or (JDict a) (JDict []) = JDict a').
  { destruct a; [now exists [] | eexists; reflexivity]. }
  destruct Hor as [a' Ea]. unfold rbind at 1. cbv beta iota zeta. rewrite Ea.
  repeat match goal with
         | |- context [tval (JDict a') ?k] =>
             let o := fresh "o" in
             let E := fresh "E" in
             destruct (tval_dict a' k) as [o E]; rewrite E; simpl rbind
         end.
  eexists. reflexivity.
Qed.

(** X6.  On a feature that is a non-empty dict whose [attributes]
    entry is a dict, is null or is missing, extraction of the situs
    skeleton never raises; on a truthy feature that is not a dict it
    raises [AttributeError]. *)
Theorem extract_situs_errors :
  (forall d : list (string * json),
      d <> [] ->
      (forall v, dict_get "attributes" d = Some v -> v = JNull \/ exists a, v = JDict a) ->
      exists g, extract_situs_from_feature (JDict d) = Ok (Some g)) /\
  (forall feature : json,
      py_truthy feature = true ->
      (forall d, feature <> JDict d) ->
      extract_situs_from_feature feature = Raise AttributeError).
Proof.
  split.
  - intros d Hd Hattr.
    assert (Ht : py_truthy (JDict d) = true) by (destruct d; [congruence | reflexivity]).
    unfold extract_situs_from_feature. rewrite Ht. simpl negb. cbv iota.
    simpl py_get. destruct (dict_get "attributes" d) as [v|] eqn:Ev.
    + destruct (Hattr v eq_refl) as [-> | [a ->]].
      * destruct (extract_situs_on_attributes (JDict [("attributes", JDict [])]) []
                    eq_refl eq_refl) as [g Hg].
        unfold extract_situs_from_feature in Hg. simpl in Hg. simpl. now exists g.
      * destruct (extract_situs_on_attributes (JDict [("attributes", JDict a)]) a
                    eq_refl) as [g Hg].
        { simpl. reflexivity. }
        unfold extract_situs_from_feature in Hg. simpl negb in Hg. cbv iota in Hg.
        simpl py_get in Hg. now exists g.
    + destruct (extract_situs_on_attributes (JDict [("attributes", JDict [])]) []
                  eq_refl eq_refl) as [g Hg].
      unfold extract_situs_from_feature in Hg. simpl in Hg. simpl. now exists g.
  - intros feature Ht Hnd. unfold extract_situs_from_feature. rewrite Ht.
    destruct feature; try reflexivity. now contradiction (Hnd d).
Qed.

(** ** Lookup after [setdefault] *)

Lemma dict_get_app (k k0 : string) (v : json) (d : list (string * json)) :
  dict_get k (d ++ [(k0, v)]) =
  match dict_get k d with
  | Some x => Some x
  | None => if String.eqb k0 k then Some v else None
  end.
Proof.
  induction d as [|[k' x] d IH]; simpl; [reflexivity |].
  destruct (String.eqb k' k); [reflexivity | exact IH].
Qed.

Lemma json_setdefault_get (k k0 : string) (v : json) (d : list (string * json)) :
  exists d',
    json_setdefault k0 v (JDict d) = JDict d' /\
    dict_get k d' =
    match dict_get k d with
    | Some x => Some x
    | None => if String.eqb k0 k then Some v else None
    end.
Proof.
  unfold json_setdefault. destruct (dict_get k0 d) as [x0|] eqn:E0.
  - exists d. split; [reflexivity |].
    destruct (dict_get k d) eqn:Ek; [reflexivity |].
    destruct (String.eqb_spec k0 k) as [-> |]; [congruence | reflexivity].
  - exists (d ++ [(k0, v)]). split; [reflexivity | apply dict_get_app].
Qed.

(** X7.  Patching the top geocode candidate keeps every entry the
    candidate already has, adds nothing but the keys [location],
    [attributes] and [spatialReference], and leaves all three present;
    an added [location] or [attributes] is the empty dict and an added
    [spatialReference] is wkid 4326. *)
Theorem patch_candidate_keys :
  forall d : list (string * json),
    exists d',
      patch_candidate (JDict d) = JDict d' /\
      (forall k x, dict_get k d = Some x -> dict_get k d' = Some x) /\
      (forall k, dict_get k d = None ->
                 dict_get k d' =
                 if String.eqb k "location" then Some (JDict [])
                 else if String.eqb k "attributes" then Some (JDict [])
                 else if String.eqb k "spatialReference" then Some (JDict [("wkid", JNum 4326)])
                 else None).
Proof.
  intro d. unfold patch_candidate.
  destruct (json_setdefault_get EmptyString "location" (JDict []) d) as (d1 & E1 & _).
  rewrite E1.
  assert (G1 : forall k, dict_get k d1 =
                         match dict_get k d with
                         | Some x => Some x
                         | None => if String.eqb "location" k then Some (JDict []) else None
                         end).
  { intro k. destruct (json_setdefault_get k "location" (JDict []) d) as (d1' & E & G).
    rewrite E1 in E. now injection E as <-. }
  assert (S2 : exists d2, json_setdefault "attributes" (JDict []) (JDict d1) = JDict d2).
  { destruct (json_setdefault_get EmptyString "attributes" (JDict []) d1) as (d2 & E & _).
    now exists d2. }
  destruct S2 as [d2 E2]. rewrite E2.
  assert (G2 : forall k, dict_get k d2 =
                         match dict_get k d1 with
                         | Some x => Some x
                         | None => if String.eqb "attributes" k then Some (JDict []) else None
                         end).
  { intro k. destruct (json_setdefault_get k "attributes" (JDict []) d1) as (d2' & E & G).
    rewrite E2 in E. now injection E as <-. }
  destruct (json_setdefault_get EmptyString "spatialReference"
              (JDict [("wkid", JNum 4326)]) d2) as (d3 & E3 & _).
  exists d3. split; [exact E3 |].
  assert (G3 : forall k, dict_get k d3 =
                         match dict_get k d2 with
                         | Some x => Some x
                         | None => if String.eqb "spatialReference" k
                                   then Some (JDict [("wkid", JNum 4326)]) else None
                         end).
  { intro k. destruct (json_setdefault_get k "spatialReference"
                         (JDict [("wkid", JNum 4326)]) d2) as (d3' & E & G).
    rewrite E3 in E. now injection E as <-. }
  split.
  - intros k x Hk. now rewrite G3, G2, G1, Hk.
  - intros k Hk. rewrite G3, G2, G1, Hk.
    rewrite (String.eqb_sym k "location"), (String.eqb_sym k "attributes"),
      (String.eqb_sym k "spatialReference").
    destruct (String.eqb "location" k); [reflexivity |].
    destruct (String.eqb "attributes" k); reflexivity.
Qed.

(** ** Remote requests of one search *)

Lemma emits_ret {A : Type} (p : event -> bool) (n : nat) (x : A) :
  emits_le p n (ret x).
Proof. intro t. exists []. rewrite app_nil_r. split; [reflexivity | simpl; lia]. Qed.

Lemma emits_lift {A : Type} (p : event -> bool) (n : nat) (r : result A) :
  emits_le p n (lift r).
Proof. intro t. exists []. rewrite app_nil_r. split; [reflexivity | simpl; lia]. Qed.

Lemma emits_emit (p : event -> bool) (n : nat) (e : event) :
  (if p e then 1 else 0) <= n -> emits_le p n (emit e).
Proof.
  intros H t. exists [e]. split; [reflexivity |]. simpl. now destruct (p e).
Qed.

Lemma emits_bind {A B : Type} (p : event -> bool) (a b n : nat) (c : M A) (f : A -> M B) :
  emits_le p a c -> (forall x, emits_le p b (f x)) -> a + b <= n ->
  emits_le p n (bind c f).
Proof.
  intros Hc Hf Hn t. unfold bind.
  destruct (Hc t) as (ev1 & E1 & L1). destruct (c t) as [[x|e] t1]; simpl in E1; subst t1.
  - destruct (Hf x (t ++ ev1)) as (ev2 & E2 & L2). exists (ev1 ++ ev2).
    rewrite E2, app_assoc. split; [reflexivity |].
    rewrite filter_app, length_app. lia.
  - exists ev1. split; [reflexivity | lia].
Qed.

Ltac head_of t :=
  lazymatch t with
  | ?f _ => head_of f
  | _ => t
  end.

Ltac emits_step :=
  lazymatch goal with
  | |- emits_le _ _ (ret _) => apply emits_ret
  | |- emits_le _ _ (lift _) => apply emits_lift
  | |- emits_le _ _ (emit _) => apply emits_emit; simpl; lia
  | |- emits_le ?p ?n (bind (lift _) _) =>
      apply (emits_bind p 0 n);
      [apply emits_lift | intro; cbv beta; emits_step | simpl; lia]
  | |- emits_le ?p ?n (bind (emit ?e) _) =>
      let b := eval cbv in (p e) in
      lazymatch b with
      | true =>
          apply (emits_bind p 1 (n - 1));
          [apply emits_emit; simpl; lia | intro; cbv beta; emits_step | simpl; lia]
      | false =>
          apply (emits_bind p 0 n);
          [apply emits_emit; simpl; lia | intro; cbv beta; emits_step | simpl; lia]
      end
  | |- emits_le ?p ?n (bind ?c ?f) =>
      first
        [ solve [apply (emits_bind p 0 n);
                 [emits_step | intro; cbv beta; emits_step | simpl; lia]]
        | solve [apply (emits_bind p 1 (n - 1));
                 [emits_step | intro; cbv beta; emits_step | simpl; lia]]
        | solve [apply (emits_bind p 2 (n - 2));
                 [emits_step | intro; cbv beta; emits_step | simpl; lia]]
        | solve [apply (emits_bind p 3 (n - 3));
                 [emits_step | intro; cbv beta; emits_step | simpl; lia]] ]
  | |- emits_le _ _ (match ?x with _ => _ end) => destruct x; emits_step
  | |- emits_le _ _ ?c =>
      let h := head_of c in
      unfold h; cbv beta zeta; emits_step
  end.

Lemma search_apn_path_emits (w : World) (query : string) :
  emits_le is_geocode 0 (search_apn_path w query) /\
  emits_le is_feature_query 2 (search_apn_path w query) /\
  emits_le is_page_fetch 1 (search_apn_path w query) /\
  emits_le is_save 0 (search_apn_path w query).
Proof. repeat split; emits_step. Qed.

Lemma search_address_path_emits (w : World) (query : string) :
  emits_le is_geocode 1 (search_address_path w query) /\
  emits_le is_feature_query 3 (search_address_path w query) /\
  emits_le is_page_fetch 1 (search_address_path w query) /\
  emits_le is_save 0 (search_address_path w query).
Proof. repeat split; emits_step. Qed.

Lemma emits_run {A : Type} (p : event -> bool) (n : nat) (c : M A) :
  emits_le p n c -> List.length (filter p (snd (run c))) <= n.
Proof.
  intro H. destruct (H []) as (ev & E & L). unfold run. now rewrite E.
Qed.

(** X8.  One call of [search_property] makes, in every world and also
    when it ends in an exception, at most one geocode request, at most
    three feature queries and at most one record-page request, and it
    writes no file; for a query that classifies as a parcel id it makes
    no geocode request and at most two feature queries. *)
Theorem search_property_request_budget :
  forall (w : World) (q : string),
    let t := snd (run (search_property w q)) in
    List.length (filter is_geocode t) <= (if is_probable_apn (strip q) then 0 else 1) /\
    List.length (filter is_feature_query t) <= (if is_probable_apn (strip q) then 2 else 3) /\
    List.length (filter is_page_fetch t) <= 1 /\
    filter is_save t = [].
Proof.
  intros w q t. subst t. unfold search_property. cbv zeta.
  destruct (is_probable_apn (strip q)).
  - destruct (search_apn_path_emits w (strip q)) as (H1 & H2 & H3 & H4).
    repeat split; try (now apply emits_run).
    apply emits_run in H4. now destruct (filter is_save _); [| simpl in H4; lia].
  - destruct (search_address_path_emits w (strip q)) as (H1 & H2 & H3 & H4).
    repeat split; try (now apply emits_run).
    apply emits_run in H4. now destruct (filter is_save _); [| simpl in H4; lia].
Qed.

(** ** What a search returns *)

Lemma returns_ret {A : Type} (x : A) (P : A -> Prop) : P x -> returns (ret x) P.
Proof. intros H t a t' E. unfold ret in E. now injection E as <- _. Qed.

Lemma returns_lift {A : Type} (r : result A) : returns (lift r) (fun a => r = Ok a).
Proof. intros t a t' E. unfold lift in E. now injection E as -> _. Qed.

Lemma returns_true {A : Type} (c : M A) : returns c (fun _ => True).
Proof. intros t a t' _. exact I. Qed.

Lemma returns_weaken {A : Type} (c : M A) (P Q : A -> Prop) :
  returns c P -> (forall a, P a -> Q a) -> returns c Q.
Proof. intros H HPQ t a t' E. apply HPQ. exact (H t a t' E). Qed.

Lemma returns_bind {A B : Type} (P : A -> Prop) (Q : B -> Prop) (c : M A) (f : A -> M B) :
  returns c P -> (forall a, P a -> returns (f a) Q) -> returns (bind c f) Q.
Proof.
  intros Hc Hf t b t' E. unfold bind in E.
  destruct (c t) as [[a|e] t1] eqn:Ec; [| discriminate].
  exact (Hf a (Hc t a t1 Ec) t1 b t' E).
Qed.

Lemma fetch_assessor_returns (w : World) (a : json) :
  returns (fetch_assessor w a)
    (fun h => h <> None -> exists s, a = JStr s /\ s <> EmptyString).
Proof.
  unfold fetch_assessor. destruct (py_truthy a) eqn:Ht.
  - destruct a; try (intros t h t' E; unfold bind, lift in E; simpl in E; discriminate).
    intros t h t' E _. exists s. split; [reflexivity |].
    now apply nonempty_true_iff.
  - apply returns_ret. intro H. now contradiction H.
Qed.

Lemma finish_search_returns (w : World) (a f : json) :
  returns (finish_search w a f)
    (fun raw => raw_consistent raw /\ Raw.apn raw = a /\ Raw.parcel_feature raw = f).
Proof.
  unfold finish_search.
  apply (returns_bind
           (fun s => (if py_truthy f then extract_situs_from_feature f else Ok None) = Ok s)).
  { apply returns_lift. }
  intros s Hs.
  apply (returns_bind (fun h => h <> None -> exists x, a = JStr x /\ x <> EmptyString)).
  { apply fetch_assessor_returns. }
  intros h Hh. apply returns_ret. unfold raw_consistent. simpl.
  repeat split; try assumption.
  - intro Hne. destruct (py_truthy f); [reflexivity |].
    injection Hs as <-. now contradiction Hne.
  - intro Ht. rewrite Ht in Hs.
    destruct (extract_situs_shape f s Hs) as [Hiff _].
    intro E. apply Hiff in E. congruence.
Qed.

Lemma null_result_consistent : raw_consistent (Raw.mk JNull None JNull None).
Proof.
  unfold raw_consistent. simpl. split.
  - intro H. now contradiction H.
  - split; [intro H; now contradiction H | discriminate].
Qed.

Ltac returns_consistent :=
  lazymatch goal with
  | |- returns (finish_search _ _ _) _ =>
      eapply returns_weaken; [apply finish_search_returns | intros ? (H & _ & _); exact H]
  | |- returns (ret _) _ => apply returns_ret; exact null_result_consistent
  | |- returns (bind _ _) _ =>
      apply (returns_bind (fun _ => True));
      [apply returns_true | intros ? _; cbv beta; returns_consistent]
  | |- returns (match ?x with _ => _ end) _ => destruct x; returns_consistent
  end.

Lemma search_property_returns_consistent (w : World) (q : string) :
  returns (search_property w q) raw_consistent.
Proof.
  unfold search_property. cbv zeta. destruct (is_probable_apn (strip q)).
  - unfold search_apn_path. cbv zeta. returns_consistent.
  - unfold search_address_path. returns_consistent.
Qed.

(** X9.  Every result [search_property] returns is consistent: page
    markup is present only together with an identifier that is
    non-empty text, and the situs skeleton is present exactly when the
    feature is truthy. *)
Theorem search_result_consistent :
  forall (w : World) (q : string) (raw : Raw.RawSearchResult) (t : trace),
    run (search_property w q) = (Ok raw, t) -> raw_consistent raw.
Proof.
  intros w q raw t H. exact (search_property_returns_consistent w q [] raw t H).
Qed.

Lemma search_result_consistent_witness :
  raw_consistent
    (Raw.mk (JStr "23512003")
       (Some (mkGeoSitus (Some "235120035")
                (mkAddress None (Some "San Jose") (Some "CA") None)))
       like_feature None).
Proof.
  apply (search_result_consistent world_like "23512003" _
           [EvParcelQuery "APN='23512003'"; EvParcelQuery "APN LIKE '%23512003%'";
            EvAssessorPage
              "https://www.sccassessor.org/index.php/apn-redirect?ApnValue=23512003";
            EvLog WARNING "Assessor page request failed"]).
  vm_compute. reflexivity.
Defined.

Lemma py_index_get (v : json) (k : string) (r d : json) :
  py_index v k = Ok r -> py_get v k d = Ok r.
Proof.
  destruct v; try discriminate. simpl.
  destruct (dict_get k d0); [intro H; now injection H as -> | discriminate].
Qed.

Lemma identifier_from_feature_read (feature attrs r : json) :
  py_truthy feature = true ->
  py_index feature "attributes" = Ok attrs ->
  py_get attrs "APN" JNull = Ok r ->
  identifier_from_feature feature r.
Proof.
  intros Ht Ha Hr. unfold identifier_from_feature, feature_apn. now rewrite Ht, Ha.
Qed.

Lemma identifier_from_feature_none (feature : json) :
  py_truthy feature = false -> identifier_from_feature feature JNull.
Proof. intro Ht. unfold identifier_from_feature. now rewrite Ht. Qed.

Lemma search_address_path_identifier (w : World) (query : string) :
  returns (search_address_path w query)
    (fun raw => identifier_from_feature (Raw.parcel_feature raw) (Raw.apn raw)).
Proof.
  unfold search_address_path.
  apply (returns_bind (fun _ => True)); [apply returns_true | intros geo _].
  destruct (negb (py_truthy geo)).
  { apply (returns_bind (fun _ => True)); [apply returns_true | intros _ _].
    apply returns_ret. now apply identifier_from_feature_none. }
  apply (returns_bind (fun _ => True)); [apply returns_true | intros at1 _].
  apply (returns_bind (fun _ => True)); [apply returns_true | intros a1 _].
  apply (returns_bind (fun _ => True)); [apply returns_true | intros apn_from_geo _].
  apply (returns_bind (fun fr : json * json => identifier_from_feature (fst fr) (snd fr))).
  { destruct (py_truthy apn_from_geo).
    - apply (returns_bind (fun _ => True)); [apply returns_true | intros feature _].
      destruct (py_truthy feature) eqn:Ht.
      + apply (returns_bind (fun attrs => py_index feature "attributes" = Ok attrs));
          [apply returns_lift | intros attrs Ha].
        apply (returns_bind (fun r => py_get attrs "APN" JNull = Ok r));
          [apply returns_lift | intros r Hr].
        apply returns_ret. now apply (identifier_from_feature_read feature attrs).
      + apply returns_ret. now apply identifier_from_feature_none.
    - apply returns_ret. now apply identifier_from_feature_none. }
  intros [feature resolved] Hfr. simpl in Hfr.
  apply (returns_bind (fun fr : json * json => identifier_from_feature (fst fr) (snd fr))).
  { destruct (negb (py_truthy feature)); [| now apply returns_ret].
    apply (returns_bind (fun _ => True)); [apply returns_true | intros loc _].
    apply (returns_bind (fun _ => True)); [apply returns_true | intros x _].
    apply (returns_bind (fun _ => True)); [apply returns_true | intros loc' _].
    apply (returns_bind (fun _ => True)); [apply returns_true | intros y _].
    apply (returns_bind (fun _ => True)); [apply returns_true | intros sr _].
    apply (returns_bind (fun _ => True)); [apply returns_true | intros in_wkid _].
    assert (Hpoint :
              returns
                (feature' <- arcgis_query_parcel_by_point w x y in_wkid ;;
                 if py_truthy feature' then
                   attrs <- lift (py_index feature' "attributes") ;;
                   r <- lift (py_index attrs "APN") ;;
                   ret (feature', r)
                 else ret (feature', JNull))
                (fun fr : json * json => identifier_from_feature (fst fr) (snd fr))).
    { apply (returns_bind (fun _ => True)); [apply returns_true | intros feature' _].
      destruct (py_truthy feature') eqn:Ht.
      - apply (returns_bind (fun attrs => py_index feature' "attributes" = Ok attrs));
          [apply returns_lift | intros attrs Ha].
        apply (returns_bind (fun r => py_index attrs "APN" = Ok r));
          [apply returns_lift | intros r Hr].
        apply returns_ret.
        apply (identifier_from_feature_read feature' attrs r Ht Ha).
        now apply py_index_get.
      - apply returns_ret. now apply identifier_from_feature_none. }
    destruct x; try (now apply returns_ret); destruct y;
      try (now apply returns_ret); exact Hpoint. }
  intros [feature2 resolved2] Hfr2. simpl in Hfr2.
  eapply returns_weaken; [apply finish_search_returns |].
  intros raw (_ & -> & ->). exact Hfr2.
Qed.

(** X10.  On the address path the identifier is read back from the
    feature that was found, never taken from the geocoder alone: in
    every result the identifier is the APN attribute of the returned
    feature when that feature is truthy, and null otherwise. *)
Theorem address_identifier_from_feature :
  forall (w : World) (q : string) (raw : Raw.RawSearchResult) (t : trace),
    is_probable_apn (strip q) = false ->
    run (search_property w q) = (Ok raw, t) ->
    identifier_from_feature (Raw.parcel_feature raw) (Raw.apn raw).
Proof.
  intros w q raw t Hq H. unfold run, search_property in H. cbv zeta in H.
  rewrite Hq in H. exact (search_address_path_identifier w (strip q) [] raw t H).
Qed.

Lemma address_identifier_from_feature_witness :
  exists raw t,
    run (search_property world_geo_apn "70 W Hedding St") = (Ok raw, t) /\
    Raw.apn raw = JStr "235120035" /\
    identifier_from_feature (Raw.parcel_feature raw) (Raw.apn raw).
Proof.
  assert (Hq : is_probable_apn (strip "70 W Hedding St") = false)
    by (vm_compute; reflexivity).
  destruct (run (search_property world_geo_apn "70 W Hedding St")) as [r t] eqn:E.
  assert (E' := E). vm_compute in E'. injection E' as <- <-.
  eexists. eexists. split; [reflexivity |]. split; [reflexivity |].
  exact (address_identifier_from_feature world_geo_apn "70 W Hedding St" _ _ Hq E).
Defined.

(** X11.  When the geospatial services are unreachable the search never
    raises, whatever the record page answers: it returns a result
    without feature and without situs skeleton, and for an address
    query the result is null throughout and no page is requested. *)
Theorem search_when_gis_unreachable :
  forall (w : World) (q : string),
    gis_unreachable w ->
    exists raw t,
      run (search_property w q) = (Ok raw, t) /\
      Raw.parcel_feature raw = JNull /\ Raw.situs raw = None /\
      (is_probable_apn (strip q) = false ->
       raw = Raw.mk JNull None JNull None /\ filter is_page_fetch t = []).
Proof.
  intros w q (Hp & Hs & Hg). unfold search_property. cbv zeta.
  destruct (is_probable_apn (strip q)) eqn:Hq.
  - pose proof (probable_apn_nonempty _ Hq) as Hn.
    unfold search_apn_path, query_exact_then_like, finish_search, fetch_assessor,
      arcgis_query_parcel_by_apn, arcgis_query_parcel_by_apn_like,
      run, bind, emit, lift, ret.
    cbv zeta. rewrite !Hp. simpl. rewrite Hn.
    destruct (assessor_site w _); eexists; eexists;
      (split; [reflexivity |]); repeat split; discriminate.
  - unfold search_address_path, arcgis_geocode_address, run, bind, emit, lift, ret.
    rewrite Hg. simpl. eexists. eexists. split; [reflexivity |]. repeat split.
Qed.

Lemma search_when_gis_unreachable_witness :
  exists raw t,
    run (search_property world_offline "23512003") = (Ok raw, t) /\
    Raw.parcel_feature raw = JNull /\ Raw.situs raw = None.
Proof.
  assert (H : gis_unreachable world_offline) by (repeat split).
  destruct (search_when_gis_unreachable world_offline "23512003" H)
    as (raw & t & E & Hf & Hs & _).
  now exists raw, t.
Defined.

(** ** What [main] writes *)

Lemma search_property_no_save (w : World) (q : string) :
  filter is_save (snd (search_property w q [])) = [].
Proof.
  assert (H : emits_le is_save 0 (search_property w q)).
  { unfold search_property. cbv zeta. destruct (is_probable_apn (strip q)).
    - apply search_apn_path_emits.
    - apply search_address_path_emits. }
  apply emits_run in H. unfold run in H.
  now destruct (filter is_save _); [| simpl in H; lia].
Qed.

Lemma filter_save_snoc (t : trace) (e : event) :
  is_save e = false -> filter is_save (t ++ [e]) = filter is_save t.
Proof. intro H. rewrite filter_app. simpl. rewrite H. apply app_nil_r. Qed.

(** X12.  In demo mode [main] makes no remote request in any world and
    for any arguments: its whole trace is the one write of the record
    extracted from the sample document, whose identifier is the
    sample's own "235-12-003" (an [--apn] argument is not used), and
    the exit code is 0. *)
Theorem main_demo_no_network :
  forall (w : World) (args : Args.t),
    Args.demo args = true ->
    exists rec,
      run (main w args) = (Ok 0%Z, [EvSave (Args.output args) rec None]) /\
      parse_property_page DEMO_HTML = Ok rec /\
      apn rec = JStr "235-12-003".
Proof.
  intros w args Hd. unfold main, run, bind, lift, emit, ret. rewrite Hd.
  rewrite demo_extraction. simpl. eexists. split; [reflexivity |].
  split; reflexivity.
Qed.

Lemma main_demo_no_network_witness :
  exists rec,
    run (main world_nothing (Args.mk (Some "999-99-9999") None "out.json" true))
    = (Ok 0%Z, [EvSave "out.json" rec None]) /\
    apn rec = JStr "235-12-003".
Proof.
  destruct (main_demo_no_network world_nothing
              (Args.mk (Some "999-99-9999") None "out.json" true) eq_refl)
    as (rec & E & _ & Ha).
  exists rec. split; [exact E | exact Ha].
Defined.

(** X13.  A run of [main] that ends normally has exit code 0 or 2 and
    wrote the output file exactly once, to the path given by the
    arguments, as its last action; a run that ends in an exception
    wrote nothing. *)
Theorem main_writes_once :
  forall (w : World) (args : Args.t),
    match run (main w args) with
    | (Ok c, t) =>
        (c = 0%Z \/ c = 2%Z) /\
        exists t0 rec k,
          t = t0 ++ [EvSave (Args.output args) rec k] /\ filter is_save t0 = []
    | (Raise _, t) => filter is_save t = []
    end.
Proof.
  intros w args. unfold main, run, bind.
  destruct (Args.demo args).
  { unfold lift, emit, ret. rewrite demo_extraction. simpl.
    split; [now left |]. exists []. eexists. eexists. split; reflexivity. }
  destruct (query_of args) as [q|]; [| reflexivity].
  pose proof (search_property_no_save w q) as Hns.
  destruct (search_property w q []) as [[raw|e] t]; simpl in Hns; [| exact Hns].
  destruct (negb (py_truthy (Raw.apn raw)) && negb (truthy (Raw.assessor_html raw))).
  { unfold emit, ret. split; [now right |].
    eexists. eexists. eexists. split; [reflexivity |].
    now rewrite filter_save_snoc. }
  destruct (Raw.assessor_html raw) as [html|].
  - destruct (nonempty html).
    + unfold lift, emit, ret. destruct (parse_property_page html); [| exact Hns].
      split; [now left |]. eexists. eexists. eexists. split; [reflexivity | exact Hns].
    + unfold emit, ret. split; [now left |].
      eexists. eexists. eexists. split; [reflexivity | exact Hns].
  - unfold emit, ret. split; [now left |].
    eexists. eexists. eexists. split; [reflexivity | exact Hns].
Qed.

Lemma search_result_consistent_aux (w : World) (q : string)
  (raw : Raw.RawSearchResult) (t : trace) :
  search_property w q [] = (Ok raw, t) -> raw_consistent raw.
Proof. exact (search_property_returns_consistent w q [] raw t). Qed.

Lemma shape_apn (r : ExtractedRecord) : apn (shape r) = apn r.
Proof. reflexivity. Qed.

(** X14.  Outside demo mode the exit code tells whether an identifier
    was resolved: a run that ends with code 0 wrote a record whose
    identifier is truthy and is the one the search resolved (page
    content never replaces it), and a run that ends with code 2 wrote
    the seed record, whose identifier is falsy and whose page-derived
    fields are all null. *)
Theorem main_exit_code_identifier :
  forall (w : World) (args : Args.t) (c : Z) (t : trace),
    Args.demo args = false ->
    run (main w args) = (Ok c, t) ->
    exists q raw t1 rec k,
      query_of args = Some q /\
      run (search_property w q) = (Ok raw, t1) /\
      EvSave (Args.output args) rec k = last t (EvLog ERROR EmptyString) /\
      apn rec = Raw.apn raw /\
      (c = 0%Z -> py_truthy (apn rec) = true) /\
      (c = 2%Z -> py_truthy (apn rec) = false /\ rec = seed_record raw).
Proof.
  intros w args c t Hd. unfold main, run, bind. rewrite Hd.
  destruct (query_of args) as [q|]; [| discriminate].
  destruct (search_property w q []) as [[raw|e] t1] eqn:Es; [| discriminate].
  destruct (search_result_consistent_aux w q raw t1 Es) as [Hhtml _].
  destruct (py_truthy (Raw.apn raw)) eqn:Ha; simpl negb; cbv iota.
  - assert (Hor : forall p, py_or (Raw.apn raw) p = Raw.apn raw).
    { intro p. unfold py_or. now rewrite Ha. }
    simpl andb. cbv iota.
    destruct (Raw.assessor_html raw) as [html|].
    + destruct (nonempty html).
      * unfold lift, emit, ret. destruct (parse_property_page html) as [parsed|]; [| discriminate].
        intro H. injection H as <- <-.
        exists q, raw, t1. eexists. eexists. split; [reflexivity |].
        split; [exact Es |]. rewrite last_last. split; [reflexivity |].
        rewrite shape_apn. simpl. rewrite Hor.
        split; [reflexivity |]. split; [intros _; exact Ha | discriminate].
      * unfold emit, ret. intro H. injection H as <- <-.
        exists q, raw, t1. eexists. eexists. split; [reflexivity |].
        split; [exact Es |]. rewrite last_last. split; [reflexivity |].
        split; [reflexivity |]. split; [intros _; exact Ha | discriminate].
    + unfold emit, ret. intro H. injection H as <- <-.
      exists q, raw, t1. eexists. eexists. split; [reflexivity |].
      split; [exact Es |]. rewrite last_last. split; [reflexivity |].
      split; [reflexivity |]. split; [intros _; exact Ha | discriminate].
  - assert (Hno : Raw.assessor_html raw = None).
    { destruct (Raw.assessor_html raw) as [html|]; [| reflexivity].
      destruct Hhtml as (s & Hs & Hne); [discriminate |].
      rewrite Hs in Ha. simpl in Ha. apply nonempty_true_iff in Hne. congruence. }
    rewrite Hno. simpl. unfold emit, ret. intro H. injection H as <- <-.
    exists q, raw, t1. eexists. eexists. split; [reflexivity |].
    split; [exact Es |]. rewrite last_last. split; [reflexivity |].
    split; [reflexivity |]. split; [discriminate |].
    intros _. split; [exact Ha | reflexivity].
Qed.

Lemma main_exit_code_identifier_witness :
  exists q raw t1 rec k,
    query_of (args_apn "23512003") = Some q /\
    run (search_property world_nothing q) = (Ok raw, t1) /\
    apn rec = Raw.apn raw /\
    EvSave "output.json" rec k
    = last (snd (run (main world_nothing (args_apn "23512003")))) (EvLog ERROR EmptyString) /\
    py_truthy (apn rec) = true.
Proof.
  destruct (run (main world_nothing (args_apn "23512003"))) as [r t] eqn:E.
  assert (E' := E). vm_compute in E'. injection E' as <- <-.
  destruct (main_exit_code_identifier world_nothing (args_apn "23512003") 0%Z _ eq_refl E)
    as (q & raw & t1 & rec & k & Hq & Hs & Hl & Ha & H0 & _).
  exists q, raw, t1, rec, k.
  split; [exact Hq |]. split; [exact Hs |]. split; [exact Ha |].
  split; [exact Hl | exact (H0 eq_refl)].
Defined.

(** ** The money pattern *)

Lemma stake_length_diff (a b : string) :
  stake (String.length (a ++ b) - String.length b) (a ++ b) = a.
Proof.
  rewrite slength_append, Nat.add_sub.
  induction a as [|c a IH]; simpl; [now destruct b | now rewrite IH].
Qed.

Lemma take_drop_while (p : ascii -> bool) (s : string) :
  (take_while p s ++ drop_while p s)%string = s.
Proof.
  induction s as [|c s IH]; simpl; [reflexivity |].
  destruct (p c); simpl; [now rewrite IH | reflexivity].
Qed.

Lemma drop_while_length (p : ascii -> bool) (s : string) :
  String.length (drop_while p s) <= String.length s.
Proof.
  induction s as [|c s IH]; simpl; [lia |]. destruct (p c); simpl; lia.
Qed.

(** A greedy star over a character class, followed by something that
    always matches and does not look behind, stops after the longest
    run of the class. *)
Lemma star_class_greedy {A : Type} (p : ascii -> bool) (prev : option ascii) (s : string)
  (caps : captures) (k : option ascii -> string -> captures -> option A) (g : string -> captures -> A) :
  (forall q s' c, k q s' c = Some (g s' c)) ->
  rmatch false (Star (Cls p)) prev s caps k = Some (g (drop_while p s) caps).
Proof.
  intro Hk. simpl.
  assert (Hf : String.length s < S (String.length s)) by lia.
  revert Hf. generalize (S (String.length s)) as fuel. intro fuel.
  revert prev s. induction fuel as [|fuel IH]; intros prev s Hf; [lia |].
  destruct s as [|d s'].
  - simpl. apply Hk.
  - simpl. destruct (p d) eqn:Ep.
    + assert (Hlt : (String.length s' <? S (String.length s')) = true)
        by (apply Nat.ltb_lt; lia).
      rewrite Hlt. rewrite IH by (simpl in Hf; lia). reflexivity.
    + apply Hk.
Qed.

Lemma rmatch_seq {A : Type} (ci : bool) (r1 r2 : regex) (prev : option ascii) (s : string)
  (caps : captures) (k : option ascii -> string -> captures -> option A) :
  rmatch ci (Seq r1 r2) prev s caps k
  = rmatch ci r1 prev s caps (fun prev' s' caps' => rmatch ci r2 prev' s' caps' k).
Proof. reflexivity. Qed.

Lemma rmatch_alt {A : Type} (ci : bool) (r1 r2 : regex) (prev : option ascii) (s : string)
  (caps : captures) (k : option ascii -> string -> captures -> option A) :
  rmatch ci (Alt r1 r2) prev s caps k
  = match rmatch ci r1 prev s caps k with
    | Some x => Some x
    | None => rmatch ci r2 prev s caps k
    end.
Proof. reflexivity. Qed.

Lemma rmatch_grp {A : Type} (ci : bool) (n : nat) (r : regex) (prev : option ascii)
  (s : string) (caps : captures) (k : option ascii -> string -> captures -> option A) :
  rmatch ci (Grp n r) prev s caps k
  = rmatch ci r prev s caps
      (fun prev' s' caps' =>
         k prev' s' ((n, stake (String.length s - String.length s') s) :: caps')).
Proof. reflexivity. Qed.

Lemma rmatch_cls {A : Type} (p : ascii -> bool) (prev : option ascii) (s : string)
  (caps : captures) (k : option ascii -> string -> captures -> option A) :
  rmatch false (Cls p) prev s caps k
  = match s with
    | String d s' => if p d then k (Some d) s' caps else None
    | EmptyString => None
    end.
Proof. reflexivity. Qed.

Lemma rmatch_chr {A : Type} (c : ascii) (prev : option ascii) (s : string)
  (caps : captures) (k : option ascii -> string -> captures -> option A) :
  rmatch false (Chr c) prev s caps k
  = match s with
    | String d s' => if Ascii.eqb c d then k (Some d) s' caps else None
    | EmptyString => None
    end.
Proof. reflexivity. Qed.

Lemma rmatch_eps {A : Type} (ci : bool) (prev : option ascii) (s : string)
  (caps : captures) (k : option ascii -> string -> captures -> option A) :
  rmatch ci Eps prev s caps k = k prev s caps.
Proof. reflexivity. Qed.

Lemma money_group_match (prev : option ascii) (s : string) :
  rmatch false (Grp 1 (plus (Cls money_char))) prev s [] (fun _ _ caps => Some caps)
  = group_at s.
Proof.
  unfold group_at. destruct s as [|c s']; [reflexivity |].
  unfold plus. rewrite rmatch_grp, rmatch_seq, rmatch_cls.
  destruct (money_char c) eqn:Ec; [| reflexivity].
  rewrite (star_class_greedy money_char (Some c) s' []
             _ (fun s1 c1 => (1, stake (String.length (String c s') - String.length s1)
                                   (String c s')) :: c1)).
  2: { intros q s1 c1. reflexivity. }
  f_equal. f_equal. f_equal.
  simpl take_while. rewrite Ec.
  assert (H : forall run rest,
             (run ++ rest)%string = s' ->
             stake (String.length (String c s') - String.length rest) (String c s')
             = String c run).
  { intros run rest <-. apply (stake_length_diff (String c run) rest). }
  apply H. apply take_drop_while.
Qed.

Lemma space_not_money (c : ascii) : is_space c = true -> money_char c = false.
Proof.
  intro Hs. unfold money_char.
  destruct (is_digit c) eqn:Ed.
  - rewrite (digit_not_space c Ed) in Hs. discriminate.
  - simpl. destruct (Ascii.eqb_spec c ","); [subst; discriminate Hs | reflexivity].
Qed.

(** A greedy star over white space gives characters back, but what
    follows cannot start at white space: the match continues after all
    of the white space or not at all. *)
Lemma star_space_then {A : Type} (prev : option ascii) (s : string) (caps : captures)
  (k : option ascii -> string -> captures -> option A) (R : string -> option A) :
  (forall q s', k q s' caps = R s') ->
  (forall d s', is_space d = true -> R (String d s') = None) ->
  rmatch false (Star (Cls is_space)) prev s caps k = R (lstrip s).
Proof.
  intros Hk Hsp. simpl.
  assert (Hf : String.length s < S (String.length s)) by lia.
  revert Hf. generalize (S (String.length s)) as fuel. intro fuel.
  revert prev s. induction fuel as [|fuel IH]; intros prev s Hf; [lia |].
  destruct s as [|d s'].
  - simpl. apply Hk.
  - simpl. destruct (is_space d) eqn:Es.
    + assert (Hlt : (String.length s' <? S (String.length s')) = true)
        by (apply Nat.ltb_lt; lia).
      rewrite Hlt. rewrite IH by (simpl in Hf; lia).
      destruct (R (lstrip s')); [reflexivity |].
      rewrite Hk. now apply Hsp.
    + apply Hk.
Qed.

Lemma group_at_space (d : ascii) (s' : string) :
  is_space d = true -> group_at (String d s') = None.
Proof. intro Hs. unfold group_at. now rewrite (space_not_money d Hs). Qed.

Lemma space_then_group (prev : option ascii) (s : string) :
  rmatch false ws_star prev s []
    (fun p' s' c' =>
       rmatch false (Grp 1 (plus (Cls money_char))) p' s' c' (fun _ _ caps => Some caps))
  = group_at (lstrip s).
Proof.
  unfold ws_star, ws. apply star_space_then.
  - intros q s'. apply money_group_match.
  - apply group_at_space.
Qed.

Lemma lstrip_money_run (s : string) : money_run (lstrip s) = money_run s.
Proof.
  induction s as [|c s IH]; simpl; [reflexivity |].
  destruct (is_space c) eqn:Es; [| reflexivity].
  now rewrite (space_not_money c Es).
Qed.

Lemma group_at_some (s : string) (m : captures) :
  group_at s = Some m -> money_run s = Some (group 1 m).
Proof.
  unfold group_at. destruct s as [|c s']; [discriminate |].
  simpl money_run. destruct (money_char c) eqn:Ec; [| discriminate].
  intro H. injection H as <-. simpl. now rewrite Ec.
Qed.

Lemma money_match_at (prev : option ascii) (s : string) :
  rmatch false money_re prev s [] (fun _ _ caps => Some caps)
  = match s with
    | String c s' =>
        if Ascii.eqb "$" c then group_at (lstrip s')
        else group_at (lstrip s)
    | EmptyString => None
    end.
Proof.
  unfold money_re, cat, opt.
  rewrite rmatch_seq, rmatch_alt, rmatch_chr, rmatch_eps, !rmatch_seq.
  change (Grp 1 (plus (Cls (fun c => is_digit c || Ascii.eqb c ","))))
    with (Grp 1 (plus (Cls money_char))).
  rewrite (space_then_group prev s).
  destruct s as [|c s']; [reflexivity |].
  destruct (Ascii.eqb_spec "$" c) as [<- | Hne].
  - rewrite rmatch_seq. rewrite (space_then_group (Some "$"%char) s').
    destruct (group_at (lstrip s')) eqn:Eg; [reflexivity |].
    unfold group_at. simpl. reflexivity.
  - reflexivity.
Qed.

Lemma search_from_eq (ci : bool) (r : regex) (prev : option ascii) (s : string) :
  search_from ci r prev s
  = match rmatch ci r prev s [] (fun _ _ caps => Some caps) with
    | Some m => Some m
    | None =>
        match s with
        | EmptyString => None
        | String c s' => search_from ci r (Some c) s'
        end
    end.
Proof. destruct s; reflexivity. Qed.

Lemma money_search (prev : option ascii) (s : string) :
  match search_from false money_re prev s with
  | Some m => money_run s = Some (group 1 m)
  | None => money_run s = None
  end.
Proof.
  revert prev. induction s as [|c s' IH]; intro prev.
  - rewrite search_from_eq, money_match_at. reflexivity.
  - rewrite search_from_eq, money_match_at.
    destruct (Ascii.eqb_spec "$" c) as [<- | Hne].
    + destruct (group_at (lstrip s')) as [m|] eqn:Eg.
      * apply group_at_some in Eg. rewrite lstrip_money_run in Eg. exact Eg.
      * exact (IH (Some "$"%char)).
    + destruct (group_at (lstrip (String c s'))) as [m|] eqn:Eg.
      * apply group_at_some in Eg. now rewrite lstrip_money_run in Eg.
      * specialize (IH (Some c)).
        assert (Hc : money_char c = false).
        { unfold group_at in Eg. simpl lstrip in Eg.
          destruct (is_space c) eqn:Es; [now apply space_not_money |].
          destruct (money_char c); [discriminate | reflexivity]. }
        simpl money_run. rewrite Hc. exact IH.
Qed.

Lemma replace_comma (s : string) :
  replace "," "" s = sfilter (fun c => negb (Ascii.eqb "," c)) s.
Proof.
  unfold replace. induction s as [|c s IH]; [reflexivity |].
  cbn [replace_go sfilter starts_with]. destruct (Ascii.eqb "," c); simpl.
  - exact IH.
  - now rewrite IH.
Qed.

Lemma money_char_digit (c : ascii) :
  money_char c = true -> negb (Ascii.eqb "," c) = is_digit c.
Proof.
  unfold money_char. destruct (Ascii.eqb_spec "," c) as [<- | Hne].
  - intros _. reflexivity.
  - rewrite Ascii.eqb_sym. rewrite (proj2 (Ascii.eqb_neq "," c) Hne).
    rewrite orb_false_r. intros ->. reflexivity.
Qed.

Lemma take_while_forall (p : ascii -> bool) (s : string) :
  sforall p (take_while p s) = true.
Proof.
  induction s as [|c s IH]; simpl; [reflexivity |].
  destruct (p c) eqn:E; simpl; [now rewrite E | reflexivity].
Qed.

Lemma sfilter_on_money (s : string) :
  sforall money_char s = true ->
  sfilter (fun c => negb (Ascii.eqb "," c)) s = sfilter is_digit s.
Proof.
  induction s as [|c s IH]; [reflexivity |].
  cbn [sforall sfilter]. intro H. apply andb_true_iff in H. destruct H as [Hc Hs].
  rewrite (money_char_digit c Hc), (IH Hs). reflexivity.
Qed.

Lemma money_run_forall (s run : string) :
  money_run s = Some run -> sforall money_char run = true.
Proof.
  induction s as [|c s IH]; simpl; [discriminate |].
  destruct (money_char c) eqn:Ec; [| exact IH].
  intro H. injection H as <-. simpl. rewrite Ec. simpl. apply take_while_forall.
Qed.

Lemma digit_val_range (c : ascii) : is_digit c = true -> (0 <= digit_val c <= 9)%Z.
Proof.
  unfold is_digit, digit_val. cbv zeta. intro H.
  apply andb_true_iff in H. destruct H as [H1 H2].
  apply Nat.leb_le in H1, H2. lia.
Qed.

Lemma int_digits_nonneg (s : string) (acc : Z) :
  (0 <= acc)%Z -> (0 <= int_digits acc s)%Z.
Proof.
  revert acc. induction s as [|c s IH]; intros acc H; simpl; [exact H |].
  apply IH. unfold digit_val. lia.
Qed.

(** The money parser in terms of the first run of digits and commas. *)
Lemma normalize_money_by_run :
  forall v : string,
    normalize_money (Some v) =
    match money_run v with
    | None => Ok None
    | Some run =>
        if int_accepts (sfilter is_digit run)
        then Ok (Some (int_digits 0 (sfilter is_digit run)))
        else Raise ValueError
    end /\
    (forall n, normalize_money (Some v) = Ok (Some n) -> (0 <= n)%Z).
Proof.
  intro v.
  assert (E : normalize_money (Some v) =
              match money_run v with
              | None => Ok None
              | Some run =>
                  if int_accepts (sfilter is_digit run)
                  then Ok (Some (int_digits 0 (sfilter is_digit run)))
                  else Raise ValueError
              end).
  { unfold normalize_money. destruct v as [|c v']; [reflexivity |].
    simpl negb. cbv iota. unfold re_search.
    pose proof (money_search None (String c v')) as Hs.
    destruct (search_from false money_re None (String c v')) as [m|].
    - rewrite Hs. rewrite replace_comma.
      rewrite (sfilter_on_money _ (money_run_forall _ _ Hs)).
      unfold py_int, int_accepts. rewrite sforall_sfilter_self, andb_true_r.
      now destruct (nonempty (sfilter is_digit (group 1 m)) && _).
    - now rewrite Hs. }
  split; [exact E |].
  intros n Hn. rewrite E in Hn. destruct (money_run v) as [run|]; [| discriminate].
  destruct (int_accepts (sfilter is_digit run)); [| discriminate].
  injection Hn as <-. now apply int_digits_nonneg.
Qed.

(** X15.  [normalize_money] is decided by the first maximal run of
    digits and commas of the text: without such a run the result is
    null; when the run holds between 1 and 4300 digits the result is
    the number its digits spell (a sign or decimals around it play no
    part, so the value is never negative); when the run holds commas
    only, or more than 4300 digits, [int] refuses it and [ValueError]
    is raised.  Stated for ASCII text, where [\d] is [is_digit]. *)
Theorem normalize_money_run :
  forall v : string,
    ascii_text v = true ->
    normalize_money (Some v) =
    match money_run v with
    | None => Ok None
    | Some run =>
        if int_accepts (sfilter is_digit run)
        then Ok (Some (int_digits 0 (sfilter is_digit run)))
        else Raise ValueError
    end /\
    (forall n, normalize_money (Some v) = Ok (Some n) -> (0 <= n)%Z).
Proof.
  intros v _. apply normalize_money_by_run.
Qed.

(** ** The year pattern *)

Lemma year_match_at (prev : option ascii) (s : string) (m : captures) :
  rmatch false year_re prev s [] (fun _ _ caps => Some caps) = Some m ->
  exists c1 c2 c3 c4,
    is_digit c1 = true /\ is_digit c2 = true /\ is_digit c3 = true /\ is_digit c4 = true /\
    group 1 m = String c1 (String c2 (String c3 (String c4 EmptyString))).
Proof.
  unfold year_re, rep, dg.
  rewrite rmatch_grp, rmatch_seq, rmatch_cls.
  destruct s as [|c1 s1]; [discriminate |].
  destruct (is_digit c1) eqn:E1; [| discriminate].
  rewrite rmatch_seq, rmatch_cls. destruct s1 as [|c2 s2]; [discriminate |].
  destruct (is_digit c2) eqn:E2; [| discriminate].
  rewrite rmatch_seq, rmatch_cls. destruct s2 as [|c3 s3]; [discriminate |].
  destruct (is_digit c3) eqn:E3; [| discriminate].
  rewrite rmatch_cls. destruct s3 as [|c4 s4]; [discriminate |].
  destruct (is_digit c4) eqn:E4; [| discriminate].
  intro H. injection H as <-. exists c1, c2, c3, c4.
  repeat (split; [assumption |]).
  unfold group. simpl find. cbv beta iota. simpl snd.
  exact (stake_length_diff
           (String c1 (String c2 (String c3 (String c4 EmptyString)))) s4).
Qed.

Lemma year_search (prev : option ascii) (s : string) (m : captures) :
  search_from false year_re prev s = Some m ->
  exists c1 c2 c3 c4,
    is_digit c1 = true /\ is_digit c2 = true /\ is_digit c3 = true /\ is_digit c4 = true /\
    group 1 m = String c1 (String c2 (String c3 (String c4 EmptyString))).
Proof.
  revert prev. induction s as [|c s' IH]; intro prev; rewrite search_from_eq.
  - destruct (rmatch false year_re prev EmptyString [] _) eqn:E; [| discriminate].
    intro H. injection H as <-. eapply year_match_at. exact E.
  - destruct (rmatch false year_re prev (String c s') [] _) eqn:E.
    + intro H. injection H as <-. eapply year_match_at. exact E.
    + apply IH.
Qed.

(** The year parser never raises. *)
Lemma safe_int_range :
  forall s : option string,
    exists r, safe_int s = Ok r /\ (forall n, r = Some n -> (0 <= n <= 9999)%Z).
Proof.
  intros [v|]; [| exists None; split; [reflexivity | discriminate]].
  unfold safe_int. destruct (negb (nonempty v));
    [exists None; split; [reflexivity | discriminate] |].
  unfold re_search. destruct (search_from false year_re None v) as [m|] eqn:E;
    [| exists None; split; [reflexivity | discriminate]].
  destruct (year_search None v m E) as (c1 & c2 & c3 & c4 & H1 & H2 & H3 & H4 & ->).
  unfold py_int. simpl. rewrite H1, H2, H3, H4. simpl.
  eexists. split; [reflexivity |].
  intros n Hn. injection Hn as <-.
  pose proof (digit_val_range c1 H1). pose proof (digit_val_range c2 H2).
  pose proof (digit_val_range c3 H3). pose proof (digit_val_range c4 H4). lia.
Qed.

Lemma year_at_nil (i : nat) : year_at i EmptyString = false.
Proof. now destruct i. Qed.

Lemma year_at_succ (i : nat) (c : ascii) (s : string) :
  year_at (S i) (String c s) = year_at i s.
Proof. reflexivity. Qed.

Lemma substring_0_0 (s : string) : substring 0 0 s = EmptyString.
Proof. now destruct s. Qed.

Lemma year_match_here (prev : option ascii) (s : string) :
  if year_at 0 s
  then exists m, rmatch false year_re prev s [] (fun _ _ caps => Some caps) = Some m /\
                 group 1 m = substring 0 4 s
  else rmatch false year_re prev s [] (fun _ _ caps => Some caps) = None.
Proof.
  unfold year_re, rep, dg, year_at. cbv zeta.
  rewrite rmatch_grp, rmatch_seq, rmatch_cls.
  destruct s as [|c1 s1]; [reflexivity |].
  rewrite rmatch_seq, rmatch_cls. destruct s1 as [|c2 s2];
    [simpl; now destruct (is_digit c1) |].
  rewrite rmatch_seq, rmatch_cls. destruct s2 as [|c3 s3];
    [simpl; now destruct (is_digit c1), (is_digit c2) |].
  rewrite rmatch_cls. destruct s3 as [|c4 s4];
    [simpl; now destruct (is_digit c1), (is_digit c2), (is_digit c3) |].
  simpl substring. rewrite substring_0_0.
  simpl String.length. simpl sforall. simpl Nat.eqb.
  destruct (is_digit c1); [| cbn [andb]; reflexivity].
  destruct (is_digit c2); [| cbn [andb]; reflexivity].
  destruct (is_digit c3); [| cbn [andb]; reflexivity].
  destruct (is_digit c4); [| cbn [andb]; reflexivity].
  cbn [andb].
  eexists. split; [reflexivity |].
  unfold group. simpl find. cbv beta iota. simpl snd.
  exact (stake_length_diff
           (String c1 (String c2 (String c3 (String c4 EmptyString)))) s4).
Qed.

Lemma year_search_first (prev : option ascii) (s : string) :
  match search_from false year_re prev s with
  | Some m =>
      exists i, year_at i s = true /\ (forall j, j < i -> year_at j s = false) /\
                group 1 m = substring i 4 s
  | None => forall i, year_at i s = false
  end.
Proof.
  revert prev. induction s as [|c s IH]; intro prev; rewrite search_from_eq.
  - pose proof (year_match_here prev EmptyString) as Hm. simpl year_at in Hm.
    rewrite Hm. exact year_at_nil.
  - pose proof (year_match_here prev (String c s)) as Hm.
    destruct (year_at 0 (String c s)) eqn:E0.
    + destruct Hm as (m & -> & Hg). exists 0.
      split; [exact E0 |]. split; [intros j Hj; lia | exact Hg].
    + rewrite Hm. specialize (IH (Some c)).
      destruct (search_from false year_re (Some c) s) as [m|].
      * destruct IH as (i & Hi & Hlt & Hg). exists (S i).
        split; [exact Hi |]. split; [| exact Hg].
        intros [|j] Hj; [exact E0 |]. rewrite year_at_succ. apply Hlt. lia.
      * intros [|i]; [exact E0 |]. rewrite year_at_succ. apply IH.
Qed.

Lemma year_value_range (i : nat) (s : string) :
  year_at i s = true -> (0 <= int_digits 0 (substring i 4 s) <= 9999)%Z.
Proof.
  unfold year_at. cbv zeta. intro H. apply andb_true_iff in H. destruct H as [Hl Hd].
  apply Nat.eqb_eq in Hl.
  destruct (substring i 4 s) as [|c1 [|c2 [|c3 [|c4 [|c5 r]]]]]; try discriminate.
  simpl in Hd.
  repeat match goal with
         | H : _ && _ = true |- _ => apply andb_true_iff in H; destruct H
         end.
  repeat match goal with
         | H : is_digit ?c = true |- _ => apply digit_val_range in H
         end.
  cbn [int_digits]. lia.
Qed.

(** The year parser on any text. *)
Lemma safe_int_first_year :
  forall s : option string,
  exists r, safe_int s = Ok r /\
    (forall n, r = Some n -> (0 <= n <= 9999)%Z) /\
    (r = None <-> forall text, s = Some text -> forall i, year_at i text = false) /\
    (forall n, r = Some n ->
       exists text i,
         s = Some text /\ year_at i text = true /\
         (forall j, j < i -> year_at j text = false) /\
         n = int_digits 0 (substring i 4 text)).
Proof.
  intro s. destruct s as [v|].
  2: { exists None. split; [reflexivity |]. split; [discriminate |]. split.
       - split; [discriminate | reflexivity].
       - discriminate. }
  unfold safe_int. destruct (nonempty v) eqn:En; cbn [negb].
  2: { destruct v; [| discriminate].
       exists None. split; [reflexivity |]. split; [discriminate |]. split.
       - split; [| reflexivity]. intros _ text E. injection E as <-. exact year_at_nil.
       - discriminate. }
  unfold re_search. pose proof (year_search_first None v) as Hs.
  destruct (search_from false year_re None v) as [m|].
  - destruct Hs as (i & Hi & Hlt & Hg). rewrite Hg.
    assert (Hint : py_int (substring i 4 v) = Ok (int_digits 0 (substring i 4 v))).
    { unfold py_int. pose proof Hi as Hi'. unfold year_at in Hi'. cbv zeta in Hi'.
      apply andb_true_iff in Hi'. destruct Hi' as [Hl Hd].
      apply Nat.eqb_eq in Hl. rewrite Hd, Hl.
      destruct (substring i 4 v); [discriminate | reflexivity]. }
    rewrite Hint. cbn [rbind]. eexists. split; [reflexivity |]. split; [| split].
    + intros n E. injection E as <-. exact (year_value_range i v Hi).
    + split; [discriminate |]. intro H. rewrite (H _ eq_refl i) in Hi. discriminate.
    + intros n E. injection E as <-. exists v, i.
      split; [reflexivity |]. split; [exact Hi |]. split; [exact Hlt | reflexivity].
  - exists None. split; [reflexivity |]. split; [discriminate |]. split.
    + split; [| reflexivity]. intros _ text E. injection E as <-. exact Hs.
    + discriminate.
Qed.

(** X16.  [safe_int], the year parser, never raises.  Without text it
    yields null; on a text (of ASCII characters, where [\d] is
    [is_digit]) it yields null exactly when the text holds no four
    consecutive digits, and otherwise the number, between 0 and 9999,
    that the first four consecutive digits of the text spell. *)
Theorem safe_int_total :
  safe_int None = Ok None /\
  forall text : string,
    ascii_text text = true ->
    exists r,
      safe_int (Some text) = Ok r /\
      (forall n, r = Some n -> (0 <= n <= 9999)%Z) /\
      (r = None <-> forall i, year_at i text = false) /\
      (forall n, r = Some n ->
         exists i,
           year_at i text = true /\
           (forall j, j < i -> year_at j text = false) /\
           n = int_digits 0 (substring i 4 text)).
Proof.
  split; [reflexivity |]. intros text _.
  destruct (safe_int_first_year (Some text)) as (r & E & Hrange & Hnone & Hsome).
  exists r. split; [exact E |]. split; [exact Hrange |]. split.
  - rewrite Hnone. split.
    + intros H i. exact (H text eq_refl i).
    + intros H t Et. injection Et as <-. exact H.
  - intros n Hn. destruct (Hsome n Hn) as (t & i & Et & Hi & Hlt & Hv).
    injection Et as <-. exists i. repeat split; assumption.
Qed.

Lemma safe_int_total_witness :
  safe_int (Some "built 1978, remodel 2005") = Ok (Some 1978%Z).
Proof.
  destruct (proj2 safe_int_total "built 1978, remodel 2005" eq_refl)
    as (r & E & _ & _ & Hsome).
  rewrite E. f_equal. destruct r as [n|]; [| vm_compute in E; discriminate E].
  destruct (Hsome n eq_refl) as (i & Hi & Hlt & ->).
  destruct (Nat.lt_trichotomy i 6) as [Hl | [-> | Hg]].
  - exfalso. clear - Hi Hl.
    do 6 (destruct i as [|i]; [discriminate Hi |]). lia.
  - reflexivity.
  - exfalso. specialize (Hlt 6 Hg). discriminate Hlt.
Defined.

(** ** The harvested label/value mapping *)

Lemma kv_has_In (k : string) (kv : kvmap) :
  kv_has k kv = false -> ~ In k (map fst kv).
Proof.
  unfold kv_has. induction kv as [|[k' v'] kv IH]; simpl; [tauto |].
  intro H. apply orb_false_iff in H. destruct H as [Hk Hr].
  intros [E | Hin]; [| now apply IH].
  simpl in Hk. subst k'. rewrite String.eqb_refl in Hk. discriminate.
Qed.

Lemma NoDup_snoc_fst (k v : string) (kv : kvmap) :
  NoDup (map fst kv) -> ~ In k (map fst kv) -> NoDup (map fst (kv ++ [(k, v)])).
Proof.
  induction kv as [|[k' v'] kv IH]; simpl; intros Hnd Hk.
  - constructor; [tauto | constructor].
  - inversion Hnd as [|? ? Hn Hnd']; subst. constructor.
    + rewrite map_app, in_app_iff. simpl. intuition.
    + apply IH; [exact Hnd' | tauto].
Qed.

Lemma setdefault_ok (k v : string) (kv : kvmap) :
  nonempty k = true -> nonempty v = true ->
  kv_entries_ok kv -> kv_entries_ok (setdefault k v kv).
Proof.
  intros Hk Hv [Hnd Hne]. unfold setdefault.
  destruct (kv_has k kv) eqn:E; [now split |]. split.
  - apply NoDup_snoc_fst; [exact Hnd | now apply kv_has_In].
  - intros k0 v0 Hin. apply in_app_iff in Hin. destruct Hin as [Hin | [Heq | []]].
    + now apply Hne.
    + injection Heq as <- <-. split; now apply nonempty_true_iff.
Qed.

Lemma harvest_row_ok (kv : kvmap) (tr : node) :
  kv_entries_ok kv -> kv_entries_ok (harvest_row kv tr).
Proof.
  intro H. unfold harvest_row.
  destruct (find_all_cells tr) as [|c0 [|c1 [|c2 rest]]]; try exact H.
  - destruct (nonempty (get_text c0) && nonempty (get_text c1)) eqn:E; [| exact H].
    apply andb_true_iff in E. destruct E. now apply setdefault_ok.
  - destruct (nonempty (get_text c0) && nonempty _) eqn:E; [| exact H].
    apply andb_true_iff in E. destruct E. now apply setdefault_ok.
Qed.

Lemma fold_harvest_ok (trs : list node) (kv : kvmap) :
  kv_entries_ok kv -> kv_entries_ok (fold_left harvest_row trs kv).
Proof.
  revert kv. induction trs as [|tr trs IH]; intros kv H; simpl; [exact H |].
  apply IH. now apply harvest_row_ok.
Qed.

(** X17.  The mapping harvested from any document has pairwise
    distinct labels, and no entry with an empty label or an empty
    value. *)
Theorem harvest_entries :
  forall d : soup,
    NoDup (map fst (harvest d)) /\
    forall k v, In (k, v) (harvest d) -> k <> EmptyString /\ v <> EmptyString.
Proof.
  intro d. apply fold_harvest_ok. split; [constructor | intros k v []].
Qed.

Lemma find_app_some {A : Type} (p : A -> bool) (l l' : list A) (x : A) :
  find p l = Some x -> find p (l ++ l') = Some x.
Proof.
  induction l as [|a l IH]; simpl; [discriminate |].
  destruct (p a); [trivial | exact IH].
Qed.

Lemma kv_hit_app (pat : regex) (kv kv' : kvmap) (v : string) :
  kv_hit pat kv = Some v -> kv_hit pat (kv ++ kv') = Some v.
Proof.
  unfold kv_hit. destruct (find _ kv) as [p|] eqn:E; [| discriminate].
  intro H. now rewrite (find_app_some _ kv kv' p E).
Qed.

Lemma kv_hit_harvest_row (pat : regex) (kv : kvmap) (tr : node) (v : string) :
  kv_hit pat kv = Some v -> kv_hit pat (harvest_row kv tr) = Some v.
Proof.
  intro H. unfold harvest_row, setdefault.
  destruct (find_all_cells tr) as [|c0 [|c1 [|c2 rest]]]; try exact H.
  - destruct (nonempty (get_text c0) && nonempty (get_text c1)); [| exact H].
    destruct (kv_has _ kv); [exact H | now apply kv_hit_app].
  - destruct (nonempty (get_text c0) && nonempty _); [| exact H].
    destruct (kv_has _ kv); [exact H | now apply kv_hit_app].
Qed.

(** X18.  First occurrence wins: once the rows read so far give a
    value for a label pattern, no later row changes it. *)
Theorem harvest_first_row_wins :
  forall (pat : regex) (rows later : list node) (v : string),
    kv_hit pat (fold_left harvest_row rows []) = Some v ->
    kv_hit pat (fold_left harvest_row (rows ++ later) []) = Some v.
Proof.
  intros pat rows later v H. rewrite fold_left_app.
  revert H. generalize (fold_left harvest_row rows []) as kv.
  induction later as [|tr later IH]; intros kv H; simpl; [exact H |].
  apply IH. now apply kv_hit_harvest_row.
Qed.

Lemma harvest_first_row_wins_witness :
  kv_hit (cat [lit "Land"; ws_star; lit "Value"])
    (fold_left harvest_row
       ([Tag "tr" [Tag "th" [Text "Land Value"]; Tag "td" [Text "$1"]]]
          ++ [Tag "tr" [Tag "th" [Text "Land Value"]; Tag "td" [Text "$2"]]]) [])
  = Some "$1".
Proof.
  apply harvest_first_row_wins. vm_compute. reflexivity.
Defined.

(** ** Consistency of the extracted record *)

Lemma parse_soup_fields (d : soup) (r : ExtractedRecord) :
  parse_soup d = Ok r ->
  let ff := fun l => find_first d (harvest d) (_LABEL_ALIASES l) in
  situs_address r = parse_situs (ff L_situs_address) /\
  owner_mailing_address r = parse_mailing (ff L_mailing_address) /\
  owner_names r = (if truthy (ff L_owner_name)
                   then match ff L_owner_name with Some o => [o] | None => [] end
                   else []) /\
  owner_type r = classify_owner_type (ff L_owner_name) /\
  doc_number (last_transfer r) = ff L_doc_number /\
  recording_date (last_transfer r) = ff L_recording_date /\
  use_code (property_details r) = ff L_use_code /\
  recorder_doc_url r
  = (if truthy (ff L_doc_number) then Some RECORDER_SEARCH_LANDING else None).
Proof.
  unfold parse_soup. intro H. repeat step_rbind H.
  injection H as <-. cbv zeta. simpl. repeat split.
Qed.

Lemma classify_owner_type_some (nm : string) :
  nonempty nm = true -> classify_owner_type (Some nm) <> None.
Proof.
  intro H. unfold classify_owner_type. rewrite H. simpl negb. cbv iota zeta.
  repeat match goal with
         | |- (if ?c then _ else _) <> None => destruct c; [discriminate |]
         end.
  discriminate.
Qed.

Lemma find_first_null_or_text (d : soup) (kv : kvmap) (patterns : list regex) :
  null_or_text (find_first d kv patterns).
Proof.
  unfold null_or_text. destruct (find_first d kv patterns) as [v|] eqn:E; [| now left].
  right. apply truthy_has_text. simpl. eapply find_first_nonempty. exact E.
Qed.

(** X19.  In every record the engine returns the derived fields agree
    with their sources: there is at most one owner name, the owner type
    is null exactly when there is none, the recorder URL is the fixed
    landing page exactly when a document number was found and null
    otherwise, and document number, recording date and use code are
    null or hold text. *)
Theorem record_derived_fields :
  forall (d : soup) (r : ExtractedRecord),
    parse_soup d = Ok r ->
    List.length (owner_names r) <= 1 /\
    (owner_type r = None <-> owner_names r = []) /\
    (forall o, In o (owner_names r) -> o <> EmptyString) /\
    (recorder_doc_url r = Some RECORDER_SEARCH_LANDING <->
     doc_number (last_transfer r) <> None) /\
    (recorder_doc_url r = None <-> doc_number (last_transfer r) = None) /\
    null_or_text (doc_number (last_transfer r)) /\
    null_or_text (recording_date (last_transfer r)) /\
    null_or_text (use_code (property_details r)).
Proof.
  intros d r H. destruct (parse_soup_fields d r H)
    as (_ & _ & Hon & Hot & Hdn & Hrd & Huc & Hurl).
  rewrite Hon, Hot, Hdn, Hrd, Huc, Hurl.
  pose proof (find_first_null_or_text d (harvest d) (_LABEL_ALIASES L_owner_name)) as Ho.
  pose proof (find_first_null_or_text d (harvest d) (_LABEL_ALIASES L_doc_number)) as Hd.
  split; [| split; [| split; [| split; [| split; [| split; [| split]]]]]];
    try apply find_first_null_or_text.
  - destruct (truthy _); [destruct (find_first _ _ _) |]; simpl; lia.
  - destruct Ho as [-> | Ho]; [simpl; tauto |].
    pose proof Ho as Ht. apply truthy_has_text in Ht. rewrite Ht.
    destruct Ho as (s & -> & Hs). split.
    + intro E. exfalso. revert E. apply classify_owner_type_some.
      now apply nonempty_true_iff.
    + discriminate.
  - intros o. destruct Ho as [-> | Ho]; [simpl; tauto |].
    pose proof Ho as Ht. apply truthy_has_text in Ht. rewrite Ht.
    destruct Ho as (s & -> & Hs). intros [<- | []]. exact Hs.
  - destruct Hd as [-> | Hd]; [simpl; split; [discriminate | tauto] |].
    pose proof Hd as Ht. apply truthy_has_text in Ht. rewrite Ht.
    destruct Hd as (s & -> & Hs). split; [discriminate | reflexivity].
  - destruct Hd as [-> | Hd]; [simpl; tauto |].
    pose proof Hd as Ht. apply truthy_has_text in Ht. rewrite Ht.
    destruct Hd as (s & -> & Hs). split; discriminate.
Qed.

Lemma record_derived_fields_witness :
  exists r,
    parse_soup (BeautifulSoup DEMO_HTML) = Ok r /\
    recorder_doc_url r = Some RECORDER_SEARCH_LANDING.
Proof.
  destruct (parse_soup (BeautifulSoup DEMO_HTML)) as [r|e] eqn:E;
    [| vm_compute in E; discriminate E].
  exists r. split; [reflexivity |].
  destruct (record_derived_fields _ r E) as (_ & _ & _ & Hurl & _).
  apply Hurl. vm_compute in E. injection E as <-. discriminate.
Defined.

Lemma split_all_or_nothing (o : option string) :
  let '(c, st, z) := split_city_state_zip o in
  (c = None /\ st = None /\ z = None) \/ (c <> None /\ st <> None /\ z <> None).
Proof.
  unfold split_city_state_zip. destruct o as [f|]; [| now left].
  destruct (negb (nonempty f)); [now left |].
  destruct (re_search false city_state_zip_re f); [| now left].
  right. repeat split; discriminate.
Qed.

Lemma parse_situs_shape (o : option string) :
  let s := parse_situs o in
  (street s = None -> s = null_address) /\
  (city s <> None <-> zip s <> None) /\
  (city s <> None -> state s <> None) /\
  null_or_text (state s).
Proof.
  assert (Hnull : let s := null_address in
                  (street s = None -> s = null_address) /\
                  (city s <> None <-> zip s <> None) /\
                  (city s <> None -> state s <> None) /\
                  null_or_text (state s)).
  { simpl. repeat split; try tauto. now left. }
  assert (Hsplit : forall st0 x,
             let '(c, st, z) := split_city_state_zip x in
             let s := mkAddress (Some st0) c (or_CA st) z in
             (street s = None -> s = null_address) /\
             (city s <> None <-> zip s <> None) /\
             (city s <> None -> state s <> None) /\
             null_or_text (state s)).
  { intros st0 x. pose proof (split_all_or_nothing x) as H.
    destruct (split_city_state_zip x) as [[c st] z]. simpl.
    pose proof (or_CA_has_text st) as Hst.
    assert (Hne : or_CA st <> None).
    { destruct Hst as (s & -> & _). discriminate. }
    split; [discriminate |]. split; [| split; [tauto | now right]].
    destruct H as [(-> & _ & ->) | (Hc & _ & Hz)]; tauto. }
  unfold parse_situs. destruct o as [f|]; [| exact Hnull].
  destruct (negb (nonempty f)); [exact Hnull |].
  destruct (stripped_lines f) as [|p0 [|p1 rest]]; [exact Hnull | |].
  - destruct (contains "," p0).
    + destruct (split_once "," p0) as [st0 rest].
      pose proof (Hsplit (strip st0) (Some (strip rest))) as H.
      destruct (split_city_state_zip (Some (strip rest))) as [[c st] z]. exact H.
    + simpl. repeat split; try tauto; try discriminate. now left.
  - pose proof (Hsplit p0 (Some p1)) as H.
    destruct (split_city_state_zip (Some p1)) as [[c st] z]. exact H.
Qed.

Lemma stripped_lines_nonempty (b l : string) :
  In l (stripped_lines b) -> l <> EmptyString.
Proof.
  unfold stripped_lines. intro H. apply filter_In in H.
  now apply nonempty_true_iff.
Qed.

Lemma parse_mailing_shape (o : option string) :
  city_state_zip_together (parse_mailing o) /\
  null_or_text (street (parse_mailing o)).
Proof.
  assert (Hnull : city_state_zip_together null_address /\
                  null_or_text (street null_address)).
  { split; [left; repeat split | now left]. }
  unfold parse_mailing. destruct o as [b|]; [| exact Hnull].
  destruct (negb (nonempty b)); [exact Hnull |].
  destruct (rev (stripped_lines b)) as [|lst before] eqn:Er; [exact Hnull |].
  pose proof (split_all_or_nothing (Some lst)) as H.
  destruct (split_city_state_zip (Some lst)) as [[c st] z]. split.
  - exact H.
  - simpl. destruct before as [|l2 before']; [now left |]. right.
    exists l2. split; [reflexivity |].
    apply (stripped_lines_nonempty b). apply in_rev. rewrite Er. simpl. tauto.
Qed.

(** X20.  The addresses of every record the engine returns are
    well-formed.  Situs: a null street means the whole address is null,
    city and zip are present together, a city comes with a state, and
    the state is null or holds text.  Mailing: city, state and zip are
    absent together or present together, and the street is null or
    holds text. *)
Theorem record_addresses :
  forall (d : soup) (r : ExtractedRecord),
    parse_soup d = Ok r ->
    (street (situs_address r) = None -> situs_address r = null_address) /\
    (city (situs_address r) <> None <-> zip (situs_address r) <> None) /\
    (city (situs_address r) <> None -> state (situs_address r) <> None) /\
    null_or_text (state (situs_address r)) /\
    city_state_zip_together (owner_mailing_address r) /\
    null_or_text (street (owner_mailing_address r)).
Proof.
  intros d r H. destruct (parse_soup_fields d r H) as (Hs & Hm & _).
  rewrite Hs, Hm.
  destruct (parse_situs_shape
              (find_first d (harvest d) (_LABEL_ALIASES L_situs_address)))
    as (H1 & H2 & H3 & H4).
  destruct (parse_mailing_shape
              (find_first d (harvest d) (_LABEL_ALIASES L_mailing_address)))
    as (H5 & H6).
  repeat split; try assumption; apply H2.
Qed.

Lemma record_addresses_witness :
  city_state_zip_together (owner_mailing_address parsed_sample) /\
  null_or_text (state (situs_address parsed_sample)).
Proof.
  assert (H : parse_soup (BeautifulSoup full_situs_page) = Ok parsed_sample)
    by (vm_compute; reflexivity).
  destruct (record_addresses _ _ H) as (_ & _ & _ & H4 & H5 & _).
  split; [exact H5 | exact H4].
Defined.

(** ** When extraction raises *)

Lemma int_accepts_false (ds : string) :
  int_accepts ds = false <->
  ds = EmptyString \/ (int_max_str_digits < Z.of_nat (String.length ds))%Z.
Proof.
  unfold int_accepts. destruct ds as [|c ds].
  - split; [now left | reflexivity].
  - change (nonempty (String c ds)) with true. rewrite andb_true_l, Z.leb_gt.
    split; [now right | intros [H | H]; [discriminate | exact H]].
Qed.

Lemma normalize_money_raises (o : option string) (e : exn) :
  normalize_money o = Raise e ->
  e = ValueError /\
  exists text run,
    o = Some text /\ money_run text = Some run /\
    int_accepts (sfilter is_digit run) = false.
Proof.
  destruct o as [v|]; [| discriminate].
  destruct (normalize_money_by_run v) as [E _]. rewrite E.
  destruct (money_run v) as [run|] eqn:Er; [| discriminate].
  destruct (int_accepts (sfilter is_digit run)) eqn:Ef; [discriminate |].
  intro H. injection H as <-. split; [reflexivity |].
  exists v, run. split; [reflexivity |]. split; [exact Er | exact Ef].
Qed.

Lemma normalize_money_raises_conv (text run : string) :
  money_run text = Some run -> int_accepts (sfilter is_digit run) = false ->
  normalize_money (Some text) = Raise ValueError.
Proof.
  intros Hr Hf. destruct (normalize_money_by_run text) as [E _].
  rewrite E, Hr, Hf. reflexivity.
Qed.

Ltac step_rbind_cbn H :=
  match type of H with
  | rbind ?c _ = Ok _ =>
      let x := fresh "x" in
      let E := fresh "E" in
      destruct c as [x|] eqn:E; cbn [rbind] in H; [| discriminate H]
  end.

(** X21.  Extraction raises exactly when, for one of the six money or
    area fields, the text that label resolution extracts has a first
    run of digits and commas that [int] refuses: a run without any
    digit, or one of more than 4300 digits; the exception is then
    [ValueError].  In every other case a record is returned.  Stated
    for documents of ASCII text. *)
Theorem parse_raises_iff :
  forall d : soup,
    soup_ascii d = true ->
    let ff := fun l => find_first d (harvest d) (_LABEL_ALIASES l) in
    ((exists e, parse_soup d = Raise e) <->
     exists l text run,
       In l money_labels /\ ff l = Some text /\
       money_run text = Some run /\
       (sfilter is_digit run = EmptyString \/
        (int_max_str_digits < Z.of_nat (String.length (sfilter is_digit run)))%Z)) /\
    (forall e, parse_soup d = Raise e -> e = ValueError).
Proof.
  intros d _ ff.
  assert (Hyear : forall l, exists r,
               safe_int (find_first d (harvest d) (_LABEL_ALIASES l)) = Ok r).
  { intro l.
    destruct (safe_int_range (find_first d (harvest d) (_LABEL_ALIASES l)))
      as (r & E & _).
    now exists r. }
  assert (Hfwd : forall e, parse_soup d = Raise e ->
                           e = ValueError /\
                           exists l text run,
                             In l money_labels /\ ff l = Some text /\
                             money_run text = Some run /\
                             int_accepts (sfilter is_digit run) = false).
  { intro e. unfold parse_soup. cbv zeta.
    destruct (Hyear L_year_built) as [yb ->]. cbn [rbind].
    destruct (normalize_money (find_first d (harvest d) (_LABEL_ALIASES L_living_sqft))) as [x1|e1] eqn:E1; cbn [rbind].
    2: { intro H. injection H as <-.
         destruct (normalize_money_raises _ _ E1) as (-> & text & run & Ht & Hr & Hf).
         split; [reflexivity |]. exists L_living_sqft, text, run.
         repeat split; try assumption. simpl. tauto. }
    destruct (normalize_money (find_first d (harvest d) (_LABEL_ALIASES L_lot_sqft))) as [x2|e2] eqn:E2; cbn [rbind].
    2: { intro H. injection H as <-.
         destruct (normalize_money_raises _ _ E2) as (-> & text & run & Ht & Hr & Hf).
         split; [reflexivity |]. exists L_lot_sqft, text, run.
         repeat split; try assumption. simpl. tauto. }
    destruct (normalize_money (find_first d (harvest d) (_LABEL_ALIASES L_sales_price))) as [x3|e3] eqn:E3; cbn [rbind].
    2: { intro H. injection H as <-.
         destruct (normalize_money_raises _ _ E3) as (-> & text & run & Ht & Hr & Hf).
         split; [reflexivity |]. exists L_sales_price, text, run.
         repeat split; try assumption. simpl. tauto. }
    destruct (normalize_money (find_first d (harvest d) (_LABEL_ALIASES L_assessed_land))) as [x4|e4] eqn:E4; cbn [rbind].
    2: { intro H. injection H as <-.
         destruct (normalize_money_raises _ _ E4) as (-> & text & run & Ht & Hr & Hf).
         split; [reflexivity |]. exists L_assessed_land, text, run.
         repeat split; try assumption. simpl. tauto. }
    destruct (normalize_money (find_first d (harvest d) (_LABEL_ALIASES L_assessed_impr))) as [x5|e5] eqn:E5; cbn [rbind].
    2: { intro H. injection H as <-.
         destruct (normalize_money_raises _ _ E5) as (-> & text & run & Ht & Hr & Hf).
         split; [reflexivity |]. exists L_assessed_impr, text, run.
         repeat split; try assumption. simpl. tauto. }
    destruct (normalize_money (find_first d (harvest d) (_LABEL_ALIASES L_assessed_total))) as [x6|e6] eqn:E6; cbn [rbind].
    2: { intro H. injection H as <-.
         destruct (normalize_money_raises _ _ E6) as (-> & text & run & Ht & Hr & Hf).
         split; [reflexivity |]. exists L_assessed_total, text, run.
         repeat split; try assumption. simpl. tauto. }
    destruct (Hyear L_assessed_year) as [yr ->]. cbn [rbind]. discriminate. }
  split; [split |].
  - intros [e He].
    destruct (Hfwd e He) as (_ & l & text & run & Hl & Ht & Hr & Hf).
    exists l, text, run. repeat (split; [assumption |]).
    now apply int_accepts_false.
  - intros (l & text & run & Hl & Ht & Hr & Hf).
    apply int_accepts_false in Hf.
    pose proof (normalize_money_raises_conv text run Hr Hf) as Hraise.
    rewrite <- Ht in Hraise.
    destruct (parse_soup d) as [r|e] eqn:Ep; [| now exists e].
    exfalso. unfold parse_soup in Ep. cbv zeta in Ep. unfold ff in Hraise.
    repeat step_rbind_cbn Ep.
    simpl in Hl.
    repeat match goal with
           | H : _ \/ _ |- _ => destruct H as [<- | H]
           | H : False |- _ => destruct H
           end; congruence.
  - intros e He. now apply (Hfwd e).
Qed.

(** ** Quoting of the identifier in the record-page URL *)

Lemma sforall_append (p : ascii -> bool) (a b : string) :
  sforall p (a ++ b) = sforall p a && sforall p b.
Proof.
  induction a as [|c a IH]; simpl; [reflexivity |]. now rewrite IH, andb_assoc.
Qed.

Lemma quote_char_safe (c : ascii) : sforall url_char (quote_char c) = true.
Proof. destruct c as [[] [] [] [] [] [] [] []]; reflexivity. Qed.

Lemma unquote_quote_char (c : ascii) (r : string) :
  unquote_text (quote_char c ++ r) = String c (unquote_text r).
Proof. destruct c as [[] [] [] [] [] [] [] []]; reflexivity. Qed.

Lemma unquote_quote_text (s : string) : unquote_text (quote_text s) = s.
Proof.
  induction s as [|c s IH]; [reflexivity |].
  simpl quote_text. now rewrite unquote_quote_char, IH.
Qed.

(** X22.  [quote_plus] accepts text only ([TypeError] otherwise); the
    quoted text is made of letters, digits and [_.-~+%] alone, and
    quoting is injective, so two different identifiers never lead to
    the same record-page URL. *)
Theorem quote_plus_safe_injective :
  (forall v q, quote_plus v = Ok q ->
               (exists s, v = JStr s) /\ sforall url_char q = true) /\
  (forall v, (forall s, v <> JStr s) -> quote_plus v = Raise TypeError) /\
  (forall v1 v2 q, quote_plus v1 = Ok q -> quote_plus v2 = Ok q -> v1 = v2) /\
  (forall s1 s2, assessor_url_of s1 = assessor_url_of s2 -> s1 = s2).
Proof.
  assert (Hsafe : forall s, sforall url_char (quote_text s) = true).
  { induction s as [|c s IH]; [reflexivity |].
    simpl quote_text. now rewrite sforall_append, quote_char_safe, IH. }
  assert (Hinj : forall s1 s2, quote_text s1 = quote_text s2 -> s1 = s2).
  { intros s1 s2 H. rewrite <- (unquote_quote_text s1), <- (unquote_quote_text s2).
    now rewrite H. }
  repeat split.
  - destruct v; try discriminate. now exists s.
  - destruct v; try discriminate. simpl in H. injection H as <-. apply Hsafe.
  - intros v Hv. destruct v; try reflexivity. now contradiction (Hv s).
  - intros v1 v2 q H1 H2. destruct v1; try discriminate. destruct v2; try discriminate.
    simpl in H1, H2. injection H1 as <-. injection H2 as H2. f_equal.
    now apply Hinj.
  - intros s1 s2 H. unfold assessor_url_of, ASSESSOR_APN_REDIRECT in H.
    apply Hinj.
    assert (Hcancel : forall p a b : string, (p ++ a)%string = (p ++ b)%string -> a = b).
    { induction p as [|c p IH]; simpl; intros a b E; [exact E |].
      injection E as E. now apply IH. }
    exact (Hcancel _ _ _ H).
Qed.

(** ** Case, white space and punctuation of the input *)

Lemma to_upper_lower (c : ascii) : to_upper (to_lower c) = to_upper c.
Proof. destruct c as [[] [] [] [] [] [] [] []]; reflexivity. Qed.

Lemma to_upper_upper (c : ascii) : to_upper (to_upper c) = to_upper c.
Proof. destruct c as [[] [] [] [] [] [] [] []]; reflexivity. Qed.

Lemma upper_lower (s : string) : upper (lower s) = upper s.
Proof.
  unfold upper, lower. induction s as [|c s IH]; simpl; [reflexivity |].
  now rewrite to_upper_lower, IH.
Qed.

Lemma upper_upper (s : string) : upper (upper s) = upper s.
Proof.
  unfold upper. induction s as [|c s IH]; simpl; [reflexivity |].
  now rewrite to_upper_upper, IH.
Qed.

Lemma nonempty_smap (f : ascii -> ascii) (s : string) : nonempty (smap f s) = nonempty s.
Proof. now destruct s. Qed.

(** X23.  Owner classification does not depend on letter case: a
    name, its upper-case form and its lower-case form are classified
    alike. *)
Theorem classify_owner_type_case :
  forall nm : string,
    classify_owner_type (Some (upper nm)) = classify_owner_type (Some nm) /\
    classify_owner_type (Some (lower nm)) = classify_owner_type (Some nm).
Proof.
  intro nm. unfold classify_owner_type. cbv zeta.
  rewrite upper_upper, upper_lower.
  unfold upper at 1, lower at 1. now rewrite !nonempty_smap.
Qed.

(** X24.  White space around the query plays no part: searching for a
    text and for its stripped form is the same computation. *)
Theorem search_property_strip :
  forall (w : World) (q : string),
    search_property w (strip q) = search_property w q.
Proof.
  intros w q. unfold search_property. cbv zeta. now rewrite strip_idempotent.
Qed.

(** X25.  Two parcel-id queries that hold the same nine digits, however
    they are punctuated with dashes and spaces, run the same search:
    same requests, same result. *)
Theorem search_property_punctuation :
  forall (w : World) (q1 q2 : string),
    is_probable_apn (strip q1) = true ->
    is_probable_apn (strip q2) = true ->
    bare_digits q1 = bare_digits q2 ->
    String.length (bare_digits q1) = 9 ->
    search_property w q1 = search_property w q2.
Proof.
  intros w q1 q2 H1 H2 Hd Hl. unfold search_property. cbv zeta. rewrite H1, H2.
  unfold search_apn_path. cbv zeta.
  assert (Hn : forall q, String.length (bare_digits q) = 9 ->
                         normalize_apn (strip q) = dashed (bare_digits q)).
  { intros q Hq. unfold normalize_apn. cbv zeta. rewrite strip_digits, Hq. reflexivity. }
  rewrite (Hn q1 Hl), (Hn q2 ltac:(now rewrite <- Hd)).
  now rewrite !strip_digits, Hd.
Qed.

Lemma search_property_punctuation_witness :
  search_property world_like "235-12-0035" = search_property world_like " 235 120035".
Proof.
  apply search_property_punctuation; vm_compute; reflexivity.
Defined.

(** ** The first feature of a response *)

(** X26.  On a response body that is a dict whose [features] entry is
    a list, is null or is missing, [first_feature] never raises: it
    returns the first element of the list (further elements play no
    part), and null when there is none.  A body that is not a dict
    raises [AttributeError]. *)
Theorem first_feature_cases :
  (forall d : list (string * json),
      (dict_get "features" d = None \/ dict_get "features" d = Some JNull \/
       exists l, dict_get "features" d = Some (JList l)) ->
      first_feature (JDict d) =
      Ok (match dict_get "features" d with
          | Some (JList (f :: _)) => f
          | _ => JNull
          end)) /\
  (forall js : json, (forall d, js <> JDict d) -> first_feature js = Raise AttributeError).
Proof.
  split.
  - intros d [H | [H | [l H]]]; unfold first_feature; simpl; rewrite H; try reflexivity.
    now destruct l.
  - intros js H. destruct js; try reflexivity. now contradiction (H d).
Qed.

Lemma first_feature_cases_witness :
  first_feature (JDict [("features", JList [like_feature; feature_without_apn])])
  = Ok like_feature.
Proof.
  apply (proj1 first_feature_cases
           [("features", JList [like_feature; feature_without_apn])]).
  right. right. eexists. reflexivity.
Defined.

(** ** Instances *)

Lemma extract_situs_errors_witness :
  (exists g, extract_situs_from_feature like_feature = Ok (Some g)) /\
  extract_situs_from_feature (JStr "feature") = Raise AttributeError.
Proof.
  split.
  - apply (proj1 extract_situs_errors); [discriminate |].
    intros v H. right. simpl in H. injection H as <-. eexists. reflexivity.
  - apply (proj2 extract_situs_errors); [reflexivity | discriminate].
Defined.

Lemma patch_candidate_keys_witness :
  exists d',
    patch_candidate (candidate 95 "a") = JDict d' /\
    dict_get "score" d' = Some (JNum 95) /\
    dict_get "attributes" d' = Some (JDict []).
Proof.
  destruct (patch_candidate_keys
              [("address", JStr "a"); ("score", JNum 95);
               ("location", JDict [("x", JNum 1); ("y", JNum 2)])])
    as (d' & E & Hkeep & Hadd).
  exists d'. split; [exact E |]. split.
  - apply Hkeep. reflexivity.
  - exact (Hadd "attributes" eq_refl).
Defined.

Lemma normalize_money_run_witness :
  normalize_money (Some "-$1,250,000.50") = Ok (Some 1250000%Z) /\
  (0 <= 1250000)%Z /\
  normalize_money (Some long_numeral) = Raise ValueError.
Proof.
  assert (H : normalize_money (Some "-$1,250,000.50") = Ok (Some 1250000%Z)).
  { rewrite (proj1 (normalize_money_run "-$1,250,000.50" eq_refl)).
    vm_compute. reflexivity. }
  split; [exact H |]. split.
  - exact (proj2 (normalize_money_run "-$1,250,000.50" eq_refl) _ H).
  - assert (Ha : ascii_text long_numeral = true) by (vm_compute; reflexivity).
    rewrite (proj1 (normalize_money_run long_numeral Ha)). vm_compute. reflexivity.
Defined.

Lemma parse_raises_iff_witness :
  (exists e, parse_soup (BeautifulSoup comma_page) = Raise e) /\
  (exists e, parse_soup long_value_page = Raise e).
Proof.
  split.
  - apply (proj1 (parse_raises_iff (BeautifulSoup comma_page) eq_refl)).
    exists L_assessed_land, ",", ",".
    split; [simpl; tauto |]. split; [vm_compute; reflexivity |].
    split; [reflexivity | left; reflexivity].
  - assert (Ha : soup_ascii long_value_page = true) by (vm_compute; reflexivity).
    apply (proj1 (parse_raises_iff long_value_page Ha)).
    exists L_assessed_land, long_numeral, (srepeat "1" 4301).
    split; [simpl; tauto |]. split; [vm_compute; reflexivity |].
    split; [vm_compute; reflexivity | right; vm_compute; reflexivity].
Defined.

Lemma quote_plus_safe_injective_witness :
  sforall url_char "235-12+003%2Fa" = true /\
  (assessor_url_of "235-12-003" = assessor_url_of "235-12-003" ->
   "235-12-003" = "235-12-003").
Proof.
  destruct quote_plus_safe_injective as (Hsafe & _ & _ & Hurl).
  split.
  - apply (Hsafe (JStr "235-12 003/a")). vm_compute. reflexivity.
  - apply Hurl.
Defined.

(** ** The homeowner exemption flag: the three outcomes (C9) *)

(** The string the document-wide search finds is a string of the
    document that the pattern matches. *)
Lemma find_string_found (pat : regex) (n : node) :
  forall nnext pnext lab sibs,
    find_string pat n nnext pnext = Some (lab, sibs) ->
    In lab (all_strings n) /\ re_test true pat lab = true.
Proof.
  induction n as [s | t cs IH] using node_induction; intros nnext pnext lab sibs.
  - simpl. destruct (re_test true pat s) eqn:E; [| discriminate].
    intro H. injection H as <- _. split; [now left | exact E].
  - simpl. induction IH as [|c rest Hc _ IHrest]; [discriminate |].
    simpl. destruct (find_string pat c rest nnext) as [[lab' sibs']|] eqn:E.
    + intro H. injection H as -> ->. destruct (Hc _ _ _ _ E) as [Hin Hm].
      split; [| exact Hm]. apply in_or_app. now left.
    + intro H. destruct (IHrest H) as [Hin Hm].
      split; [| exact Hm]. apply in_or_app. now right.
Qed.

Lemma soup_find_string_found (pat : regex) (d : soup) (lab : string) (sibs : list node) :
  soup_find_string pat d = Some (lab, sibs) ->
  In lab (soup_strings d) /\ re_test true pat lab = true.
Proof.
  unfold soup_strings. induction d as [|c rest IH]; simpl; [discriminate |].
  destruct (find_string pat c rest []) as [[lab' sibs']|] eqn:E.
  - intro H. injection H as -> ->. destruct (find_string_found _ _ _ _ _ _ E) as [Hin Hm].
    split; [| exact Hm]. apply in_or_app. now left.
  - intro H. destruct (IH H) as [Hin Hm].
    split; [| exact Hm]. apply in_or_app. now right.
Qed.

(** The mapping search fails exactly when no harvested label matches. *)
Lemma kv_hit_none (pat : regex) (kv : kvmap) :
  kv_entries_ok kv ->
  (kv_hit pat kv = None <-> forall k v, In (k, v) kv -> re_test true pat k = false).
Proof.
  intros [_ Hne]. unfold kv_hit. split.
  - destruct (find _ kv) as [p|] eqn:Hf; [discriminate |]. intros _ k v Hin.
    pose proof (find_none _ _ Hf (k, v) Hin) as H. simpl in H.
    destruct (Hne k v Hin) as [_ Hv].
    destruct (re_test true pat k); [| reflexivity].
    destruct v; [now contradiction Hv | discriminate H].
  - intro H. destruct (find _ kv) as [[k v]|] eqn:Hf; [| reflexivity].
    apply find_some in Hf. destruct Hf as [Hin Hp]. simpl in Hp.
    rewrite (H k v Hin) in Hp. discriminate.
Qed.

(** The document-wide search fails exactly when the element that
    follows the parent of the first matching string, if there is one,
    has no text. *)
Lemma doc_hit_none (pat : regex) (d : soup) :
  re_test true pat EmptyString = false ->
  (doc_hit pat d = None <->
   forall lab sibs sib,
     soup_find_string pat d = Some (lab, sibs) ->
     find_next_sibling sibs = Some sib -> get_text sib = EmptyString).
Proof.
  intro Hpat. unfold doc_hit.
  destruct (soup_find_string pat d) as [[lab sibs]|] eqn:E.
  - destruct (soup_find_string_found _ _ _ _ E) as [_ Hm].
    assert (Hl : nonempty lab = true).
    { destruct lab; [congruence | reflexivity]. }
    rewrite Hl. destruct (find_next_sibling sibs) as [sib|] eqn:Es.
    + destruct (get_text sib) as [|c x] eqn:Et; simpl.
      * split; [| reflexivity]. intros _ lab' sibs' sib' H1 H2.
        injection H1 as <- <-. rewrite Es in H2. injection H2 as <-. exact Et.
      * split; [discriminate |]. intro H. specialize (H _ _ _ eq_refl Es).
        rewrite Et in H. discriminate.
    + split; [| reflexivity]. intros _ lab' sibs' sib' H1 H2.
      injection H1 as <- <-. rewrite Es in H2. discriminate.
  - split; [| reflexivity]. intros _ lab' sibs' sib' H1. discriminate.
Qed.

Lemma harvest_ok (d : soup) : kv_entries_ok (harvest d).
Proof. apply fold_harvest_ok. split; [constructor | intros k v []]. Qed.

Lemma find_first_none (d : soup) (kv : kvmap) (patterns : list regex) :
  find_first d kv patterns = None <->
  forall q, In q patterns -> kv_hit q kv = None /\ doc_hit q d = None.
Proof.
  induction patterns as [|p rest IH]; simpl.
  - split; [intros _ q [] | reflexivity].
  - split.
    + destruct (kv_hit p kv) eqn:Hk; [discriminate |].
      destruct (doc_hit p d) eqn:Hd; [discriminate |].
      intros H q [<- | Hq]; [now split | now apply IH].
    + intro H. destruct (H p (or_introl eq_refl)) as [-> ->].
      apply IH. intros q Hq. apply H. now right.
Qed.

(** No text is extracted for the exemption label exactly when no
    harvested label matches and the document-wide search ends without
    text. *)
Lemma exemption_text_none (d : soup) :
  find_first d (harvest d) (_LABEL_ALIASES L_homeowner_exemption) = None <->
  forall pat, In pat (_LABEL_ALIASES L_homeowner_exemption) ->
    (forall k v, In (k, v) (harvest d) -> re_test true pat k = false) /\
    (forall lab sibs sib,
        soup_find_string pat d = Some (lab, sibs) ->
        find_next_sibling sibs = Some sib -> get_text sib = EmptyString).
Proof.
  rewrite find_first_none. split; intros H pat Hin; specialize (H pat Hin).
  - assert (Hpat : re_test true pat EmptyString = false).
    { destruct Hin as [<- | []]. vm_compute. reflexivity. }
    destruct H as [Hk Hd]. split.
    + now apply (kv_hit_none pat (harvest d) (harvest_ok d)).
    + now apply (doc_hit_none pat d Hpat).
  - assert (Hpat : re_test true pat EmptyString = false).
    { destruct Hin as [<- | []]. vm_compute. reflexivity. }
    destruct H as [Hk Hd]. split.
    + now apply (kv_hit_none pat (harvest d) (harvest_ok d)).
    + now apply (doc_hit_none pat d Hpat).
Qed.

(** A label that is not found yields no text. *)
Lemma not_found_no_text (l : label) (d : soup) :
  ~ label_found l d -> find_first d (harvest d) (_LABEL_ALIASES l) = None.
Proof.
  intro Hnf. apply find_first_none. intros pat Hin. split.
  - apply (kv_hit_none pat (harvest d) (harvest_ok d)). intros k v Hkv.
    destruct (re_test true pat k) eqn:E; [| reflexivity].
    exfalso. apply Hnf. exists pat. split; [exact Hin |]. left. now exists k, v.
  - unfold doc_hit.
    destruct (soup_find_string pat d) as [[lab sibs]|] eqn:E; [| reflexivity].
    destruct (soup_find_string_found _ _ _ _ E) as [Hs Hm].
    exfalso. apply Hnf. exists pat. split; [exact Hin |]. right. now exists lab.
Qed.

(** C9 (as amended).  With [hx] the text that label resolution
    extracts for the homeowner-exemption label, the field of every
    record the engine returns is true exactly when [hx] matches
    [\b(yes|y|true)\b] ignoring case, and an explicit false exactly
    when [hx] is present and does not match.  It is null exactly when
    no text is extracted: no harvested row label matches the label
    pattern, and the document-wide search ends without text (no string
    of the document matches, or the element enclosing the first match
    has no following sibling element, or that element has no text).
    A label that is not found at all therefore gives null.  Stated
    for documents of ASCII text. *)
Theorem C9_homeowner_exemption :
  forall (d : soup) (r : ExtractedRecord),
    soup_ascii d = true ->
    parse_soup d = Ok r ->
    let hx := find_first d (harvest d) (_LABEL_ALIASES L_homeowner_exemption) in
    (homeowner_exemption r = Some true <->
       exists t, hx = Some t /\ re_test true yes_re t = true) /\
    (homeowner_exemption r = Some false <->
       exists t, hx = Some t /\ re_test true yes_re t = false) /\
    (homeowner_exemption r = None <->
       forall pat, In pat (_LABEL_ALIASES L_homeowner_exemption) ->
         (forall k v, In (k, v) (harvest d) -> re_test true pat k = false) /\
         (forall lab sibs sib,
             soup_find_string pat d = Some (lab, sibs) ->
             find_next_sibling sibs = Some sib -> get_text sib = EmptyString)) /\
    (~ label_found L_homeowner_exemption d -> homeowner_exemption r = None).
Proof.
  intros d r _ H hx. rewrite (parse_soup_exemption d r H). fold hx.
  assert (Hnone : parse_exemption hx = None <-> hx = None).
  { destruct hx as [t|] eqn:Hx; simpl; [| tauto].
    rewrite (find_first_nonempty _ _ _ _ Hx). split; discriminate. }
  split; [| split; [| split]].
  - destruct hx as [t|] eqn:Hx; simpl.
    + rewrite (find_first_nonempty _ _ _ _ Hx). split.
      * intro E. exists t. split; [reflexivity | congruence].
      * intros (t' & E & Ht). congruence.
    + split; [discriminate | intros (t & E & _); discriminate].
  - destruct hx as [t|] eqn:Hx; simpl.
    + rewrite (find_first_nonempty _ _ _ _ Hx). split.
      * intro E. exists t. split; [reflexivity | congruence].
      * intros (t' & E & Ht). congruence.
    + split; [discriminate | intros (t & E & _); discriminate].
  - rewrite Hnone. unfold hx. apply exemption_text_none.
  - intro Hnf. apply Hnone. unfold hx. now apply not_found_no_text.
Qed.

Lemma C9_witness :
  soup_ascii (BeautifulSoup exemption_no_page) = true /\
  exists r,
    parse_soup (BeautifulSoup exemption_no_page) = Ok r /\
    (homeowner_exemption r = Some false <->
       exists t, find_first (BeautifulSoup exemption_no_page)
                   (harvest (BeautifulSoup exemption_no_page))
                   (_LABEL_ALIASES L_homeowner_exemption) = Some t /\
                 re_test true yes_re t = false).
Proof.
  split; [vm_compute; reflexivity |].
  eexists. split.
  - vm_compute. reflexivity.
  - apply (C9_homeowner_exemption (BeautifulSoup exemption_no_page));
      vm_compute; reflexivity.
Defined.

(** C9 as stated fails: on a page that holds the label and, as plain
    text after the label's element, the value No, the label is found
    and the field is null all the same, neither the explicit false of
    a present negative value nor the null of a label that is not
    found. *)
Lemma C9_counterexample :
  exists r,
    parse_property_page loose_exemption_page = Ok r /\
    In " No" (soup_strings (BeautifulSoup loose_exemption_page)) /\
    homeowner_exemption r <> Some false /\
    ~ (homeowner_exemption r = None ->
       ~ label_found L_homeowner_exemption (BeautifulSoup loose_exemption_page)).
Proof.
  eexists. split; [vm_compute; reflexivity |].
  split; [vm_compute; tauto |]. split; [discriminate |].
  intro H. apply H; [reflexivity |].
  eexists. split; [left; reflexivity |]. right.
  exists "Homeowner's Exemption". split; vm_compute; [tauto | reflexivity].
Qed.
